(** * Omokabet backend (server.js): ledger model and properties

    A shallow embedding of [server.js] (Node.js + Express + PostgreSQL):
    JavaScript values and numbers, the four relations of the schema, the
    store with its transactions, the two middlewares and every route
    handler, followed by the properties of the money-moving routes. *)

From Stdlib Require Import ZArith List String Ascii Bool Lia QArith Qabs.
From Stdlib Require Import SpecFloat.
From Stdlib Require Import Permutation Sorted.
Import ListNotations.
Open Scope string_scope.
Open Scope Z_scope.

(** ** JavaScript numbers

    A JavaScript number is an IEEE-754 binary64 value.  The operations
    are those of the Standard Library's specification of binary floating
    point, at precision 53 and maximal exponent 1024 (round to nearest,
    ties to even). *)
Module JS.

Definition prec : Z := 53.
Definition emax : Z := 1024.

Definition number : Type := spec_float.

Definition NaN : number := S754_nan.
Definition zero : number := S754_zero false.

(** [a + b], [a - b], [a < b] and [a <= b] on numbers. *)
Definition add (a b : number) : number := SFadd prec emax a b.
Definition sub (a b : number) : number := SFsub prec emax a b.
Definition div (a b : number) : number := SFdiv prec emax a b.
Definition lt (a b : number) : bool := SFltb a b.
Definition le (a b : number) : bool := SFleb a b.

(** The number nearest to an integer (an integer literal such as [50]). *)
Definition of_Z (z : Z) : number := binary_normalize prec emax z 0 false.

(** The number nearest to the decimal literal [m / 10^k], for [m] and
    [10^k] below 2^53 (both are then exact and the division rounds
    once). *)
Definition of_decimal (m : Z) (k : Z) : number := div (of_Z m) (of_Z (10 ^ k)).

Definition is_nan (d : number) : bool :=
  match d with S754_nan => true | _ => false end.

Definition is_zero (d : number) : bool :=
  match d with S754_zero _ => true | _ => false end.

(** The exact rational value of a finite number. *)
Definition to_Q (d : number) : option Q :=
  match d with
  | S754_zero _ => Some 0%Q
  | S754_finite s m e =>
      let v := match e with
               | Zneg p => Qmake (Zpos m) (2 ^ p)%positive
               | _ => inject_Z (Zpos m * 2 ^ e)
               end in
      Some (if s then Qopp v else v)
  | _ => None
  end.

(** *** Primitive values of a JSON request body

    [Undefined] stands for a field the body does not have. *)
Inductive value : Type :=
  | Undefined
  | Null
  | Bool (b : bool)
  | Num (d : number)
  | Str (s : string).

(** ToBoolean: [undefined], [null], [false], [+0], [-0], [NaN] and the
    empty string are falsy. *)
Definition truthy (v : value) : bool :=
  match v with
  | Undefined | Null => false
  | Bool b => b
  | Num d => negb (is_zero d || is_nan d)
  | Str s => negb (String.eqb s "")
  end.

(** The integer a number denotes, if it denotes one of at most 32 bits
    ([None] otherwise: a fraction, an infinity, NaN or a larger value). *)
Definition to_int32 (d : number) : option Z :=
  match d with
  | S754_zero _ => Some 0
  | S754_finite s m e =>
      let sign (z : Z) := if s then - z else z in
      if 0 <=? e then
        if e <=? 31 then
          let z := Zpos m * 2 ^ e in
          if z <? 2 ^ 32 then Some (sign z) else None
        else None
      else
        let q := 2 ^ (- e) in
        if (Zpos m) mod q =? 0 then
          let z := Zpos m / q in
          if z <? 2 ^ 32 then Some (sign z) else None
        else None
  | _ => None
  end.

End JS.

(** ** Collaborators outside the file

    [server.js] calls into the JavaScript runtime, [bcrypt],
    [jsonwebtoken] and PostgreSQL's input functions.  Their behaviour on
    text is not defined by the repository; the model takes it as an
    interface, and every property below holds for every implementation
    of it. *)
Class Externals : Type := {
  (** ECMAScript StringToNumber on a non-empty string. *)
  StringToNumber : string -> JS.number;
  (** ECMAScript Number::toString. *)
  NumberToString : JS.number -> string;
  (** String.prototype.toLowerCase. *)
  toLowerCase : string -> string;
  (** PostgreSQL's [numeric] input function on text: the number that
      [Number] yields when the stored cell is read back, or [None] for
      an invalid text representation. *)
  numeric_in : string -> option JS.number;
  (** PostgreSQL's [integer] input function on text. *)
  int4_in : string -> option Z;
  (** [bcrypt.hash(password, 10)], with the salt it draws. *)
  bcrypt_hash : string -> string -> string;
  (** [bcrypt.compare(password, hash)]. *)
  bcrypt_compare : string -> string -> bool;
  (** [jwt.sign({ id, email }, JWT_SECRET, { expiresIn: '7d' })] at a
      given time. *)
  jwt_sign : Z -> string -> Z -> string;
  (** [jwt.verify(token, JWT_SECRET)] at a given time: the payload's
      [id] and [email], or [None] when verification throws. *)
  jwt_verify : string -> Z -> option (Z * string);
  (** [process.env.ADMIN_EMAIL], when the variable is set. *)
  env_ADMIN_EMAIL : option string
}.

(** What a call may throw, and what it returns otherwise. *)
Inductive error : Type :=
  | StoreFailure              (* the store or the connection failed *)
  | UniqueViolation           (* SQLSTATE 23505 *)
  | NotNullViolation          (* SQLSTATE 23502 *)
  | ForeignKeyViolation       (* SQLSTATE 23503 *)
  | InvalidTextRepresentation (* SQLSTATE 22P02, or a value out of range *)
  | TypeError                 (* a property read on undefined, a method on a non-string *)
  | BcryptError.              (* bcrypt refuses data that is not a string *)

Inductive outcome (A : Type) : Type :=
  | Ok (a : A)
  | Throw (e : error).
Arguments Ok {A} a.
Arguments Throw {A} e.

Section Conversions.
Context {ext : Externals}.

(** [Number(v)]. *)
Definition Number (v : JS.value) : JS.number :=
  match v with
  | JS.Undefined => JS.NaN
  | JS.Null => JS.zero
  | JS.Bool b => if b then JS.of_Z 1 else JS.zero
  | JS.Num d => d
  | JS.Str s => if String.eqb s "" then JS.zero else StringToNumber s
  end.

(** *** Query parameters

    node-postgres sends a parameter as text ([null] and [undefined] as
    NULL) and PostgreSQL parses it at the column's type.  A NUMERIC cell
    is represented by the number that [Number] yields from its text
    output, which is how every handler reads it. *)
Definition numeric : Type := JS.number.

(** A JavaScript number written to a NUMERIC column: its decimal text
    reads back as the same number, except that [-0] is printed as [0].
    [NaN] and the infinities are NUMERIC values too (the infinities
    since PostgreSQL 14). *)
Definition numeric_of_number (d : JS.number) : numeric :=
  match d with
  | S754_zero _ => JS.zero
  | _ => d
  end.

(** The text node-postgres sends for a parameter; [None] is NULL. *)
Definition param_text (v : JS.value) : option string :=
  match v with
  | JS.Undefined | JS.Null => None
  | JS.Bool b => Some (if b then "true" else "false")
  | JS.Num d => Some (NumberToString d)
  | JS.Str s => Some s
  end.

(** A parameter at a NUMERIC column: [Ok None] is NULL. *)
Definition sql_numeric (v : JS.value) : outcome (option numeric) :=
  match v with
  | JS.Undefined | JS.Null => Ok None
  | JS.Num d => Ok (Some (numeric_of_number d))
  | JS.Bool b =>
      match numeric_in (if b then "true" else "false") with
      | Some c => Ok (Some c)
      | None => Throw InvalidTextRepresentation
      end
  | JS.Str s =>
      match numeric_in s with
      | Some c => Ok (Some c)
      | None => Throw InvalidTextRepresentation
      end
  end.

(** A parameter at an INTEGER column. *)
Definition sql_int (v : JS.value) : outcome (option Z) :=
  match v with
  | JS.Undefined | JS.Null => Ok None
  | JS.Num d =>
      match JS.to_int32 d with
      | Some z =>
          if (- 2 ^ 31 <=? z) && (z <? 2 ^ 31) then Ok (Some z)
          else Throw InvalidTextRepresentation
      | None => Throw InvalidTextRepresentation
      end
  | JS.Bool b =>
      match int4_in (if b then "true" else "false") with
      | Some z => Ok (Some z)
      | None => Throw InvalidTextRepresentation
      end
  | JS.Str s =>
      match int4_in s with
      | Some z => Ok (Some z)
      | None => Throw InvalidTextRepresentation
      end
  end.

End Conversions.

(** ** The schema (initDb)

    One record per relation; a field per column, under the column's
    name.  A nullable column is an [option], except the two references
    that every INSERT of the file fills ([user_id]).  A timestamp is a
    count of clock ticks.  The two [status] columns are TEXT; the file
    writes ['open'] and ['settled'] to one, ['pending'] and ['approved']
    to the other, and nothing else. *)
Module User.
Record t : Type := make {
  id : Z;                        (* SERIAL PRIMARY KEY *)
  email : string;                (* TEXT UNIQUE NOT NULL *)
  password_hash : string;        (* TEXT NOT NULL *)
  full_name : option string;     (* TEXT *)
  created_at : Z;                (* TIMESTAMP WITH TIME ZONE DEFAULT now() *)
  balance : option numeric;      (* NUMERIC DEFAULT 0 *)
  is_admin : option bool         (* BOOLEAN DEFAULT false *)
}.
End User.

Module Match.
Record t : Type := make {
  id : Z;
  home : string;                 (* TEXT NOT NULL *)
  away : string;                 (* TEXT NOT NULL *)
  odds : numeric;                (* NUMERIC NOT NULL *)
  created_at : Z
}.
End Match.

Module Bet.
Inductive status_t : Type := open | settled.
Record t : Type := make {
  id : Z;
  user_id : Z;                   (* INTEGER REFERENCES users(id) *)
  match_id : option Z;           (* INTEGER REFERENCES matches(id) *)
  stake : numeric;               (* NUMERIC NOT NULL *)
  status : status_t;             (* TEXT DEFAULT 'open' *)
  payout : option numeric;       (* NUMERIC DEFAULT 0 *)
  created_at : Z
}.
End Bet.

Module Deposit.
Inductive status_t : Type := pending | approved.
Record t : Type := make {
  id : Z;
  user_id : Z;                   (* INTEGER REFERENCES users(id) *)
  amount : numeric;              (* NUMERIC NOT NULL *)
  status : status_t;             (* TEXT DEFAULT 'pending' *)
  created_at : Z;
  approved_by : option Z;        (* INTEGER REFERENCES users(id) *)
  approved_at : option Z
}.
End Deposit.

(** The store: the four tables, rows in insertion order, and the
    sequences behind the SERIAL columns (the next value of each).  A
    sequence is not transactional: a value drawn by a statement that
    fails or is rolled back stays drawn. *)
Record store : Type := mkStore {
  users : list User.t;
  matches : list Match.t;
  bets : list Bet.t;
  deposits : list Deposit.t;
  users_id_seq : Z;
  matches_id_seq : Z;
  bets_id_seq : Z;
  deposits_id_seq : Z
}.

Definition empty_store : store := mkStore [] [] [] [] 1 1 1 1.

(** Two stores hold the same rows. *)
Definition same_rows (s s' : store) : Prop :=
  users s' = users s /\ matches s' = matches s /\
  bets s' = bets s /\ deposits s' = deposits s.

(** ROLLBACK: the rows of the snapshot, the sequences as they are. *)
Definition restore (snapshot current : store) : store :=
  mkStore (users snapshot) (matches snapshot) (bets snapshot) (deposits snapshot)
          (users_id_seq current) (matches_id_seq current)
          (bets_id_seq current) (deposits_id_seq current).

(** ** Responses *)
#[warnings="-register-all"]
Inductive json : Type :=
  | JNull
  | JBool (b : bool)
  | JNum (d : JS.number)         (* a JavaScript number *)
  | JInt (z : Z)                 (* an INTEGER cell *)
  | JStr (s : string)
  | JNumeric (c : numeric)       (* a NUMERIC cell, which node-postgres returns as text *)
  | JTime (t : Z)                (* a timestamp cell *)
  | JObj (fields : list (string * json))
  | JArr (items : list json).

Record response : Type := mkResponse {
  status : Z;
  payload : json
}.

(** [res.json(body)] and [res.status(code).json(body)]. *)
Definition res_json (body : json) : response := mkResponse 200 body.
Definition res_status_json (code : Z) (body : json) : response := mkResponse code body.
Definition res_error (code : Z) (message : string) : response :=
  res_status_json code (JObj [("error", JStr message)]).

Definition nullable {A : Type} (f : A -> json) (c : option A) : json :=
  match c with Some a => f a | None => JNull end.

(** Property lookup and [delete obj.key] on an object. *)
Fixpoint get_key (k : string) (fields : list (string * json)) : option json :=
  match fields with
  | [] => None
  | (k', v) :: rest => if String.eqb k k' then Some v else get_key k rest
  end.

Definition delete_key (k : string) (fields : list (string * json)) : list (string * json) :=
  filter (fun kv => negb (String.eqb k (fst kv))) fields.

(** ** Requests

    A request carries its Authorization header and its JSON body, the
    fields of which are primitive values.  The context of a request is
    what the server does not choose: the clock, the salt bcrypt draws,
    and which of the request's calls to the store fail. *)
Record request : Type := mkRequest {
  authorization : option string;
  body : list (string * JS.value)
}.

(** [body.k]; a body lists each of its keys once. *)
Fixpoint field (k : string) (b : list (string * JS.value)) : JS.value :=
  match b with
  | [] => JS.Undefined
  | (k', v) :: rest => if String.eqb k k' then v else field k rest
  end.

Record context : Type := mkContext {
  now : Z;
  salt : string;
  fails : nat -> bool
}.

(** No call to the store fails. *)
Definition reliable (ctx : context) : Prop := forall n, fails ctx n = false.

(** [req.user], the verified token's payload. *)
Record identity : Type := mkIdentity {
  ident_id : Z;
  ident_email : string
}.

(** ** The connection monad

    A handler runs against one connection.  The connection holds the
    store as the handler sees it, the snapshot taken by BEGIN while a
    transaction is open, and the number of calls made so far.  Handlers
    are taken one at a time: a transaction that locks its rows (FOR
    UPDATE) is serial with respect to the others on those rows. *)
Record conn : Type := mkConn {
  snapshot : option store;
  current : store;
  calls : nat
}.

Definition M (A : Type) : Type := context -> conn -> outcome A * conn.

Definition ret {A : Type} (a : A) : M A := fun _ c => (Ok a, c).

Definition bind {A B : Type} (m : M A) (k : A -> M B) : M B :=
  fun ctx c =>
    match m ctx c with
    | (Ok a, c') => k a ctx c'
    | (Throw e, c') => (Throw e, c')
    end.

Definition throw {A : Type} (e : error) : M A := fun _ c => (Throw e, c).

(** [try { body } catch (err) { handler }]. *)
Definition try_catch {A : Type} (body : M A) (handler : error -> M A) : M A :=
  fun ctx c =>
    match body ctx c with
    | (Ok a, c') => (Ok a, c')
    | (Throw e, c') => handler e ctx c'
    end.

Definition lift {A : Type} (o : outcome A) : M A := fun _ c => (o, c).

Definition ask : M context := fun ctx c => (Ok ctx, c).

Declare Scope monad_scope.
Delimit Scope monad_scope with monad.
Notation "x <- m ;; k" := (bind m (fun x => k))
  (at level 61, m at next level, right associativity) : monad_scope.
Notation "m ;;; k" := (bind m (fun _ => k))
  (at level 61, right associativity) : monad_scope.

(** A statement is a function of the store; one that throws leaves the
    rows as they were. *)
Definition statement (A : Type) : Type := store -> outcome A * store.

(** [client.query(text, params)]: the call fails when the context says
    so, and runs the statement otherwise. *)
Definition client_query {A : Type} (q : statement A) : M A :=
  fun ctx c =>
    if fails ctx (calls c) then
      (Throw StoreFailure, mkConn (snapshot c) (current c) (S (calls c)))
    else
      let (r, s') := q (current c) in
      (r, mkConn (snapshot c) s' (S (calls c))).

(** The helper [query(q, params)]: a connection of the pool, one
    statement, release. *)
Definition query {A : Type} (q : statement A) : M A := client_query q.

(** [client.query('BEGIN')]. *)
Definition BEGIN : M unit :=
  fun ctx c =>
    if fails ctx (calls c) then
      (Throw StoreFailure, mkConn (snapshot c) (current c) (S (calls c)))
    else (Ok tt, mkConn (Some (current c)) (current c) (S (calls c))).

(** [client.query('COMMIT')]. *)
Definition COMMIT : M unit :=
  fun ctx c =>
    if fails ctx (calls c) then
      (Throw StoreFailure, mkConn (snapshot c) (current c) (S (calls c)))
    else (Ok tt, mkConn None (current c) (S (calls c))).

(** [client.query('ROLLBACK')].  The model follows the runs in which
    ROLLBACK and [pool.connect()] succeed.  In the source an exception
    of either is not caught: [pool.connect()] is awaited before the
    [try], and the ROLLBACK of a [catch] block is awaited unguarded, so
    on such a run the handler sends no answer.  Those runs are outside
    the model: every property below is one of the runs in which both
    succeed. *)
Definition ROLLBACK : M unit :=
  fun _ c =>
    let s := match snapshot c with
             | Some s0 => restore s0 (current c)
             | None => current c
             end in
    (Ok tt, mkConn None s (S (calls c))).

(** A handler run on a fresh connection: what it answers and the store
    it leaves. *)
Definition run (m : M response) (ctx : context) (s : store) : outcome response * store :=
  let (r, c) := m ctx (mkConn None s 0) in (r, current c).

(** ** Statements

    Each SQL statement of [server.js] as a function of the store.  A
    parameter is converted at its column's type before the statement
    runs; a constraint is checked after the SERIAL value is drawn. *)
Section Statements.
Context {ext : Externals}.

Definition with_param {P A : Type} (p : outcome P) (k : P -> statement A) : statement A :=
  fun s => match p with
           | Ok v => k v s
           | Throw e => (Throw e, s)
           end.

Definition user_by_id (i : Z) (s : store) : option User.t :=
  find (fun u => User.id u =? i) (users s).

Definition user_by_email (e : string) (s : store) : option User.t :=
  find (fun u => String.eqb (User.email u) e) (users s).

Definition match_by_id (i : Z) (s : store) : option Match.t :=
  find (fun m => Match.id m =? i) (matches s).

Definition bet_by_id (i : Z) (s : store) : option Bet.t :=
  find (fun b => Bet.id b =? i) (bets s).

Definition deposit_by_id (i : Z) (s : store) : option Deposit.t :=
  find (fun d => Deposit.id d =? i) (deposits s).

Definition set_users (s : store) (us : list User.t) : store :=
  mkStore us (matches s) (bets s) (deposits s)
          (users_id_seq s) (matches_id_seq s) (bets_id_seq s) (deposits_id_seq s).

Definition set_bets (s : store) (bs : list Bet.t) : store :=
  mkStore (users s) (matches s) bs (deposits s)
          (users_id_seq s) (matches_id_seq s) (bets_id_seq s) (deposits_id_seq s).

Definition set_deposits (s : store) (ds : list Deposit.t) : store :=
  mkStore (users s) (matches s) (bets s) ds
          (users_id_seq s) (matches_id_seq s) (bets_id_seq s) (deposits_id_seq s).

(** [SELECT is_admin FROM users WHERE id=$1], [SELECT balance FROM users
    WHERE id=$1 FOR UPDATE] and the SELECT of the profile: the row, of
    which the handler reads the columns listed. *)
Definition select_user (i : Z) : statement (option User.t) :=
  fun s => (Ok (user_by_id i s), s).

(** [SELECT id,email,password_hash,full_name,balance,is_admin FROM users
    WHERE email=$1]. *)
Definition select_user_by_email (email : JS.value) : statement (option User.t) :=
  fun s => match param_text email with
           | Some e => (Ok (user_by_email e s), s)
           | None => (Ok None, s)
           end.

(** [INSERT INTO users (email, password_hash, full_name, is_admin)
    VALUES ($1,$2,$3,$4) RETURNING id,email,full_name,balance,is_admin]. *)
Definition insert_user (email : JS.value) (hash : string) (full_name : JS.value)
    (isAdmin : option bool) (t : Z) : statement User.t :=
  fun s =>
    let i := users_id_seq s in
    let s1 := mkStore (users s) (matches s) (bets s) (deposits s)
                      (i + 1) (matches_id_seq s) (bets_id_seq s) (deposits_id_seq s) in
    match param_text email with
    | None => (Throw NotNullViolation, s1)
    | Some e =>
        if existsb (fun u => String.eqb (User.email u) e) (users s) then
          (Throw UniqueViolation, s1)
        else
          let u := User.make i e hash (param_text full_name) t (Some JS.zero) isAdmin in
          (Ok u, set_users s1 (users s ++ [u]))
    end.

(** [UPDATE users SET balance=$1 WHERE id=$2]. *)
Definition update_balance (newBal : JS.number) (i : Z) : statement unit :=
  fun s =>
    let upd (u : User.t) :=
      if User.id u =? i then
        User.make (User.id u) (User.email u) (User.password_hash u) (User.full_name u)
                  (User.created_at u) (Some (numeric_of_number newBal)) (User.is_admin u)
      else u in
    (Ok tt, set_users s (map upd (users s))).

(** [INSERT INTO matches (home,away,odds) VALUES ($1,$2,$3) RETURNING *]. *)
Definition insert_match (home away odds : JS.value) (t : Z) : statement Match.t :=
  with_param (sql_numeric odds) (fun o s =>
    let i := matches_id_seq s in
    let s1 := mkStore (users s) (matches s) (bets s) (deposits s)
                      (users_id_seq s) (i + 1) (bets_id_seq s) (deposits_id_seq s) in
    match param_text home, param_text away, o with
    | Some h, Some a, Some o' =>
        let m := Match.make i h a o' t in
        (Ok m, mkStore (users s1) (matches s ++ [m]) (bets s1) (deposits s1)
                       (users_id_seq s1) (matches_id_seq s1) (bets_id_seq s1)
                       (deposits_id_seq s1))
    | _, _, _ => (Throw NotNullViolation, s1)
    end).

(** [SELECT * FROM matches WHERE id=$1]. *)
Definition select_match (match_id : JS.value) : statement (option Match.t) :=
  with_param (sql_int match_id) (fun i s =>
    match i with
    | Some i' => (Ok (match_by_id i' s), s)
    | None => (Ok None, s)
    end).

(** [INSERT INTO deposits (user_id, amount, status) VALUES ($1,$2,$3)
    RETURNING id,amount,status], with status ['pending']. *)
Definition insert_deposit (uid : Z) (amount : JS.value) (t : Z) : statement Deposit.t :=
  with_param (sql_numeric amount) (fun a s =>
    let i := deposits_id_seq s in
    let s1 := mkStore (users s) (matches s) (bets s) (deposits s)
                      (users_id_seq s) (matches_id_seq s) (bets_id_seq s) (i + 1) in
    match a with
    | None => (Throw NotNullViolation, s1)
    | Some a' =>
        match user_by_id uid s with
        | None => (Throw ForeignKeyViolation, s1)
        | Some _ =>
            let d := Deposit.make i uid a' Deposit.pending t None None in
            (Ok d, set_deposits s1 (deposits s ++ [d]))
        end
    end).

(** [SELECT * FROM deposits WHERE id=$1 FOR UPDATE]. *)
Definition select_deposit (id : JS.value) : statement (option Deposit.t) :=
  with_param (sql_int id) (fun i s =>
    match i with
    | Some i' => (Ok (deposit_by_id i' s), s)
    | None => (Ok None, s)
    end).

(** [UPDATE deposits SET status=$1, approved_by=$2, approved_at=now()
    WHERE id=$3], with status ['approved']. *)
Definition update_deposit_approved (by_user : Z) (id : JS.value) (t : Z) : statement unit :=
  with_param (sql_int id) (fun i s =>
    match i with
    | None => (Ok tt, s)
    | Some i' =>
        let hit := existsb (fun d => Deposit.id d =? i') (deposits s) in
        match hit, user_by_id by_user s with
        | true, None => (Throw ForeignKeyViolation, s)
        | _, _ =>
            let upd (d : Deposit.t) :=
              if Deposit.id d =? i' then
                Deposit.make (Deposit.id d) (Deposit.user_id d) (Deposit.amount d)
                             Deposit.approved (Deposit.created_at d) (Some by_user) (Some t)
              else d in
            (Ok tt, set_deposits s (map upd (deposits s)))
        end
    end).

(** [INSERT INTO bets (user_id, match_id, stake, status) VALUES
    ($1,$2,$3,$4) RETURNING id], with status ['open']. *)
Definition insert_bet (uid : Z) (match_id stake : JS.value) (t : Z) : statement Bet.t :=
  with_param (sql_int match_id) (fun mid =>
  with_param (sql_numeric stake) (fun st s =>
    let i := bets_id_seq s in
    let s1 := mkStore (users s) (matches s) (bets s) (deposits s)
                      (users_id_seq s) (matches_id_seq s) (i + 1) (deposits_id_seq s) in
    match st with
    | None => (Throw NotNullViolation, s1)
    | Some st' =>
        let referenced :=
          match mid with
          | None => true             (* a NULL reference is not checked *)
          | Some m => match match_by_id m s with Some _ => true | None => false end
          end in
        match user_by_id uid s, referenced with
        | Some _, true =>
            let b := Bet.make i uid mid st' Bet.open (Some JS.zero) t in
            (Ok b, set_bets s1 (bets s ++ [b]))
        | _, _ => (Throw ForeignKeyViolation, s1)
        end
    end)).

(** [SELECT * FROM bets WHERE id=$1 FOR UPDATE]. *)
Definition select_bet (betId : JS.value) : statement (option Bet.t) :=
  with_param (sql_int betId) (fun i s =>
    match i with
    | Some i' => (Ok (bet_by_id i' s), s)
    | None => (Ok None, s)
    end).

(** [UPDATE bets SET status=$1, payout=$2 WHERE id=$3], with status
    ['settled']. *)
Definition update_bet_settled (amount betId : JS.value) : statement unit :=
  with_param (sql_numeric amount) (fun p =>
  with_param (sql_int betId) (fun i s =>
    match i with
    | None => (Ok tt, s)
    | Some i' =>
        let upd (b : Bet.t) :=
          if Bet.id b =? i' then
            Bet.make (Bet.id b) (Bet.user_id b) (Bet.match_id b) (Bet.stake b)
                     Bet.settled p (Bet.created_at b)
          else b in
        (Ok tt, set_bets s (map upd (bets s)))
    end)).

End Statements.

(** ** Middlewares and routes *)
Section Server.
Context {ext : Externals}.
Local Open Scope monad_scope.

(** The columns of [users] a statement may list. *)
Inductive user_column : Type :=
  | col_id | col_email | col_password_hash | col_full_name | col_balance | col_is_admin.

Definition column_name (c : user_column) : string :=
  match c with
  | col_id => "id"
  | col_email => "email"
  | col_password_hash => "password_hash"
  | col_full_name => "full_name"
  | col_balance => "balance"
  | col_is_admin => "is_admin"
  end.

Definition column_value (c : user_column) (u : User.t) : json :=
  match c with
  | col_id => JInt (User.id u)
  | col_email => JStr (User.email u)
  | col_password_hash => JStr (User.password_hash u)
  | col_full_name => nullable JStr (User.full_name u)
  | col_balance => nullable JNumeric (User.balance u)
  | col_is_admin => nullable JBool (User.is_admin u)
  end.

(** The object node-postgres builds for a row of [users]. *)
Definition user_row (cols : list user_column) (u : User.t) : list (string * json) :=
  map (fun c => (column_name c, column_value c u)) cols.

Definition match_row (m : Match.t) : list (string * json) :=
  [("id", JInt (Match.id m)); ("home", JStr (Match.home m)); ("away", JStr (Match.away m));
   ("odds", JNumeric (Match.odds m)); ("created_at", JTime (Match.created_at m))].

Definition bet_status_text (st : Bet.status_t) : string :=
  match st with Bet.open => "open" | Bet.settled => "settled" end.

Definition deposit_status_text (st : Deposit.status_t) : string :=
  match st with Deposit.pending => "pending" | Deposit.approved => "approved" end.

(** [header.split(' ')]. *)
Fixpoint split (sep : ascii) (s : string) : list string :=
  match s with
  | EmptyString => [EmptyString]
  | String ch rest =>
      if Ascii.eqb ch sep then EmptyString :: split sep rest
      else match split sep rest with
           | [] => [String ch EmptyString]
           | w :: ws => String ch w :: ws
           end
  end.

(** [createToken(user)]. *)
Definition createToken (u : User.t) (t : Z) : string :=
  jwt_sign (User.id u) (User.email u) t.

(** [authMiddleware]: answers 401, or sets [req.user] and calls [next]. *)
Definition authMiddleware (req : request) (next : identity -> M response) : M response :=
  match authorization req with
  | None => ret (res_error 401 "Missing auth header")
  | Some header =>
      if String.eqb header "" then ret (res_error 401 "Missing auth header")
      else
        match nth_error (split " "%char header) 1 with
        | None => ret (res_error 401 "Malformed auth header")
        | Some token =>
            if String.eqb token "" then ret (res_error 401 "Malformed auth header")
            else
              ctx <- ask;;
              match jwt_verify token (now ctx) with
              | Some (i, e) => next (mkIdentity i e)
              | None => ret (res_error 401 "Invalid token")
              end
        end
  end.

(** [adminMiddleware]: answers 403 or 500, or calls [next].  The
    [try] covers the lookup; [next()] only starts the handler, which
    catches its own exceptions. *)
Definition adminMiddleware (user : identity) (next : M response) : M response :=
  verdict <- try_catch
    (row <- query (select_user (ident_id user));;
     match row with
     | Some u =>
         match User.is_admin u with
         | Some true => ret None
         | _ => ret (Some (res_error 403 "Admin only"))
         end
     | None => ret (Some (res_error 403 "Admin only"))
     end)
    (fun _ => ret (Some (res_error 500 "Server error")));;
  match verdict with
  | None => next
  | Some refusal => ret refusal
  end.

Definition server_error : response := res_error 500 "Server error".

(** [GET /api/health]. *)
Definition get_health : M response := ret (res_json (JObj [("ok", JBool true)])).

(** [const ADMIN_EMAIL = process.env.ADMIN_EMAIL || null]. *)
Definition ADMIN_EMAIL : option string :=
  match env_ADMIN_EMAIL with
  | Some a => if String.eqb a "" then None else Some a
  | None => None
  end.

(** [POST /api/register]. *)
Definition post_register (req : request) : M response :=
  let email := field "email" (body req) in
  let password := field "password" (body req) in
  let full_name := field "full_name" (body req) in
  if negb (JS.truthy email) || negb (JS.truthy password) then
    ret (res_error 400 "Missing email or password")
  else
    try_catch
      (ctx <- ask;;
       hash <- lift match password with
                    | JS.Str p => Ok (bcrypt_hash p (salt ctx))
                    | _ => Throw BcryptError
                    end;;
       isAdmin <- lift match ADMIN_EMAIL with
                       | None => Ok None
                       | Some a =>
                           match email with
                           | JS.Str e => Ok (Some (String.eqb (toLowerCase a) (toLowerCase e)))
                           | _ => Throw TypeError
                           end
                       end;;
       user <- query (insert_user email hash
                        (if JS.truthy full_name then full_name else JS.Null)
                        isAdmin (now ctx));;
       let token := createToken user (now ctx) in
       ret (res_json (JObj
         [("user", JObj (user_row [col_id; col_email; col_full_name; col_balance; col_is_admin] user));
          ("token", JStr token)])))
      (fun err =>
         match err with
         | UniqueViolation => ret (res_error 409 "Email already exists")
         | _ => ret server_error
         end).

(** [POST /api/login]. *)
Definition post_login (req : request) : M response :=
  let email := field "email" (body req) in
  let password := field "password" (body req) in
  if negb (JS.truthy email) || negb (JS.truthy password) then
    ret (res_error 400 "Missing email or password")
  else
    try_catch
      (ctx <- ask;;
       row <- query (select_user_by_email email);;
       match row with
       | None => ret (res_error 401 "Invalid credentials")
       | Some u =>
           let user := user_row [col_id; col_email; col_password_hash; col_full_name;
                                 col_balance; col_is_admin] u in
           ok <- lift match password with
                      | JS.Str p => Ok (bcrypt_compare p (User.password_hash u))
                      | _ => Throw BcryptError
                      end;;
           if negb ok then ret (res_error 401 "Invalid credentials")
           else
             (* strip password_hash *)
             let user := delete_key "password_hash" user in
             let token := createToken u (now ctx) in
             ret (res_json (JObj [("user", JObj user); ("token", JStr token)]))
       end)
      (fun _ => ret server_error).

(** [GET /api/me]: the handler behind [authMiddleware], and the route. *)
Definition handle_me (user : identity) : M response :=
  try_catch
    (row <- query (select_user (ident_id user));;
     match row with
     | None => ret (res_error 404 "User not found")
     | Some u =>
         ret (res_json (JObj
           [("user", JObj (user_row [col_id; col_email; col_full_name; col_balance; col_is_admin] u))]))
     end)
    (fun _ => ret server_error).

Definition get_me (req : request) : M response :=
  authMiddleware req handle_me.

(** [POST /api/matches]. *)
Definition handle_matches (req : request) : M response :=
  let home := field "home" (body req) in
  let away := field "away" (body req) in
  let odds := field "odds" (body req) in
  if negb (JS.truthy home) || negb (JS.truthy away) || negb (JS.truthy odds) then
    ret (res_error 400 "Missing match data")
  else
    try_catch
      (ctx <- ask;;
       m <- query (insert_match home away odds (now ctx));;
       ret (res_json (JObj [("match", JObj (match_row m))])))
      (fun _ => ret server_error).

Definition post_matches (req : request) : M response :=
  authMiddleware req (fun user => adminMiddleware user (handle_matches req)).

(** ORDER BY: a stable insertion sort; [before a b] says that [a] may
    stand before [b]. *)
Fixpoint insert_sorted {A : Type} (before : A -> A -> bool) (x : A) (l : list A) : list A :=
  match l with
  | [] => [x]
  | y :: rest => if before x y then x :: l else y :: insert_sorted before x rest
  end.

Definition order_by {A : Type} (before : A -> A -> bool) (l : list A) : list A :=
  fold_right (insert_sorted before) [] l.

(** [GET /api/matches]. *)
Definition get_matches : M response :=
  try_catch
    (rows <- query (fun s =>
       (Ok (order_by (fun a b => Match.created_at b <=? Match.created_at a) (matches s)), s));;
     ret (res_json (JObj [("matches", JArr (map (fun m => JObj (match_row m)) rows))])))
    (fun _ => ret server_error).

(** A NUMERIC cell as node-postgres returns it: a non-empty string,
    which is truthy and which [Number] reads, or [null]. *)
Definition cell_truthy (c : option numeric) : bool :=
  match c with Some _ => true | None => false end.

Definition Number_cell (c : option numeric) : JS.number :=
  match c with Some d => d | None => JS.zero end.

(** [Number(cell || 0)]. *)
Definition Number_or_zero (c : option numeric) : JS.number :=
  if cell_truthy c then Number_cell c else JS.zero.

(** [POST /api/deposits/request]. *)
Definition handle_deposits_request (req : request) (user : identity) : M response :=
  let amount := field "amount" (body req) in
  if negb (JS.truthy amount) || JS.le (Number amount) JS.zero then
    ret (res_error 400 "Invalid amount")
  else
    try_catch
      (ctx <- ask;;
       d <- query (insert_deposit (ident_id user) amount (now ctx));;
       ret (res_json (JObj
         [("deposit", JObj [("id", JInt (Deposit.id d));
                            ("amount", JNumeric (Deposit.amount d));
                            ("status", JStr (deposit_status_text (Deposit.status d)))]);
          ("message", JStr "Deposit requested. Admin must approve (demo).")])))
      (fun _ => ret server_error).

Definition post_deposits_request (req : request) : M response :=
  authMiddleware req (handle_deposits_request req).

(** [POST /api/deposits/approve]. *)
Definition handle_deposits_approve (req : request) (user : identity) : M response :=
  let id := field "id" (body req) in
  if negb (JS.truthy id) then ret (res_error 400 "Missing deposit id")
  else
    try_catch
      (ctx <- ask;;
       BEGIN;;;
       depRes <- client_query (select_deposit id);;
       match depRes with
       | None => ROLLBACK;;; ret (res_error 404 "Deposit not found")
       | Some dep =>
           match Deposit.status dep with
           | Deposit.approved => ROLLBACK;;; ret (res_error 400 "Already approved")
           | Deposit.pending =>
               (* credit user balance *)
               userRes <- client_query (select_user (Deposit.user_id dep));;
               let current :=
                 match userRes with
                 | Some u =>
                     if cell_truthy (User.balance u) then Number_cell (User.balance u)
                     else JS.zero
                 | None => JS.zero
                 end in
               let newBal := JS.add current (Number_cell (Some (Deposit.amount dep))) in
               client_query (update_balance newBal (Deposit.user_id dep));;;
               client_query (update_deposit_approved (ident_id user) id (now ctx));;;
               COMMIT;;;
               ret (res_json (JObj [("success", JBool true); ("newBalance", JNum newBal)]))
           end
       end)
      (fun _ => ROLLBACK;;; ret server_error).

Definition post_deposits_approve (req : request) : M response :=
  authMiddleware req (fun user => adminMiddleware user (handle_deposits_approve req user)).

(** [POST /api/bets/place]. *)
Definition handle_bets_place (req : request) (user : identity) : M response :=
  let match_id := field "match_id" (body req) in
  let stake := field "stake" (body req) in
  if negb (JS.truthy match_id) || negb (JS.truthy stake) || JS.le (Number stake) JS.zero then
    ret (res_error 400 "Invalid bet data")
  else
    try_catch
      (ctx <- ask;;
       BEGIN;;;
       (* lock user row *)
       userRes <- client_query (select_user (ident_id user));;
       match userRes with
       | None => ROLLBACK;;; ret (res_error 404 "User not found")
       | Some u =>
           let balance := Number_or_zero (User.balance u) in
           if JS.lt balance (Number stake) then
             ROLLBACK;;; ret (res_error 400 "Insufficient balance")
           else
             (* ensure match exists *)
             matchRes <- client_query (select_match match_id);;
             match matchRes with
             | None => ROLLBACK;;; ret (res_error 404 "Match not found")
             | Some _ =>
                 (* deduct balance and create bet *)
                 let newBalance := JS.sub balance (Number stake) in
                 client_query (update_balance newBalance (ident_id user));;;
                 betRes <- client_query (insert_bet (ident_id user) match_id stake (now ctx));;
                 COMMIT;;;
                 ret (res_json (JObj [("success", JBool true);
                                      ("betId", JInt (Bet.id betRes));
                                      ("newBalance", JNum newBalance)]))
             end
       end)
      (fun _ => ROLLBACK;;; ret server_error).

Definition post_bets_place (req : request) : M response :=
  authMiddleware req (handle_bets_place req).

(** [POST /api/bets/payout]. *)
Definition handle_bets_payout (req : request) (user : identity) : M response :=
  let betId := field "betId" (body req) in
  let amount := field "amount" (body req) in
  if negb (JS.truthy betId) || negb (JS.truthy amount) then
    ret (res_error 400 "Missing params")
  else
    try_catch
      (BEGIN;;;
       betRes <- client_query (select_bet betId);;
       match betRes with
       | None => ROLLBACK;;; ret (res_error 404 "Bet not found")
       | Some bet =>
           match Bet.status bet with
           | Bet.settled => ROLLBACK;;; ret (res_error 400 "Already settled")
           | Bet.open =>
               (* credit winner *)
               userRes <- client_query (select_user (Bet.user_id bet));;
               curBalance <- lift match userRes with
                                  | Some u => Ok (Number_or_zero (User.balance u))
                                  | None => Throw TypeError
                                  end;;
               let newBalance := JS.add curBalance (Number amount) in
               client_query (update_balance newBalance (Bet.user_id bet));;;
               (* update bet *)
               client_query (update_bet_settled amount betId);;;
               COMMIT;;;
               ret (res_json (JObj [("success", JBool true)]))
           end
       end)
      (fun _ => ROLLBACK;;; ret server_error).

Definition post_bets_payout (req : request) : M response :=
  authMiddleware req (fun user => adminMiddleware user (handle_bets_payout req user)).

(** [GET /api/bets/my]. *)
Definition handle_bets_my (req : request) (user : identity) : M response :=
  try_catch
    (rows <- query (fun s =>
       let mine := filter (fun b => Bet.user_id b =? ident_id user) (bets s) in
       let sorted := order_by (fun a b => Bet.created_at b <=? Bet.created_at a) mine in
       let joined (b : Bet.t) :=
         let m := match Bet.match_id b with
                  | Some i => match_by_id i s
                  | None => None
                  end in
         JObj [("id", JInt (Bet.id b)); ("match_id", nullable JInt (Bet.match_id b));
               ("stake", JNumeric (Bet.stake b));
               ("status", JStr (bet_status_text (Bet.status b)));
               ("payout", nullable JNumeric (Bet.payout b));
               ("created_at", JTime (Bet.created_at b));
               ("home", nullable JStr (option_map Match.home m));
               ("away", nullable JStr (option_map Match.away m));
               ("odds", nullable JNumeric (option_map Match.odds m))] in
       (Ok (map joined sorted), s));;
     ret (res_json (JObj [("bets", JArr rows)])))
    (fun _ => ret server_error).

Definition get_bets_my (req : request) : M response :=
  authMiddleware req (handle_bets_my req).

(** [GET /api/admin/deposits]. *)
Definition handle_admin_deposits (req : request) (user : identity) : M response :=
  try_catch
    (rows <- query (fun s =>
       let waiting :=
         filter (fun d => match Deposit.status d with
                          | Deposit.pending => true
                          | Deposit.approved => false
                          end) (deposits s) in
       let sorted := order_by (fun a b => Deposit.created_at a <=? Deposit.created_at b) waiting in
       let joined (d : Deposit.t) :=
         JObj [("id", JInt (Deposit.id d)); ("user_id", JInt (Deposit.user_id d));
               ("amount", JNumeric (Deposit.amount d));
               ("status", JStr (deposit_status_text (Deposit.status d)));
               ("created_at", JTime (Deposit.created_at d));
               ("email", nullable JStr (option_map User.email (user_by_id (Deposit.user_id d) s)))] in
       (Ok (map joined sorted), s));;
     ret (res_json (JObj [("deposits", JArr rows)])))
    (fun _ => ret server_error).

Definition get_admin_deposits (req : request) : M response :=
  authMiddleware req (fun user => adminMiddleware user (handle_admin_deposits req user)).

(** ORDER BY balance DESC: NULL first, then NaN, then by value. *)
Definition balance_desc (a b : User.t) : bool :=
  match User.balance a, User.balance b with
  | None, _ => true
  | Some _, None => false
  | Some x, Some y =>
      if JS.is_nan x then true else if JS.is_nan y then false else JS.le y x
  end.

(** [GET /api/admin/users]. *)
Definition handle_admin_users (req : request) (user : identity) : M response :=
  try_catch
    (rows <- query (fun s => (Ok (firstn 100 (order_by balance_desc (users s))), s));;
     ret (res_json (JObj
       [("users", JArr (map (fun u => JObj (user_row
           [col_id; col_email; col_full_name; col_balance; col_is_admin] u)) rows))])))
    (fun _ => ret server_error).

Definition get_admin_users (req : request) : M response :=
  authMiddleware req (fun user => adminMiddleware user (handle_admin_users req user)).

(** [GET /]. *)
Definition get_root : M response := ret (res_json (JStr "Omokabet backend is running")).

(** The routes of the application. *)
Inductive route : Type :=
  | GET_health | POST_register | POST_login | GET_me
  | POST_matches | GET_matches
  | POST_deposits_request | POST_deposits_approve
  | POST_bets_place | POST_bets_payout | GET_bets_my
  | GET_admin_deposits | GET_admin_users | GET_root.

Definition handler (r : route) (req : request) : M response :=
  match r with
  | GET_health => get_health
  | POST_register => post_register req
  | POST_login => post_login req
  | GET_me => get_me req
  | POST_matches => post_matches req
  | GET_matches => get_matches
  | POST_deposits_request => post_deposits_request req
  | POST_deposits_approve => post_deposits_approve req
  | POST_bets_place => post_bets_place req
  | POST_bets_payout => post_bets_payout req
  | GET_bets_my => get_bets_my req
  | GET_admin_deposits => get_admin_deposits req
  | GET_admin_users => get_admin_users req
  | GET_root => get_root
  end.

(** One request served: the answer and the store afterwards. *)
Definition serve (r : route) (req : request) (ctx : context) (s : store)
  : outcome response * store :=
  run (handler r req) ctx s.

End Server.

(** ** A concrete deployment

    An implementation of the collaborators, small enough to run: tokens
    are the text ["t"] followed by the user id in unary, bcrypt is
    concatenation, the texts that are numbers are ["0"] (the number 0)
    and, for the store only, ["NaN"]; every other text reads as NaN in
    JavaScript and is refused by the store.  [ADMIN_EMAIL] is set. *)
Module Deployment.

Fixpoint unary (n : nat) : string :=
  match n with O => "" | S k => String "i" (unary k) end.

Fixpoint unary_length (s : string) : option nat :=
  match s with
  | EmptyString => Some O
  | String "i" rest => option_map S (unary_length rest)
  | String _ _ => None
  end.

Definition sign (i : Z) (e : string) (t : Z) : string :=
  String "t" (unary (Z.to_nat i)).

Definition verify (token : string) (t : Z) : option (Z * string) :=
  match token with
  | String "t" rest => option_map (fun n => (Z.of_nat n, "")) (unary_length rest)
  | _ => None
  end.

#[export] Instance externals : Externals := {|
  StringToNumber := fun s => if String.eqb s "0" then JS.zero else JS.NaN;
  NumberToString := fun _ => "0";
  toLowerCase := fun s => s;
  numeric_in := fun s =>
    if String.eqb s "NaN" then Some JS.NaN
    else if String.eqb s "0" then Some JS.zero
    else None;
  int4_in := fun _ => None;
  bcrypt_hash := fun p s => s ++ p;
  bcrypt_compare := fun p h => String.eqb h ("salt" ++ p);
  jwt_sign := sign;
  jwt_verify := verify;
  env_ADMIN_EMAIL := Some "admin@x.com"
|}.

(** A context in which the store works. *)
Definition ctx (t : Z) : context := mkContext t "salt" (fun _ => false).

Definition bearer (i : nat) : option string := Some ("Bearer t" ++ unary i).

Definition register (email : string) : request :=
  mkRequest None [("email", JS.Str email); ("password", JS.Str "p")].

Definition create_match (as_user : nat) : request :=
  mkRequest (bearer as_user)
    [("home", JS.Str "A"); ("away", JS.Str "B"); ("odds", JS.Num (JS.of_Z 2))].

Definition request_deposit (as_user : nat) (amount : JS.number) : request :=
  mkRequest (bearer as_user) [("amount", JS.Num amount)].

Definition approve_deposit (as_user : nat) (id : Z) : request :=
  mkRequest (bearer as_user) [("id", JS.Num (JS.of_Z id))].

Definition place_bet (as_user : nat) (match_id : Z) (stake : JS.number) : request :=
  mkRequest (bearer as_user)
    [("match_id", JS.Num (JS.of_Z match_id)); ("stake", JS.Num stake)].

Definition settle_bet (as_user : nat) (betId : Z) (amount : JS.number) : request :=
  mkRequest (bearer as_user) [("betId", JS.Num (JS.of_Z betId)); ("amount", JS.Num amount)].

(** Requests served one after the other, at times 1, 2, ...; the
    answers and the final store. *)
Fixpoint serve_all (t : Z) (calls : list (route * request)) (s : store)
  : list (outcome response) * store :=
  match calls with
  | [] => ([], s)
  | (r, req) :: rest =>
      let (a, s1) := serve r req (ctx t) s in
      let (answers, s2) := serve_all (t + 1) rest s1 in
      (a :: answers, s2)
  end.

(** The admin (user 1) and a player (user 2) register, the admin creates
    match 1, the player deposits 10, the admin approves, the player
    stakes 10 on the match. *)
Definition opening : list (route * request) :=
  [ (POST_register, register "admin@x.com");
    (POST_register, register "a@x.com");
    (POST_matches, create_match 1);
    (POST_deposits_request, request_deposit 2 (JS.of_Z 10));
    (POST_deposits_approve, approve_deposit 1 1);
    (POST_bets_place, place_bet 2 1 (JS.of_Z 10)) ].

(** The store after the opening: the player's bet is open, the balance
    is 0. *)
Definition after_opening : store :=
  Eval vm_compute in snd (serve_all 1 opening empty_store).

(** The store once the deposit is requested, and once it is approved. *)
Definition deposit_requested : store :=
  Eval vm_compute in snd (serve_all 1 (firstn 4 opening) empty_store).

Definition funded : store :=
  Eval vm_compute in snd (serve_all 1 (firstn 5 opening) empty_store).

(** The player holds 10 and a deposit of 5 waits for approval. *)
Definition second_deposit : store :=
  Eval vm_compute in
    snd (serve_all 1
           (firstn 5 opening ++ [(POST_deposits_request, request_deposit 2 (JS.of_Z 5))])
           empty_store).

(** After the opening the player deposits 7 more and the admin
    approves: the player holds 7 and bet 1 is open. *)
Definition staked : store :=
  Eval vm_compute in
    snd (serve_all 1
           (opening ++ [(POST_deposits_request, request_deposit 2 (JS.of_Z 7));
                        (POST_deposits_approve, approve_deposit 1 2)])
           empty_store).

(** The player holds 2^53 and a deposit of 1 waits for approval. *)
Definition large_deposit : store :=
  Eval vm_compute in
    snd (serve_all 1
           [ (POST_register, register "admin@x.com");
             (POST_register, register "a@x.com");
             (POST_deposits_request, request_deposit 2 (JS.of_Z (2 ^ 53)));
             (POST_deposits_approve, approve_deposit 1 1);
             (POST_deposits_request, request_deposit 2 (JS.of_Z 1)) ]
           empty_store).

(** After the opening the player deposits 2^53 and the admin approves:
    the player holds 2^53 and bet 1 is open. *)
Definition large_staked : store :=
  Eval vm_compute in
    snd (serve_all 1
           (opening ++ [(POST_deposits_request, request_deposit 2 (JS.of_Z (2 ^ 53)));
                        (POST_deposits_approve, approve_deposit 1 2)])
           empty_store).


(** The emails ["i"], ["ii"], ... of [n] users. *)
Definition crowd (n : nat) : list (route * request) :=
  map (fun k => (POST_register, register (unary (S k)))) (seq 0 n).

(** The admin and 100 users have registered. *)
Definition crowded : store :=
  Eval vm_compute in
    snd (serve_all 1 ((POST_register, register "admin@x.com") :: crowd 100) empty_store).

(** The player holds 0.1 and a deposit of 0.2 waits for approval. *)
Definition tenth_credited : store :=
  Eval vm_compute in
    snd (serve_all 1
           [ (POST_register, register "admin@x.com");
             (POST_register, register "a@x.com");
             (POST_deposits_request, request_deposit 2 (JS.of_decimal 1 1));
             (POST_deposits_approve, approve_deposit 1 1);
             (POST_deposits_request, request_deposit 2 (JS.of_decimal 2 1)) ]
           empty_store).

End Deployment.

(** ** Vocabulary of the properties *)
Section Vocabulary.
Context {ext : Externals}.

(** The request passes [authMiddleware] as [user]. *)
Definition authenticated (req : request) (ctx : context) (user : identity) : Prop :=
  forall (next : identity -> M response) (c : conn),
    authMiddleware req next ctx c = next user ctx c.

(** [user] has a row whose [is_admin] is true. *)
Definition is_admin_in (s : store) (user : identity) : Prop :=
  exists u, user_by_id (ident_id user) s = Some u /\ User.is_admin u = Some true.

(** A body field that passes the handler's check and that the store
    reads as the id [i]. *)
Definition names (v : JS.value) (i : Z) : Prop :=
  JS.truthy v = true /\ sql_int v = Ok (Some i).

(** A property of the rows holds on a connection when it holds of the
    store and of the snapshot of an open transaction. *)
Definition sees (P : store -> Prop) (c : conn) : Prop :=
  P (current c) /\ match snapshot c with Some s0 => P s0 | None => True end.

(** A computation, and a statement, that keeps a property of the rows. *)
Definition keeps (P : store -> Prop) {A : Type} (m : M A) : Prop :=
  forall ctx c, sees P c -> sees P (snd (m ctx c)).

Definition statement_keeps (P : store -> Prop) {A : Type} (q : statement A) : Prop :=
  forall s, P s -> P (snd (q s)).

(** A property that does not read a table (nor its sequence). *)
Definition ignores_users (P : store -> Prop) : Prop :=
  forall s us n, P s ->
    P (mkStore us (matches s) (bets s) (deposits s)
               n (matches_id_seq s) (bets_id_seq s) (deposits_id_seq s)).

Definition ignores_matches (P : store -> Prop) : Prop :=
  forall s ms n, P s ->
    P (mkStore (users s) ms (bets s) (deposits s)
               (users_id_seq s) n (bets_id_seq s) (deposits_id_seq s)).

Definition ignores_bets (P : store -> Prop) : Prop :=
  forall s bs n, P s ->
    P (mkStore (users s) (matches s) bs (deposits s)
               (users_id_seq s) (matches_id_seq s) n (deposits_id_seq s)).

Definition ignores_deposits (P : store -> Prop) : Prop :=
  forall s ds n, P s ->
    P (mkStore (users s) (matches s) (bets s) ds
               (users_id_seq s) (matches_id_seq s) (bets_id_seq s) n).

(** A property of the rows alone: it holds after ROLLBACK when it held
    at BEGIN. *)
Definition survives_rollback (P : store -> Prop) : Prop :=
  forall s0 s, P s0 -> P (restore s0 s).

(** The three properties kept: the match table is [ms]; deposit [i] is
    approved; bet [i] is settled. *)
Definition match_table_is (ms : list Match.t) (s : store) : Prop := matches s = ms.

Definition deposit_approved (i : Z) (s : store) : Prop :=
  exists d, deposit_by_id i s = Some d /\ Deposit.status d = Deposit.approved.

Definition bet_settled (i : Z) (s : store) : Prop :=
  exists b, bet_by_id i s = Some b /\ Bet.status b = Bet.settled.

(** The row of a user with the balance replaced. *)
Definition with_balance (newBal : JS.number) (u : User.t) : User.t :=
  User.make (User.id u) (User.email u) (User.password_hash u) (User.full_name u)
            (User.created_at u) (Some (numeric_of_number newBal)) (User.is_admin u).

(** The users table after [UPDATE users SET balance=newBal WHERE id=i]. *)
Definition credited (i : Z) (newBal : JS.number) (us : list User.t) : list User.t :=
  map (fun u => if User.id u =? i then with_balance newBal u else u) us.

(** The row of a user with the credential erased. *)
Definition erase_hash (u : User.t) : User.t :=
  User.make (User.id u) (User.email u) "" (User.full_name u)
            (User.created_at u) (User.balance u) (User.is_admin u).

(** The keys of the [user] object of a response. *)
Definition user_keys (r : response) : option (list string) :=
  match payload r with
  | JObj fields =>
      match get_key "user" fields with
      | Some (JObj u) => Some (map fst u)
      | _ => None
      end
  | _ => None
  end.

(** The connection after one call that read the store. *)
Definition after_call (c : conn) : conn :=
  mkConn (snapshot c) (current c) (S (calls c)).

(** The deposits table after [UPDATE deposits SET status='approved',
    approved_by=by_user, approved_at=t WHERE id=i]. *)
Definition approved_deposit (by_user t : Z) (d : Deposit.t) : Deposit.t :=
  Deposit.make (Deposit.id d) (Deposit.user_id d) (Deposit.amount d)
               Deposit.approved (Deposit.created_at d) (Some by_user) (Some t).

Definition approved_rows (i by_user t : Z) (ds : list Deposit.t) : list Deposit.t :=
  map (fun d => if Deposit.id d =? i then approved_deposit by_user t d else d) ds.

(** The bets table after [UPDATE bets SET status='settled', payout=p
    WHERE id=i]. *)
Definition settled_bet (p : option numeric) (b : Bet.t) : Bet.t :=
  Bet.make (Bet.id b) (Bet.user_id b) (Bet.match_id b) (Bet.stake b)
           Bet.settled p (Bet.created_at b).

Definition settled_rows (i : Z) (p : option numeric) (bs : list Bet.t) : list Bet.t :=
  map (fun b => if Bet.id b =? i then settled_bet p b else b) bs.

(** The store after the same request has been served [n] times. *)
Fixpoint serve_times (n : nat) (r : route) (req : request) (ctx : context) (s : store) : store :=
  match n with
  | O => s
  | S k => snd (serve r req ctx (serve_times k r req ctx s))
  end.

(** [later s s']: the store [s'] is reached from [s] by serving requests,
    whatever they are and whichever calls fail. *)
Inductive later (s : store) : store -> Prop :=
  | later_now : later s s
  | later_served (s' : store) (r : route) (req : request) (ctx : context) :
      later s s' -> later s (snd (serve r req ctx s')).

(** The store after [INSERT INTO bets] of the row [b]. *)
Definition with_new_bet (s : store) (b : Bet.t) : store :=
  mkStore (users s) (matches s) (bets s ++ [b]) (deposits s)
          (users_id_seq s) (matches_id_seq s) (bets_id_seq s + 1) (deposits_id_seq s).

(** The row [INSERT INTO bets (user_id, match_id, stake, status)]
    creates: status ['open'], payout 0 by default. *)
Definition new_bet (s : store) (uid mid : Z) (stake : numeric) (t : Z) : Bet.t :=
  Bet.make (bets_id_seq s) uid (Some mid) stake Bet.open (Some JS.zero) t.

(** What a run of [POST /api/bets/place] may leave: either the answer
    is 200 and the store holds both the debit of [uid] and the new open
    bet, or the answer is an error and the rows are as before. *)
Definition debit_and_bet_or_nothing (s : store) (uid : Z) (answer : outcome response)
    (s1 : store) : Prop :=
  match answer with
  | Ok resp =>
      (status resp = 200 /\
       exists newBalance bet,
         s1 = with_new_bet (set_users s (credited uid newBalance (users s))) bet /\
         Bet.id bet = bets_id_seq s /\ Bet.user_id bet = uid /\
         Bet.status bet = Bet.open /\ Bet.payout bet = Some JS.zero)
      \/ (status resp <> 200 /\ same_rows s s1)
  | Throw _ => False
  end.

(** The columns the three user-facing routes answer with. *)
Definition public_columns : list user_column :=
  [col_id; col_email; col_full_name; col_balance; col_is_admin].

(** An answer made of the row [u] without its credential: the [user]
    object lists the public columns of the row, read after the
    [password_hash] is erased; a token, when present, is signed from the
    erased row. *)
Definition answers_without_hash (t : Z) (u : User.t) (resp : response) : Prop :=
  let user := JObj (user_row public_columns (erase_hash u)) in
  payload resp = JObj [("user", user)] \/
  payload resp = JObj [("user", user); ("token", JStr (createToken (erase_hash u) t))].

(** The routes behind [adminMiddleware]. *)
Definition admin_route (r : route) : bool :=
  match r with
  | POST_matches | POST_deposits_approve | POST_bets_payout
  | GET_admin_deposits | GET_admin_users => true
  | _ => false
  end.

(** The routes behind [authMiddleware]. *)
Definition protected_route (r : route) : bool :=
  match r with
  | GET_health | POST_register | POST_login | GET_matches | GET_root => false
  | _ => true
  end.

(** The handler a protected route runs once the caller is known. *)
Definition behind_auth (r : route) (req : request) (user : identity) : M response :=
  match r with
  | GET_me => handle_me user
  | POST_matches => adminMiddleware user (handle_matches req)
  | POST_deposits_request => handle_deposits_request req user
  | POST_deposits_approve => adminMiddleware user (handle_deposits_approve req user)
  | POST_bets_place => handle_bets_place req user
  | POST_bets_payout => adminMiddleware user (handle_bets_payout req user)
  | GET_bets_my => handle_bets_my req user
  | GET_admin_deposits => adminMiddleware user (handle_admin_deposits req user)
  | GET_admin_users => adminMiddleware user (handle_admin_users req user)
  | _ => ret server_error
  end.

(** The row [INSERT INTO deposits (user_id, amount, status)] creates. *)
Definition new_deposit (s : store) (uid : Z) (amount : numeric) (t : Z) : Deposit.t :=
  Deposit.make (deposits_id_seq s) uid amount Deposit.pending t None None.

(** What a run of the approval handler may leave: either the answer is
    200 and the store holds both the credit and the approval of a deposit
    that was pending, or the answer is an error and the store is as
    before. *)
Definition credit_and_approval_or_nothing (s : store) (by_user t : Z)
    (answer : outcome response) (s1 : store) : Prop :=
  match answer with
  | Ok resp =>
      (status resp = 200 /\
       exists i dep newBal,
         deposit_by_id i s = Some dep /\ Deposit.status dep = Deposit.pending /\
         payload resp = JObj [("success", JBool true); ("newBalance", JNum newBal)] /\
         s1 = set_deposits (set_users s (credited (Deposit.user_id dep) newBal (users s)))
                (approved_rows i by_user t (deposits s)))
      \/ (status resp <> 200 /\ s1 = s)
  | Throw _ => False
  end.

(** The same for the payout handler: the credit and the settlement of a
    bet that was open, or nothing. *)
Definition credit_and_settlement_or_nothing (s : store) (amount : JS.value)
    (answer : outcome response) (s1 : store) : Prop :=
  match answer with
  | Ok resp =>
      (status resp = 200 /\
       exists i bet owner newBalance p,
         bet_by_id i s = Some bet /\ Bet.status bet = Bet.open /\
         user_by_id (Bet.user_id bet) s = Some owner /\
         newBalance = JS.add (Number_or_zero (User.balance owner)) (Number amount) /\
         sql_numeric amount = Ok p /\
         s1 = set_bets (set_users s (credited (Bet.user_id bet) newBalance (users s)))
                (settled_rows i p (bets s)))
      \/ (status resp <> 200 /\ s1 = s)
  | Throw _ => False
  end.

(** The routes that only read the store. *)
Definition read_route (r : route) : bool :=
  match r with
  | GET_health | POST_login | GET_me | GET_matches | GET_bets_my
  | GET_admin_deposits | GET_admin_users | GET_root => true
  | _ => false
  end.

(** User [j] has the row [u]. *)
Definition row_is (j : Z) (u : User.t) (s : store) : Prop := user_by_id j s = Some u.

(** [u'] is the account [u] but for its balance. *)
Definition same_account (u u' : User.t) : Prop :=
  User.id u' = User.id u /\ User.email u' = User.email u /\
  User.password_hash u' = User.password_hash u /\
  User.full_name u' = User.full_name u /\
  User.created_at u' = User.created_at u /\ User.is_admin u' = User.is_admin u.

Definition account_kept (j : Z) (u : User.t) (s : store) : Prop :=
  exists u', user_by_id j s = Some u' /\ same_account u u'.

(** [b'] is the bet [b] but for its status and payout. *)
Definition same_wager (b b' : Bet.t) : Prop :=
  Bet.id b' = Bet.id b /\ Bet.user_id b' = Bet.user_id b /\
  Bet.match_id b' = Bet.match_id b /\ Bet.stake b' = Bet.stake b /\
  Bet.created_at b' = Bet.created_at b.

Definition wager_kept (i : Z) (b : Bet.t) (s : store) : Prop :=
  exists b', bet_by_id i s = Some b' /\ same_wager b b'.

(** [d'] is the deposit [d] but for its approval. *)
Definition same_request (d d' : Deposit.t) : Prop :=
  Deposit.id d' = Deposit.id d /\ Deposit.user_id d' = Deposit.user_id d /\
  Deposit.amount d' = Deposit.amount d /\ Deposit.created_at d' = Deposit.created_at d.

Definition request_kept (i : Z) (d : Deposit.t) (s : store) : Prop :=
  exists d', deposit_by_id i s = Some d' /\ same_request d d'.

(** The REFERENCES of the schema: the owner of every bet and of every
    deposit has a row, and so have the match of a bet and the approver
    of a deposit when the column is not NULL. *)
Definition references_hold (s : store) : Prop :=
  (forall b, In b (bets s) ->
     user_by_id (Bet.user_id b) s <> None /\
     forall m, Bet.match_id b = Some m -> match_by_id m s <> None) /\
  (forall d, In d (deposits s) ->
     user_by_id (Deposit.user_id d) s <> None /\
     forall a, Deposit.approved_by d = Some a -> user_by_id a s <> None).

(** The UNIQUE constraint on [users.email]. *)
Definition emails_unique (s : store) : Prop := NoDup (map User.email (users s)).

(** A listing in the order of [ORDER BY created_at DESC], and of
    [ORDER BY created_at ASC]. *)
Definition newest_first {A : Type} (created_at : A -> Z) (l : list A) : Prop :=
  StronglySorted (fun a b => created_at b <= created_at a) l.

Definition oldest_first {A : Type} (created_at : A -> Z) (l : list A) : Prop :=
  StronglySorted (fun a b => created_at a <= created_at b) l.

(** The object [GET /api/bets/my] answers for a bet: the bet and, by the
    LEFT JOIN, the teams and the odds of its match. *)
Definition bet_row (s : store) (b : Bet.t) : json :=
  let m := match Bet.match_id b with
           | Some i => match_by_id i s
           | None => None
           end in
  JObj [("id", JInt (Bet.id b)); ("match_id", nullable JInt (Bet.match_id b));
        ("stake", JNumeric (Bet.stake b));
        ("status", JStr (bet_status_text (Bet.status b)));
        ("payout", nullable JNumeric (Bet.payout b));
        ("created_at", JTime (Bet.created_at b));
        ("home", nullable JStr (option_map Match.home m));
        ("away", nullable JStr (option_map Match.away m));
        ("odds", nullable JNumeric (option_map Match.odds m))].

(** A deposit that waits for approval. *)
Definition waiting (d : Deposit.t) : bool :=
  match Deposit.status d with
  | Deposit.pending => true
  | Deposit.approved => false
  end.

(** The object [GET /api/admin/deposits] answers for a deposit: the
    deposit and, by the LEFT JOIN, the email of its owner. *)
Definition deposit_row (s : store) (d : Deposit.t) : json :=
  JObj [("id", JInt (Deposit.id d)); ("user_id", JInt (Deposit.user_id d));
        ("amount", JNumeric (Deposit.amount d));
        ("status", JStr (deposit_status_text (Deposit.status d)));
        ("created_at", JTime (Deposit.created_at d));
        ("email", nullable JStr (option_map User.email (user_by_id (Deposit.user_id d) s)))].

(** A word of a header: a string without a space. *)
Fixpoint no_space (s : string) : bool :=
  match s with
  | EmptyString => true
  | String ch rest => negb (Ascii.eqb ch " "%char) && no_space rest
  end.

(** The row [INSERT INTO users] creates for a registration: the balance
    is 0 by default, the admin flag is NULL when no ADMIN_EMAIL is set
    and the comparison of the lowercased emails otherwise. *)
Definition new_user (s : store) (e p : string) (full_name : JS.value) (ctx : context) : User.t :=
  User.make (users_id_seq s) e (bcrypt_hash p (salt ctx))
            (param_text (if JS.truthy full_name then full_name else JS.Null))
            (now ctx) (Some JS.zero)
            (option_map (fun a => String.eqb (toLowerCase a) (toLowerCase e)) ADMIN_EMAIL).

Definition with_new_user (s : store) (u : User.t) : store :=
  mkStore (users s ++ [u]) (matches s) (bets s) (deposits s)
          (users_id_seq s + 1) (matches_id_seq s) (bets_id_seq s) (deposits_id_seq s).

(** The answer of a registration and of a login: the public columns of
    the row and a token signed for it. *)
Definition session (u : User.t) (t : Z) : response :=
  res_json (JObj [("user", JObj (user_row public_columns u));
                  ("token", JStr (createToken u t))]).

(** The answer of the profile. *)
Definition profile (u : User.t) : response :=
  res_json (JObj [("user", JObj (user_row public_columns u))]).

(** The keys of a table are fresh for its sequence: pairwise distinct
    and below the next value. *)
Definition fresh_keys {A : Type} (id : A -> Z) (l : list A) (next : Z) : Prop :=
  NoDup (map id l) /\ forall x, In x l -> id x < next.

(** The PRIMARY KEY of the four tables, fed by the SERIAL sequences. *)
Definition primary_keys (s : store) : Prop :=
  fresh_keys User.id (users s) (users_id_seq s) /\
  fresh_keys Match.id (matches s) (matches_id_seq s) /\
  fresh_keys Bet.id (bets s) (bets_id_seq s) /\
  fresh_keys Deposit.id (deposits s) (deposits_id_seq s).

(** A sequence never goes back, not even by ROLLBACK. *)
Definition sequences_le (s s' : store) : Prop :=
  users_id_seq s <= users_id_seq s' /\ matches_id_seq s <= matches_id_seq s' /\
  bets_id_seq s <= bets_id_seq s' /\ deposits_id_seq s <= deposits_id_seq s'.

(** The keys hold on a connection: in the store, and in the snapshot of
    an open transaction, whose sequences the store has not gone below. *)
Definition sees_keys (c : conn) : Prop :=
  primary_keys (current c) /\
  match snapshot c with
  | Some s0 => primary_keys s0 /\ sequences_le s0 (current c)
  | None => True
  end.

Definition keeps_keys {A : Type} (m : M A) : Prop :=
  forall ctx c, sees_keys c -> sees_keys (snd (m ctx c)).

Definition statement_keeps_keys {A : Type} (q : statement A) : Prop :=
  forall s, primary_keys s -> primary_keys (snd (q s)) /\ sequences_le s (snd (q s)).

(** The account found by the email [e] is [u] but for its balance. *)
Definition email_kept (e : string) (u : User.t) (s : store) : Prop :=
  exists u', user_by_email e s = Some u' /\ same_account u u'.

(** The store after [INSERT INTO deposits] of the row [d]. *)
Definition with_new_deposit (s : store) (d : Deposit.t) : store :=
  mkStore (users s) (matches s) (bets s) (deposits s ++ [d])
          (users_id_seq s) (matches_id_seq s) (bets_id_seq s) (deposits_id_seq s + 1).

(** The row [INSERT INTO matches (home,away,odds)] creates, and the
    store after it. *)
Definition new_match (s : store) (home away : string) (odds : numeric) (t : Z) : Match.t :=
  Match.make (matches_id_seq s) home away odds t.

Definition with_new_match (s : store) (m : Match.t) : store :=
  mkStore (users s) (matches s ++ [m]) (bets s) (deposits s)
          (users_id_seq s) (matches_id_seq s + 1) (bets_id_seq s) (deposits_id_seq s).

End Vocabulary.

(** ** Properties *)
Section Properties.
Context {ext : Externals}.

(** *** The monad and the middlewares *)

Lemma authMiddleware_cases (req : request) (ctx : context) :
  (exists user, authenticated req ctx user) \/
  (exists resp, status resp = 401 /\
     forall next c, authMiddleware req next ctx c = (Ok resp, c)).
Proof.
  unfold authenticated, authMiddleware.
  destruct (authorization req) as [header|]; [|right; eexists; split; [|reflexivity]; reflexivity].
  destruct (String.eqb header ""); [right; eexists; split; [|reflexivity]; reflexivity|].
  destruct (nth_error (split " " header) 1) as [token|];
    [|right; eexists; split; [|reflexivity]; reflexivity].
  destruct (String.eqb token ""); [right; eexists; split; [|reflexivity]; reflexivity|].
  unfold bind, ask.
  destruct (jwt_verify token (now ctx)) as [[i e]|].
  - left. exists (mkIdentity i e). reflexivity.
  - right. eexists; split; [|reflexivity]; reflexivity.
Qed.

Lemma adminMiddleware_run (user : identity) (next : M response) (ctx : context) (c : conn) :
  adminMiddleware user next ctx c =
    if fails ctx (calls c) then (Ok server_error, after_call c)
    else
      match user_by_id (ident_id user) (current c) with
      | Some u =>
          match User.is_admin u with
          | Some true => next ctx (after_call c)
          | _ => (Ok (res_error 403 "Admin only"), after_call c)
          end
      | None => (Ok (res_error 403 "Admin only"), after_call c)
      end.
Proof.
  unfold adminMiddleware, bind, try_catch, query, client_query, select_user, ret, after_call.
  destruct (fails ctx (calls c)); [reflexivity|].
  destruct (user_by_id (ident_id user) (current c)) as [u|]; [|reflexivity].
  destruct (User.is_admin u) as [[|]|]; reflexivity.
Qed.

Lemma adminMiddleware_admin (user : identity) (next : M response) (ctx : context) (c : conn) :
  is_admin_in (current c) user -> fails ctx (calls c) = false ->
  adminMiddleware user next ctx c = next ctx (after_call c).
Proof.
  intros (u & Hu & Ha) Hf. rewrite adminMiddleware_run, Hf, Hu, Ha. reflexivity.
Qed.

Lemma authenticated_unique (req : request) (ctx : context) (u u' : identity) :
  authenticated req ctx u -> authenticated req ctx u' -> u = u'.
Proof.
  intros H H'.
  pose proof (H (fun v _ c => (Ok (res_error (ident_id v) (ident_email v)), c))
                (mkConn None empty_store 0)) as A.
  rewrite H' in A. cbv beta in A. inversion A.
  destruct u, u'; cbn in *; subst; reflexivity.
Qed.

Lemma authenticated_not_refused (req : request) (ctx : context) (u : identity) (resp : response) :
  authenticated req ctx u ->
  (forall next c, authMiddleware req next ctx c = (Ok resp, c)) -> False.
Proof.
  intros H Hr.
  pose proof (H (fun _ => ret (res_error 0 "")) (mkConn None empty_store 0)) as A.
  rewrite Hr in A. unfold ret in A. inversion A. subst resp.
  pose proof (H (fun _ => ret (res_error 1 "")) (mkConn None empty_store 0)) as B.
  rewrite Hr in B. unfold ret in B. inversion B.
Qed.

(** *** Validation of the payout request *)

Lemma payout_falsy_amount_route (req : request) :
  JS.truthy (field "amount" (body req)) = false ->
  post_bets_payout req =
    authMiddleware req (fun user =>
      adminMiddleware user (ret (res_error 400 "Missing params"))).
Proof.
  intros H. unfold post_bets_payout, handle_bets_payout. cbv zeta.
  rewrite H. cbn [negb]. rewrite orb_true_r. reflexivity.
Qed.

(** C10 (as the code has it). A payout request whose amount is falsy (0, -0, NaN, the empty
    string, null, false, or no amount at all) is answered by the
    middlewares or by 400 "Missing params": the handler issues no
    statement, so no transaction is begun (at most the admin lookup
    reaches the store) and the store is left as it was; an
    authenticated admin gets the 400. *)
Theorem payout_rejects_falsy_amount (req : request) (ctx : context) (s : store) :
  JS.truthy (field "amount" (body req)) = false ->
  post_bets_payout req =
    authMiddleware req (fun user =>
      adminMiddleware user (ret (res_error 400 "Missing params")))
  /\ snd (serve POST_bets_payout req ctx s) = s
  /\ (calls (snd (post_bets_payout req ctx (mkConn None s 0))) <= 1)%nat
  /\ (forall user, authenticated req ctx user -> is_admin_in s user ->
      fails ctx 0 = false ->
      fst (serve POST_bets_payout req ctx s) = Ok (res_error 400 "Missing params")).
Proof.
  intros H. pose proof (payout_falsy_amount_route req H) as E.
  split; [exact E|].
  unfold serve, run, handler. rewrite E.
  destruct (authMiddleware_cases req ctx) as [[user Hu]|[resp [_ Hr]]].
  - rewrite Hu, adminMiddleware_run. cbn [calls current].
    repeat split.
    + destruct (fails ctx 0); [reflexivity|].
      destruct (user_by_id (ident_id user) s) as [u|]; [|reflexivity].
      destruct (User.is_admin u) as [[|]|]; reflexivity.
    + destruct (fails ctx 0); [cbn; lia|].
      destruct (user_by_id (ident_id user) s) as [u|]; [|cbn; lia].
      destruct (User.is_admin u) as [[|]|]; cbn; lia.
    + intros user' Hu' (u & Hs & Ha) Hf.
      rewrite (authenticated_unique req ctx user' user Hu' Hu) in Hs.
      rewrite Hu, adminMiddleware_run. cbn [calls current].
      rewrite Hf, Hs, Ha. reflexivity.
  - rewrite Hr. cbn. repeat split; try lia.
    intros user Hu _ _. exfalso. exact (authenticated_not_refused req ctx user resp Hu Hr).
Qed.

(** *** Rows found after an update *)

Lemma find_map_same_key {A : Type} (p : A -> bool) (f : A -> A) (l : list A) :
  (forall x, p (f x) = p x) ->
  find p (map f l) = option_map f (find p l).
Proof.
  intros Hp. induction l as [|x l IH]; [reflexivity|].
  cbn [map find]. rewrite Hp. destruct (p x); [reflexivity|exact IH].
Qed.

Lemma user_by_id_credited (s : store) (i j : Z) (d : JS.number) :
  user_by_id j (set_users s (credited i d (users s))) =
  option_map (fun u => if User.id u =? i then with_balance d u else u) (user_by_id j s).
Proof.
  unfold user_by_id, credited. cbn [users set_users].
  apply find_map_same_key. intros u.
  destruct (User.id u =? i); reflexivity.
Qed.

Lemma deposit_by_id_approved (s : store) (i j by_user t : Z) :
  deposit_by_id j (set_deposits s (approved_rows i by_user t (deposits s))) =
  option_map (fun d => if Deposit.id d =? i then approved_deposit by_user t d else d)
             (deposit_by_id j s).
Proof.
  unfold deposit_by_id, approved_rows. cbn [deposits set_deposits].
  apply find_map_same_key. intros d.
  destruct (Deposit.id d =? i); reflexivity.
Qed.

Lemma bet_by_id_settled (s : store) (i j : Z) (p : option numeric) :
  bet_by_id j (set_bets s (settled_rows i p (bets s))) =
  option_map (fun b => if Bet.id b =? i then settled_bet p b else b) (bet_by_id j s).
Proof.
  unfold bet_by_id, settled_rows. cbn [bets set_bets].
  apply find_map_same_key. intros b.
  destruct (Bet.id b =? i); reflexivity.
Qed.

Lemma find_some_existsb {A : Type} (p : A -> bool) (l : list A) (x : A) :
  find p l = Some x -> existsb p l = true.
Proof.
  intros H. apply find_some in H. apply existsb_exists. exists x. exact H.
Qed.

Lemma user_by_id_key (s : store) (i : Z) (u : User.t) :
  user_by_id i s = Some u -> User.id u = i.
Proof.
  intros H. apply find_some in H. destruct H as [_ H]. lia.
Qed.

Lemma deposit_by_id_key (s : store) (i : Z) (d : Deposit.t) :
  deposit_by_id i s = Some d -> Deposit.id d = i.
Proof.
  intros H. apply find_some in H. destruct H as [_ H]. lia.
Qed.

Lemma bet_by_id_key (s : store) (i : Z) (b : Bet.t) :
  bet_by_id i s = Some b -> Bet.id b = i.
Proof.
  intros H. apply find_some in H. destruct H as [_ H]. lia.
Qed.

(** *** Statements on the rows they touch *)

Lemma update_balance_run (d : JS.number) (i : Z) (s : store) :
  update_balance d i s = (Ok tt, set_users s (credited i d (users s))).
Proof. reflexivity. Qed.

Lemma update_deposit_approved_run (by_user : Z) (id : JS.value) (t i : Z) (s : store)
    (dep : Deposit.t) (approver : User.t) :
  sql_int id = Ok (Some i) ->
  deposit_by_id i s = Some dep ->
  user_by_id by_user s = Some approver ->
  update_deposit_approved by_user id t s =
    (Ok tt, set_deposits s (approved_rows i by_user t (deposits s))).
Proof.
  intros Hi Hd Ha. unfold update_deposit_approved, with_param. rewrite Hi, Ha.
  rewrite (find_some_existsb _ _ _ Hd). reflexivity.
Qed.

Lemma update_bet_settled_run (amount betId : JS.value) (p : option numeric) (i : Z) (s : store) :
  sql_numeric amount = Ok p ->
  sql_int betId = Ok (Some i) ->
  update_bet_settled amount betId s = (Ok tt, set_bets s (settled_rows i p (bets s))).
Proof.
  intros Hp Hi. unfold update_bet_settled, with_param. rewrite Hp, Hi. reflexivity.
Qed.

Lemma select_deposit_run (id : JS.value) (i : Z) (s : store) :
  sql_int id = Ok (Some i) ->
  select_deposit id s = (Ok (deposit_by_id i s), s).
Proof.
  intros Hi. unfold select_deposit, with_param. rewrite Hi. reflexivity.
Qed.

Lemma select_bet_run (id : JS.value) (i : Z) (s : store) :
  sql_int id = Ok (Some i) ->
  select_bet id s = (Ok (bet_by_id i s), s).
Proof.
  intros Hi. unfold select_bet, with_param. rewrite Hi. reflexivity.
Qed.

Lemma select_match_run (id : JS.value) (i : Z) (s : store) :
  sql_int id = Ok (Some i) ->
  select_match id s = (Ok (match_by_id i s), s).
Proof.
  intros Hi. unfold select_match, with_param. rewrite Hi. reflexivity.
Qed.

(** Symbolic execution of a handler on a reliable store: unfold the
    monad, answer the failure test of each call, reduce the connection. *)
Ltac run_monad Hrel :=
  unfold try_catch, bind, ask, lift, BEGIN, COMMIT, ROLLBACK, query, client_query, ret;
  repeat (progress (rewrite ?Hrel; cbn [current calls snapshot fst snd])).

(** *** Properties of the rows that every route keeps *)

Lemma keeps_ret (P : store -> Prop) {A : Type} (a : A) : keeps P (ret a).
Proof. intros ctx c H. exact H. Qed.

Lemma keeps_throw (P : store -> Prop) {A : Type} (e : error) : keeps P (@throw A e).
Proof. intros ctx c H. exact H. Qed.

Lemma keeps_lift (P : store -> Prop) {A : Type} (o : outcome A) : keeps P (lift o).
Proof. intros ctx c H. exact H. Qed.

Lemma keeps_ask (P : store -> Prop) : keeps P ask.
Proof. intros ctx c H. exact H. Qed.

Lemma keeps_bind (P : store -> Prop) {A B : Type} (m : M A) (k : A -> M B) :
  keeps P m -> (forall a, keeps P (k a)) -> keeps P (bind m k).
Proof.
  intros Hm Hk ctx c H. unfold bind.
  specialize (Hm ctx c H).
  destruct (m ctx c) as [[a|e] c']; cbn [snd] in *.
  - apply Hk, Hm.
  - exact Hm.
Qed.

Lemma keeps_try_catch (P : store -> Prop) {A : Type} (body : M A) (handler : error -> M A) :
  keeps P body -> (forall e, keeps P (handler e)) -> keeps P (try_catch body handler).
Proof.
  intros Hm Hk ctx c H. unfold try_catch.
  specialize (Hm ctx c H).
  destruct (body ctx c) as [[a|e] c']; cbn [snd] in *.
  - exact Hm.
  - apply Hk, Hm.
Qed.

Lemma keeps_client_query (P : store -> Prop) {A : Type} (q : statement A) :
  statement_keeps P q -> keeps P (client_query q).
Proof.
  intros Hq ctx c [Hc Hs]. unfold client_query.
  destruct (fails ctx (calls c)); [split; assumption|].
  specialize (Hq (current c) Hc).
  destruct (q (current c)) as [r s']. cbn [snd] in *.
  split; cbn [current snapshot]; assumption.
Qed.

Lemma keeps_query (P : store -> Prop) {A : Type} (q : statement A) :
  statement_keeps P q -> keeps P (query q).
Proof. apply keeps_client_query. Qed.

Lemma keeps_BEGIN (P : store -> Prop) : keeps P BEGIN.
Proof.
  intros ctx c [Hc Hs]. unfold BEGIN.
  destruct (fails ctx (calls c)); split; cbn; assumption.
Qed.

Lemma keeps_COMMIT (P : store -> Prop) : keeps P COMMIT.
Proof.
  intros ctx c [Hc Hs]. unfold COMMIT.
  destruct (fails ctx (calls c)); split; cbn; trivial.
Qed.

Lemma keeps_ROLLBACK (P : store -> Prop) : survives_rollback P -> keeps P ROLLBACK.
Proof.
  intros HP ctx c [Hc Hs]. unfold ROLLBACK. split; cbn; [|trivial].
  destruct (snapshot c); [apply HP, Hs|exact Hc].
Qed.

Lemma with_param_keeps (P : store -> Prop) {Q A : Type} (p : outcome Q) (k : Q -> statement A) :
  (forall v, statement_keeps P (k v)) -> statement_keeps P (with_param p k).
Proof.
  intros Hk s H. unfold with_param. destruct p as [v|e]; [apply Hk, H|exact H].
Qed.

Lemma read_only_keeps (P : store -> Prop) {A : Type} (f : store -> A) :
  statement_keeps P (fun s => (Ok (f s), s)).
Proof. intros s H. exact H. Qed.

Lemma select_user_keeps (P : store -> Prop) (i : Z) : statement_keeps P (select_user i).
Proof. intros s H. exact H. Qed.

Lemma select_user_by_email_keeps (P : store -> Prop) (e : JS.value) :
  statement_keeps P (select_user_by_email e).
Proof. intros s H. unfold select_user_by_email. destruct (param_text e); exact H. Qed.

Lemma select_match_keeps (P : store -> Prop) (v : JS.value) : statement_keeps P (select_match v).
Proof. apply with_param_keeps. intros [i|] s H; exact H. Qed.

Lemma select_deposit_keeps (P : store -> Prop) (v : JS.value) :
  statement_keeps P (select_deposit v).
Proof. apply with_param_keeps. intros [i|] s H; exact H. Qed.

Lemma select_bet_keeps (P : store -> Prop) (v : JS.value) : statement_keeps P (select_bet v).
Proof. apply with_param_keeps. intros [i|] s H; exact H. Qed.

Lemma insert_user_keeps (P : store -> Prop) (e : JS.value) (h : string) (f : JS.value)
    (a : option bool) (t : Z) :
  ignores_users P -> statement_keeps P (insert_user e h f a t).
Proof.
  intros HP s H. unfold insert_user.
  destruct (param_text e); [|(cbn; exact (HP s _ _ H))].
  destruct (existsb _ _); (cbn; exact (HP s _ _ H)).
Qed.

Lemma update_balance_keeps (P : store -> Prop) (d : JS.number) (i : Z) :
  ignores_users P -> statement_keeps P (update_balance d i).
Proof. intros HP s H. (cbn; exact (HP s _ _ H)). Qed.

Lemma insert_deposit_keeps (P : store -> Prop) (uid : Z) (v : JS.value) (t : Z) :
  ignores_deposits P -> statement_keeps P (insert_deposit uid v t).
Proof.
  intros HP. apply with_param_keeps. intros [a|] s H; [|(cbn; exact (HP s _ _ H))].
  destruct (user_by_id uid s); (cbn; exact (HP s _ _ H)).
Qed.

Lemma update_deposit_approved_keeps (P : store -> Prop) (by_user : Z) (v : JS.value) (t : Z) :
  ignores_deposits P -> statement_keeps P (update_deposit_approved by_user v t).
Proof.
  intros HP. apply with_param_keeps. intros [i|] s H; [|exact H].
  destruct (existsb _ _), (user_by_id by_user s); try exact H; (cbn; exact (HP s _ _ H)).
Qed.

Lemma insert_bet_keeps (P : store -> Prop) (uid : Z) (m st : JS.value) (t : Z) :
  ignores_bets P -> statement_keeps P (insert_bet uid m st t).
Proof.
  intros HP. apply with_param_keeps. intros mid. apply with_param_keeps.
  intros [st'|] s H; [|(cbn; exact (HP s _ _ H))].
  destruct (user_by_id uid s), mid as [mid|]; try (cbn; exact (HP s _ _ H));
    destruct (match_by_id mid s); (cbn; exact (HP s _ _ H)).
Qed.

Lemma update_bet_settled_keeps (P : store -> Prop) (a v : JS.value) :
  ignores_bets P -> statement_keeps P (update_bet_settled a v).
Proof.
  intros HP. apply with_param_keeps. intros p. apply with_param_keeps.
  intros [i|] s H; [(cbn; exact (HP s _ _ H))|exact H].
Qed.

Lemma insert_match_keeps (P : store -> Prop) (h a o : JS.value) (t : Z) :
  ignores_matches P -> statement_keeps P (insert_match h a o t).
Proof.
  intros HP. apply with_param_keeps. intros o' s H.
  destruct (param_text h), (param_text a), o'; (cbn; exact (HP s _ _ H)).
Qed.

(** The match table. *)
Lemma match_table_survives (ms : list Match.t) : survives_rollback (match_table_is ms).
Proof. intros s0 s H. exact H. Qed.

Lemma match_table_ignores_users (ms : list Match.t) : ignores_users (match_table_is ms).
Proof. intros s us n H. exact H. Qed.

Lemma match_table_ignores_bets (ms : list Match.t) : ignores_bets (match_table_is ms).
Proof. intros s bs n H. exact H. Qed.

Lemma match_table_ignores_deposits (ms : list Match.t) : ignores_deposits (match_table_is ms).
Proof. intros s ds n H. exact H. Qed.

(** An approved deposit. *)
Lemma deposit_approved_survives (i : Z) : survives_rollback (deposit_approved i).
Proof. intros s0 s H. exact H. Qed.

Lemma deposit_approved_ignores_users (i : Z) : ignores_users (deposit_approved i).
Proof. intros s us n H. exact H. Qed.

Lemma deposit_approved_ignores_matches (i : Z) : ignores_matches (deposit_approved i).
Proof. intros s ms n H. exact H. Qed.

Lemma deposit_approved_ignores_bets (i : Z) : ignores_bets (deposit_approved i).
Proof. intros s bs n H. exact H. Qed.

Lemma find_app_found {A : Type} (p : A -> bool) (l added : list A) (x : A) :
  find p l = Some x -> find p (l ++ added) = Some x.
Proof.
  induction l as [|y l IH]; [discriminate|].
  cbn [find app]. destruct (p y); [trivial|exact IH].
Qed.

Lemma insert_deposit_keeps_approved (i uid : Z) (v : JS.value) (t : Z) :
  statement_keeps (deposit_approved i) (insert_deposit uid v t).
Proof.
  apply with_param_keeps. intros [a|] s H; [|exact H].
  destruct (user_by_id uid s); [|exact H].
  destruct H as (d & Hd & Hst). exists d. split; [|exact Hst].
  unfold deposit_by_id in *. cbn. apply find_app_found, Hd.
Qed.

Lemma update_deposit_approved_keeps_approved (i by_user : Z) (v : JS.value) (t : Z) :
  statement_keeps (deposit_approved i) (update_deposit_approved by_user v t).
Proof.
  apply with_param_keeps. intros [j|] s H; [|exact H].
  destruct (existsb _ _), (user_by_id by_user s); try exact H;
    destruct H as (d & Hd & Hst); cbn [snd];
    change (deposit_approved i (set_deposits s (approved_rows j by_user t (deposits s))));
    unfold deposit_approved; rewrite deposit_by_id_approved, Hd; cbn [option_map];
    eexists; (split; [reflexivity|]); destruct (Deposit.id d =? j); trivial.
Qed.

(** A settled bet. *)
Lemma bet_settled_survives (i : Z) : survives_rollback (bet_settled i).
Proof. intros s0 s H. exact H. Qed.

Lemma bet_settled_ignores_users (i : Z) : ignores_users (bet_settled i).
Proof. intros s us n H. exact H. Qed.

Lemma bet_settled_ignores_matches (i : Z) : ignores_matches (bet_settled i).
Proof. intros s ms n H. exact H. Qed.

Lemma bet_settled_ignores_deposits (i : Z) : ignores_deposits (bet_settled i).
Proof. intros s ds n H. exact H. Qed.

Lemma insert_bet_keeps_settled (i uid : Z) (m st : JS.value) (t : Z) :
  statement_keeps (bet_settled i) (insert_bet uid m st t).
Proof.
  apply with_param_keeps. intros mid. apply with_param_keeps.
  intros [st'|] s H; [|exact H].
  destruct (user_by_id uid s), mid as [mid|]; try exact H;
    try (destruct (match_by_id mid s); try exact H);
    destruct H as (b & Hb & Hst); exists b; (split; [|exact Hst]);
    unfold bet_by_id in *; cbn; apply find_app_found, Hb.
Qed.

Lemma update_bet_settled_keeps_settled (i : Z) (a v : JS.value) :
  statement_keeps (bet_settled i) (update_bet_settled a v).
Proof.
  apply with_param_keeps. intros p. apply with_param_keeps.
  intros [j|] s H; [|exact H].
  destruct H as (b & Hb & Hst). cbn [snd].
  change (bet_settled i (set_bets s (settled_rows j p (bets s)))).
  unfold bet_settled. rewrite bet_by_id_settled, Hb. cbn [option_map].
  eexists. split; [reflexivity|]. destruct (Bet.id b =? j); trivial.
Qed.

Create HintDb keeps.
#[local] Hint Resolve keeps_ret keeps_throw keeps_lift keeps_ask keeps_BEGIN keeps_COMMIT
  keeps_ROLLBACK read_only_keeps
  select_user_keeps select_user_by_email_keeps select_match_keeps select_deposit_keeps
  select_bet_keeps insert_user_keeps update_balance_keeps insert_deposit_keeps
  update_deposit_approved_keeps insert_bet_keeps update_bet_settled_keeps insert_match_keeps
  match_table_survives match_table_ignores_users match_table_ignores_bets
  match_table_ignores_deposits
  deposit_approved_survives deposit_approved_ignores_users deposit_approved_ignores_matches
  deposit_approved_ignores_bets insert_deposit_keeps_approved
  update_deposit_approved_keeps_approved
  bet_settled_survives bet_settled_ignores_users bet_settled_ignores_matches
  bet_settled_ignores_deposits insert_bet_keeps_settled update_bet_settled_keeps_settled
  : keeps.

(** Decompose a handler into its calls, each of which keeps the
    property. *)
Ltac keeps :=
  repeat first
    [ progress auto with keeps
    | apply keeps_bind
    | apply keeps_try_catch
    | apply keeps_client_query
    | apply keeps_query
    | match goal with
      | |- forall _, _ => intro
      | |- keeps _ (if ?b then _ else _) => destruct b
      | |- keeps _ (match ?x with _ => _ end) => destruct x
      end ].

Lemma keeps_authMiddleware (P : store -> Prop) (req : request) (next : identity -> M response) :
  (forall user, keeps P (next user)) -> keeps P (authMiddleware req next).
Proof. intros H. unfold authMiddleware. keeps. Qed.

Lemma keeps_adminMiddleware (P : store -> Prop) (user : identity) (next : M response) :
  keeps P next -> keeps P (adminMiddleware user next).
Proof. intros H. unfold adminMiddleware. keeps. Qed.

Ltac keeps_route :=
  unfold get_health, post_register, post_login, get_me, handle_me, get_matches,
    post_matches, handle_matches,
    post_deposits_request, handle_deposits_request,
    post_deposits_approve, handle_deposits_approve,
    post_bets_place, handle_bets_place, post_bets_payout, handle_bets_payout,
    get_bets_my, handle_bets_my, get_admin_deposits, handle_admin_deposits,
    get_admin_users, handle_admin_users, get_root;
  cbv zeta;
  repeat first [ apply keeps_authMiddleware; intro | apply keeps_adminMiddleware ];
  keeps.

Lemma keeps_handler (r : route) (req : request) (ms : list Match.t) :
  r <> POST_matches -> keeps (match_table_is ms) (handler r req).
Proof.
  intros Hr. destruct r; try contradiction; cbn [handler]; keeps_route.
Qed.

Lemma handler_keeps_approved (r : route) (req : request) (i : Z) :
  keeps (deposit_approved i) (handler r req).
Proof. destruct r; cbn [handler]; keeps_route. Qed.

Lemma handler_keeps_settled (r : route) (req : request) (i : Z) :
  keeps (bet_settled i) (handler r req).
Proof. destruct r; cbn [handler]; keeps_route. Qed.

Lemma serve_keeps (P : store -> Prop) (r : route) (req : request) (ctx : context) (s : store) :
  keeps P (handler r req) -> P s -> P (snd (serve r req ctx s)).
Proof.
  intros Hk HP. unfold serve, run.
  pose proof (Hk ctx (mkConn None s 0) (conj HP I)) as H.
  destruct (handler r req ctx (mkConn None s 0)) as [answer c'].
  apply H.
Qed.

(** Once approved, a deposit is approved in every later store; once
    settled, a bet is settled in every later store. *)
Lemma approved_for_good (i : Z) (s s' : store) :
  later s s' -> deposit_approved i s -> deposit_approved i s'.
Proof.
  intros Hl H. induction Hl as [|s' r req ctx _ IH]; [exact H|].
  apply serve_keeps; [apply handler_keeps_approved|exact IH].
Qed.

Lemma settled_for_good (i : Z) (s s' : store) :
  later s s' -> bet_settled i s -> bet_settled i s'.
Proof.
  intros Hl H. induction Hl as [|s' r req ctx _ IH]; [exact H|].
  apply serve_keeps; [apply handler_keeps_settled|exact IH].
Qed.

(** *** Approval of a deposit *)

(** The run of the handler on a pending deposit. *)
Lemma approve_pending_run (req : request) (user : identity) (ctx : context) (c : conn)
    (i : Z) (dep : Deposit.t) (approver : User.t) :
  reliable ctx ->
  names (field "id" (body req)) i ->
  deposit_by_id i (current c) = Some dep ->
  Deposit.status dep = Deposit.pending ->
  user_by_id (ident_id user) (current c) = Some approver ->
  let s := current c in
  let current_balance :=
    match user_by_id (Deposit.user_id dep) s with
    | Some u => Number_or_zero (User.balance u)
    | None => JS.zero
    end in
  let newBal := JS.add current_balance (Deposit.amount dep) in
  let s1 := set_users s (credited (Deposit.user_id dep) newBal (users s)) in
  let s2 := set_deposits s1 (approved_rows i (ident_id user) (now ctx) (deposits s1)) in
  handle_deposits_approve req user ctx c =
    (Ok (res_json (JObj [("success", JBool true); ("newBalance", JNum newBal)])),
     mkConn None s2 (6 + calls c)).
Proof.
  intros Hrel [Ht Hi] Hd Hp Ha. cbv zeta.
  unfold handle_deposits_approve. cbv zeta. rewrite Ht. cbn [negb].
  run_monad Hrel.
  rewrite (select_deposit_run _ _ _ Hi), Hd, Hp.
  run_monad Hrel. unfold select_user. run_monad Hrel.
  rewrite update_balance_run. run_monad Hrel.
  erewrite (update_deposit_approved_run _ _ _ i _ dep _ Hi);
    [ | exact Hd | rewrite user_by_id_credited, Ha; reflexivity ].
  run_monad Hrel. reflexivity.
Qed.

Lemma restore_same (s : store) : restore s s = s.
Proof. destruct s; reflexivity. Qed.

(** The run of the handler on a deposit that is approved already. *)
Lemma approve_approved_run (req : request) (user : identity) (ctx : context) (c : conn)
    (i : Z) (dep : Deposit.t) :
  reliable ctx ->
  names (field "id" (body req)) i ->
  deposit_by_id i (current c) = Some dep ->
  Deposit.status dep = Deposit.approved ->
  handle_deposits_approve req user ctx c =
    (Ok (res_error 400 "Already approved"), mkConn None (current c) (3 + calls c)).
Proof.
  intros Hrel [Ht Hi] Hd Hp.
  unfold handle_deposits_approve. cbv zeta. rewrite Ht. cbn [negb].
  run_monad Hrel.
  rewrite (select_deposit_run _ _ _ Hi), Hd, Hp.
  run_monad Hrel. rewrite restore_same. reflexivity.
Qed.

Lemma is_admin_in_credited (s : store) (user : identity) (i : Z) (d : JS.number)
    (ds : list Deposit.t) :
  is_admin_in s user ->
  is_admin_in (set_deposits (set_users s (credited i d (users s))) ds) user.
Proof.
  intros (u & Hu & Ha). unfold is_admin_in.
  change (user_by_id (ident_id user) (set_deposits (set_users s (credited i d (users s))) ds))
    with (user_by_id (ident_id user) (set_users s (credited i d (users s)))).
  rewrite user_by_id_credited, Hu. cbn [option_map].
  eexists. split; [reflexivity|].
  destruct (User.id u =? i); exact Ha.
Qed.

(** The route, for an authenticated admin on a working store. *)
Lemma post_deposits_approve_admin (req : request) (ctx : context) (s : store) (admin : identity) :
  authenticated req ctx admin -> is_admin_in s admin -> reliable ctx ->
  serve POST_deposits_approve req ctx s =
    let (r, c) := handle_deposits_approve req admin ctx (mkConn None s 1) in (r, current c).
Proof.
  intros Hauth Hadm Hrel. unfold serve, run, handler, post_deposits_approve.
  rewrite Hauth, adminMiddleware_admin; [reflexivity|exact Hadm|apply Hrel].
Qed.

(** C3 (as the code has it). A pending deposit with amount [a], whose
    owner has balance [b], is approved by the first call of an admin:
    the answer is 200 with [newBalance] the binary64 sum of [b] and [a]
    (precision 53, round to nearest, ties to even; not the exact sum
    when that is not representable), the owner's balance cell holds that
    sum ([numeric_of_number] prints [-0] as [0] and changes nothing
    else), the other users are untouched, and the deposit is approved
    with [approved_by] and [approved_at] recorded.  In every store where
    the deposit is approved, a call on its id is answered 400 "Already
    approved" and leaves the store as it is; the deposit is approved in
    every store reached later, whatever is served in between; so after
    any number of calls the balance is the one the first call wrote. *)
Theorem approve_deposit_once (req : request) (ctx : context) (s : store) (admin : identity)
    (i : Z) (dep : Deposit.t) (owner : User.t) :
  authenticated req ctx admin -> is_admin_in s admin -> reliable ctx ->
  names (field "id" (body req)) i ->
  deposit_by_id i s = Some dep -> Deposit.status dep = Deposit.pending ->
  user_by_id (Deposit.user_id dep) s = Some owner ->
  let b := Number_or_zero (User.balance owner) in
  let a := Deposit.amount dep in
  let s1 := snd (serve POST_deposits_approve req ctx s) in
  fst (serve POST_deposits_approve req ctx s) =
    Ok (res_json (JObj [("success", JBool true); ("newBalance", JNum (SFadd 53 1024 b a))]))
  /\ user_by_id (Deposit.user_id dep) s1 = Some (with_balance (SFadd 53 1024 b a) owner)
  /\ (forall j, j <> Deposit.user_id dep -> user_by_id j s1 = user_by_id j s)
  /\ deposit_by_id i s1 = Some (approved_deposit (ident_id admin) (now ctx) dep)
  /\ (forall req' ctx' admin' s' dep',
        authenticated req' ctx' admin' -> is_admin_in s' admin' -> reliable ctx' ->
        names (field "id" (body req')) i ->
        deposit_by_id i s' = Some dep' -> Deposit.status dep' = Deposit.approved ->
        serve POST_deposits_approve req' ctx' s' = (Ok (res_error 400 "Already approved"), s'))
  /\ (forall s', later s1 s' -> deposit_approved i s')
  /\ (forall n,
        user_by_id (Deposit.user_id dep) (serve_times (S n) POST_deposits_approve req ctx s)
        = Some (with_balance (SFadd 53 1024 b a) owner)).
Proof.
  intros Hauth Hadm Hrel Hn Hd Hp Ho b a s1.
  change (SFadd 53 1024 b a) with (JS.add b a).
  destruct Hadm as (approver & Happ & Hflag).
  assert (Hadm : is_admin_in s admin) by (exists approver; auto).
  pose proof (approve_pending_run req admin ctx (mkConn None s 1) i dep approver
                Hrel Hn Hd Hp Happ) as Hrun.
  cbv zeta in Hrun. cbn [current calls] in Hrun. rewrite Ho in Hrun. fold b a in Hrun.
  assert (Hserve : serve POST_deposits_approve req ctx s =
    (Ok (res_json (JObj [("success", JBool true); ("newBalance", JNum (JS.add b a))])),
     set_deposits (set_users s (credited (Deposit.user_id dep) (JS.add b a) (users s)))
       (approved_rows i (ident_id admin) (now ctx) (deposits s)))).
  { rewrite (post_deposits_approve_admin req ctx s admin Hauth Hadm Hrel), Hrun. reflexivity. }
  assert (Hadm1 : is_admin_in s1 admin).
  { subst s1. rewrite Hserve. apply is_admin_in_credited, Hadm. }
  assert (Hd1 : deposit_by_id i s1 = Some (approved_deposit (ident_id admin) (now ctx) dep)).
  { subst s1. rewrite Hserve. cbn [snd].
    change (deposits s) with
      (deposits (set_users s (credited (Deposit.user_id dep) (JS.add b a) (users s)))).
    rewrite deposit_by_id_approved.
    change (deposit_by_id i (set_users s (credited (Deposit.user_id dep) (JS.add b a) (users s))))
      with (deposit_by_id i s).
    rewrite Hd. cbn [option_map].
    rewrite (deposit_by_id_key _ _ _ Hd), Z.eqb_refl. reflexivity. }
  assert (Hlater : forall req' ctx' admin' s' dep',
        authenticated req' ctx' admin' -> is_admin_in s' admin' -> reliable ctx' ->
        names (field "id" (body req')) i ->
        deposit_by_id i s' = Some dep' -> Deposit.status dep' = Deposit.approved ->
        serve POST_deposits_approve req' ctx' s' = (Ok (res_error 400 "Already approved"), s')).
  { intros req' ctx' admin' s' dep' Hauth' Hadm' Hrel' Hn' Hd' Hp'.
    rewrite (post_deposits_approve_admin req' ctx' s' admin' Hauth' Hadm' Hrel').
    rewrite (approve_approved_run req' admin' ctx' (mkConn None s' 1) i dep' Hrel' Hn' Hd' Hp');
      reflexivity. }
  assert (Hu1 : user_by_id (Deposit.user_id dep) s1 = Some (with_balance (JS.add b a) owner)).
  { subst s1. rewrite Hserve. cbn [snd].
    change (user_by_id (Deposit.user_id dep)
              (set_deposits (set_users s (credited (Deposit.user_id dep) (JS.add b a) (users s)))
                 (approved_rows i (ident_id admin) (now ctx) (deposits s))))
      with (user_by_id (Deposit.user_id dep)
              (set_users s (credited (Deposit.user_id dep) (JS.add b a) (users s)))).
    rewrite user_by_id_credited, Ho. cbn [option_map].
    rewrite (user_by_id_key _ _ _ Ho), Z.eqb_refl. reflexivity. }
  repeat split.
  - rewrite Hserve. reflexivity.
  - exact Hu1.
  - intros j Hj. subst s1. rewrite Hserve. cbn [snd].
    change (user_by_id j
              (set_deposits (set_users s (credited (Deposit.user_id dep) (JS.add b a) (users s)))
                 (approved_rows i (ident_id admin) (now ctx) (deposits s))))
      with (user_by_id j (set_users s (credited (Deposit.user_id dep) (JS.add b a) (users s)))).
    rewrite user_by_id_credited.
    destruct (user_by_id j s) as [u|] eqn:Hu; [|reflexivity].
    cbn [option_map]. rewrite (user_by_id_key _ _ _ Hu).
    destruct (Z.eqb_spec j (Deposit.user_id dep)); [contradiction|reflexivity].
  - exact Hd1.
  - exact Hlater.
  - intros s' Hl. apply (approved_for_good i s1 s' Hl). eexists. split; [exact Hd1|reflexivity].
  - intros n. induction n as [|n IH].
    + exact Hu1.
    + assert (Hfix : forall k, serve_times (S k) POST_deposits_approve req ctx s = s1).
      { induction k as [|k IHk]; [reflexivity|].
        change (serve_times (S (S k)) POST_deposits_approve req ctx s)
          with (snd (serve POST_deposits_approve req ctx
                       (serve_times (S k) POST_deposits_approve req ctx s))).
        rewrite IHk, (Hlater req ctx admin s1 _ Hauth Hadm1 Hrel Hn Hd1 eq_refl).
        reflexivity. }
      rewrite Hfix. exact Hu1.
Qed.

(** A truthy number is stored as itself: the payout of a settlement
    with the number [d] is [d]. *)
Lemma sql_numeric_truthy_number (d : JS.number) :
  JS.truthy (JS.Num d) = true -> sql_numeric (JS.Num d) = Ok (Some d).
Proof. destruct d; cbn; intros H; try discriminate H; reflexivity. Qed.

(** *** Settlement of a bet *)

(** The run of the handler on an open bet. *)
Lemma payout_open_run (req : request) (user : identity) (ctx : context) (c : conn)
    (i : Z) (bet : Bet.t) (owner : User.t) (p : option numeric) :
  reliable ctx ->
  names (field "betId" (body req)) i ->
  JS.truthy (field "amount" (body req)) = true ->
  sql_numeric (field "amount" (body req)) = Ok p ->
  bet_by_id i (current c) = Some bet ->
  Bet.status bet = Bet.open ->
  user_by_id (Bet.user_id bet) (current c) = Some owner ->
  let s := current c in
  let newBalance :=
    JS.add (Number_or_zero (User.balance owner)) (Number (field "amount" (body req))) in
  let s1 := set_users s (credited (Bet.user_id bet) newBalance (users s)) in
  let s2 := set_bets s1 (settled_rows i p (bets s1)) in
  handle_bets_payout req user ctx c =
    (Ok (res_json (JObj [("success", JBool true)])), mkConn None s2 (6 + calls c)).
Proof.
  intros Hrel [Ht Hi] Hta Hp Hb Hst Ho. cbv zeta.
  unfold handle_bets_payout. cbv zeta. rewrite Ht, Hta. cbn [negb orb].
  run_monad Hrel.
  rewrite (select_bet_run _ _ _ Hi), Hb, Hst.
  run_monad Hrel. unfold select_user. run_monad Hrel.
  rewrite Ho. run_monad Hrel.
  rewrite update_balance_run. run_monad Hrel.
  rewrite (update_bet_settled_run _ _ p i _ Hp Hi).
  run_monad Hrel. reflexivity.
Qed.

(** The run of the handler on a bet that is settled already. *)
Lemma payout_settled_run (req : request) (user : identity) (ctx : context) (c : conn)
    (i : Z) (bet : Bet.t) :
  reliable ctx ->
  names (field "betId" (body req)) i ->
  JS.truthy (field "amount" (body req)) = true ->
  bet_by_id i (current c) = Some bet ->
  Bet.status bet = Bet.settled ->
  handle_bets_payout req user ctx c =
    (Ok (res_error 400 "Already settled"), mkConn None (current c) (3 + calls c)).
Proof.
  intros Hrel [Ht Hi] Hta Hb Hst.
  unfold handle_bets_payout. cbv zeta. rewrite Ht, Hta. cbn [negb orb].
  run_monad Hrel.
  rewrite (select_bet_run _ _ _ Hi), Hb, Hst.
  run_monad Hrel. rewrite restore_same. reflexivity.
Qed.

Lemma is_admin_in_bets (s : store) (user : identity) (i : Z) (d : JS.number)
    (bs : list Bet.t) :
  is_admin_in s user ->
  is_admin_in (set_bets (set_users s (credited i d (users s))) bs) user.
Proof.
  intros (u & Hu & Ha). unfold is_admin_in.
  change (user_by_id (ident_id user) (set_bets (set_users s (credited i d (users s))) bs))
    with (user_by_id (ident_id user) (set_users s (credited i d (users s)))).
  rewrite user_by_id_credited, Hu. cbn [option_map].
  eexists. split; [reflexivity|].
  destruct (User.id u =? i); exact Ha.
Qed.

Lemma post_bets_payout_admin (req : request) (ctx : context) (s : store) (admin : identity) :
  authenticated req ctx admin -> is_admin_in s admin -> reliable ctx ->
  serve POST_bets_payout req ctx s =
    let (r, c) := handle_bets_payout req admin ctx (mkConn None s 1) in (r, current c).
Proof.
  intros Hauth Hadm Hrel. unfold serve, run, handler, post_bets_payout.
  rewrite Hauth, adminMiddleware_admin; [reflexivity|exact Hadm|apply Hrel].
Qed.

(** C6 (as the code has it). An open bet, whose owner has balance [b],
    is settled by the first call of an admin whose amount passes the
    validation (it is truthy) and is read by the store as the NUMERIC
    [p]: the answer is 200, the owner's balance cell holds the binary64
    sum of [b] and [Number(amount)] (precision 53, round to nearest,
    ties to even; not the exact sum when that is not representable),
    the other users are untouched, and the bet is settled with payout
    [p].  In every store where the bet is settled, a call on its id with
    a truthy amount is answered 400 "Already settled" and leaves the
    store as it is; the bet is settled in every store reached later,
    whatever is served in between; so after any number of calls the
    balance is the one the first call wrote. *)
Theorem settle_bet_once (req : request) (ctx : context) (s : store) (admin : identity)
    (i : Z) (bet : Bet.t) (owner : User.t) (p : option numeric) :
  authenticated req ctx admin -> is_admin_in s admin -> reliable ctx ->
  names (field "betId" (body req)) i ->
  JS.truthy (field "amount" (body req)) = true ->
  sql_numeric (field "amount" (body req)) = Ok p ->
  bet_by_id i s = Some bet -> Bet.status bet = Bet.open ->
  user_by_id (Bet.user_id bet) s = Some owner ->
  let b := Number_or_zero (User.balance owner) in
  let a := Number (field "amount" (body req)) in
  let s1 := snd (serve POST_bets_payout req ctx s) in
  fst (serve POST_bets_payout req ctx s) = Ok (res_json (JObj [("success", JBool true)]))
  /\ user_by_id (Bet.user_id bet) s1 = Some (with_balance (SFadd 53 1024 b a) owner)
  /\ (forall j, j <> Bet.user_id bet -> user_by_id j s1 = user_by_id j s)
  /\ bet_by_id i s1 = Some (settled_bet p bet)
  /\ (forall req' ctx' admin' s' bet',
        authenticated req' ctx' admin' -> is_admin_in s' admin' -> reliable ctx' ->
        names (field "betId" (body req')) i ->
        JS.truthy (field "amount" (body req')) = true ->
        bet_by_id i s' = Some bet' -> Bet.status bet' = Bet.settled ->
        serve POST_bets_payout req' ctx' s' = (Ok (res_error 400 "Already settled"), s'))
  /\ (forall s', later s1 s' -> bet_settled i s')
  /\ (forall n,
        user_by_id (Bet.user_id bet) (serve_times (S n) POST_bets_payout req ctx s)
        = Some (with_balance (SFadd 53 1024 b a) owner)).
Proof.
  intros Hauth Hadm Hrel Hn Hta Hp Hb Hst Ho b a s1.
  change (SFadd 53 1024 b a) with (JS.add b a).
  pose proof (payout_open_run req admin ctx (mkConn None s 1) i bet owner p
                Hrel Hn Hta Hp Hb Hst Ho) as Hrun.
  cbv zeta in Hrun. cbn [current calls] in Hrun. fold b a in Hrun.
  assert (Hserve : serve POST_bets_payout req ctx s =
    (Ok (res_json (JObj [("success", JBool true)])),
     set_bets (set_users s (credited (Bet.user_id bet) (JS.add b a) (users s)))
       (settled_rows i p (bets s)))).
  { rewrite (post_bets_payout_admin req ctx s admin Hauth Hadm Hrel), Hrun. reflexivity. }
  assert (Hadm1 : is_admin_in s1 admin).
  { subst s1. rewrite Hserve. apply is_admin_in_bets, Hadm. }
  assert (Hb1 : bet_by_id i s1 = Some (settled_bet p bet)).
  { subst s1. rewrite Hserve. cbn [snd].
    change (bets s) with
      (bets (set_users s (credited (Bet.user_id bet) (JS.add b a) (users s)))).
    rewrite bet_by_id_settled.
    change (bet_by_id i (set_users s (credited (Bet.user_id bet) (JS.add b a) (users s))))
      with (bet_by_id i s).
    rewrite Hb. cbn [option_map].
    rewrite (bet_by_id_key _ _ _ Hb), Z.eqb_refl. reflexivity. }
  assert (Hlater : forall req' ctx' admin' s' bet',
        authenticated req' ctx' admin' -> is_admin_in s' admin' -> reliable ctx' ->
        names (field "betId" (body req')) i ->
        JS.truthy (field "amount" (body req')) = true ->
        bet_by_id i s' = Some bet' -> Bet.status bet' = Bet.settled ->
        serve POST_bets_payout req' ctx' s' = (Ok (res_error 400 "Already settled"), s')).
  { intros req' ctx' admin' s' bet' Hauth' Hadm' Hrel' Hn' Hta' Hb' Hst'.
    rewrite (post_bets_payout_admin req' ctx' s' admin' Hauth' Hadm' Hrel').
    rewrite (payout_settled_run req' admin' ctx' (mkConn None s' 1) i bet'
               Hrel' Hn' Hta' Hb' Hst'); reflexivity. }
  assert (Hu1 : user_by_id (Bet.user_id bet) s1 = Some (with_balance (JS.add b a) owner)).
  { subst s1. rewrite Hserve. cbn [snd].
    change (user_by_id (Bet.user_id bet)
              (set_bets (set_users s (credited (Bet.user_id bet) (JS.add b a) (users s)))
                 (settled_rows i p (bets s))))
      with (user_by_id (Bet.user_id bet)
              (set_users s (credited (Bet.user_id bet) (JS.add b a) (users s)))).
    rewrite user_by_id_credited, Ho. cbn [option_map].
    rewrite (user_by_id_key _ _ _ Ho), Z.eqb_refl. reflexivity. }
  repeat split.
  - rewrite Hserve. reflexivity.
  - exact Hu1.
  - intros j Hj. subst s1. rewrite Hserve. cbn [snd].
    change (user_by_id j
              (set_bets (set_users s (credited (Bet.user_id bet) (JS.add b a) (users s)))
                 (settled_rows i p (bets s))))
      with (user_by_id j (set_users s (credited (Bet.user_id bet) (JS.add b a) (users s)))).
    rewrite user_by_id_credited.
    destruct (user_by_id j s) as [u|] eqn:Hu; [|reflexivity].
    cbn [option_map]. rewrite (user_by_id_key _ _ _ Hu).
    destruct (Z.eqb_spec j (Bet.user_id bet)); [contradiction|reflexivity].
  - exact Hb1.
  - exact Hlater.
  - intros s' Hl. apply (settled_for_good i s1 s' Hl). eexists. split; [exact Hb1|reflexivity].
  - assert (Hfix : forall k, serve_times (S k) POST_bets_payout req ctx s = s1).
    { induction k as [|k IHk]; [reflexivity|].
      change (serve_times (S (S k)) POST_bets_payout req ctx s)
        with (snd (serve POST_bets_payout req ctx
                     (serve_times (S k) POST_bets_payout req ctx s))).
      rewrite IHk, (Hlater req ctx admin s1 _ Hauth Hadm1 Hrel Hn Hta Hb1 eq_refl).
      reflexivity. }
    intros n. rewrite Hfix. exact Hu1.
Qed.

(** *** Order on numbers *)




Lemma positive_not_le_zero (x : JS.number) :
  JS.lt JS.zero x = true -> JS.le x JS.zero = false.
Proof.
  destruct x as [s|s| |s m e]; cbn; try congruence; destruct s; cbn; congruence.
Qed.

(** A body field whose [Number] is positive is truthy. *)
Lemma positive_truthy (v : JS.value) :
  JS.lt JS.zero (Number v) = true -> JS.truthy v = true.
Proof.
  destruct v as [| |b|d|s]; cbn; try discriminate.
  - destruct b; cbn; [reflexivity|discriminate].
  - destruct d; cbn; congruence.
  - destruct (String.eqb s ""); cbn; [discriminate|reflexivity].
Qed.

(** *** Placement of a bet *)

Lemma insert_bet_run (uid : Z) (match_id stake : JS.value) (t mid : Z) (st : numeric)
    (s : store) (u : User.t) (m : Match.t) :
  sql_int match_id = Ok (Some mid) ->
  sql_numeric stake = Ok (Some st) ->
  user_by_id uid s = Some u ->
  match_by_id mid s = Some m ->
  insert_bet uid match_id stake t s =
    (Ok (new_bet s uid mid st t), with_new_bet s (new_bet s uid mid st t)).
Proof.
  intros Hm Hs Hu Hmatch. unfold insert_bet, with_param.
  rewrite Hm, Hs, Hu, Hmatch. reflexivity.
Qed.

(** The request passes the validation of [POST /api/bets/place]. *)
Lemma place_bet_valid (req : request) (mid : Z) :
  names (field "match_id" (body req)) mid ->
  JS.lt JS.zero (Number (field "stake" (body req))) = true ->
  negb (JS.truthy (field "match_id" (body req)))
  || negb (JS.truthy (field "stake" (body req)))
  || JS.le (Number (field "stake" (body req))) JS.zero = false.
Proof.
  intros [Ht _] Hpos.
  rewrite Ht, (positive_truthy _ Hpos), (positive_not_le_zero _ Hpos). reflexivity.
Qed.

(** The run of the handler on a request that passes the validation,
    when the balance is not below the stake. *)
Lemma place_bet_accepted_run (req : request) (user : identity) (ctx : context) (c : conn)
    (u : User.t) (mid : Z) (m : Match.t) (st : numeric) :
  reliable ctx ->
  user_by_id (ident_id user) (current c) = Some u ->
  negb (JS.truthy (field "match_id" (body req)))
  || negb (JS.truthy (field "stake" (body req)))
  || JS.le (Number (field "stake" (body req))) JS.zero = false ->
  sql_int (field "match_id" (body req)) = Ok (Some mid) ->
  match_by_id mid (current c) = Some m ->
  sql_numeric (field "stake" (body req)) = Ok (Some st) ->
  JS.lt (Number_or_zero (User.balance u)) (Number (field "stake" (body req))) = false ->
  let s := current c in
  let newBalance := JS.sub (Number_or_zero (User.balance u)) (Number (field "stake" (body req))) in
  let s1 := set_users s (credited (ident_id user) newBalance (users s)) in
  let bet := new_bet s (ident_id user) mid st (now ctx) in
  handle_bets_place req user ctx c =
    (Ok (res_json (JObj [("success", JBool true); ("betId", JInt (Bet.id bet));
                         ("newBalance", JNum newBalance)])),
     mkConn None (with_new_bet s1 bet) (6 + calls c)).
Proof.
  intros Hrel Hu Hvalid Hi Hm Hst Hfund. cbv zeta.
  unfold handle_bets_place. cbv zeta. rewrite Hvalid.
  run_monad Hrel. unfold select_user. run_monad Hrel.
  rewrite Hu, Hfund. run_monad Hrel.
  rewrite (select_match_run _ _ _ Hi), Hm. run_monad Hrel.
  rewrite update_balance_run. run_monad Hrel.
  erewrite (insert_bet_run _ _ _ _ mid st _ _ m Hi Hst);
    [ | rewrite user_by_id_credited, Hu; reflexivity | exact Hm ].
  run_monad Hrel. reflexivity.
Qed.

(** The same, for a positive stake. *)
Lemma place_bet_funded_run (req : request) (user : identity) (ctx : context) (c : conn)
    (u : User.t) (mid : Z) (m : Match.t) (st : numeric) :
  reliable ctx ->
  user_by_id (ident_id user) (current c) = Some u ->
  names (field "match_id" (body req)) mid ->
  match_by_id mid (current c) = Some m ->
  JS.lt JS.zero (Number (field "stake" (body req))) = true ->
  sql_numeric (field "stake" (body req)) = Ok (Some st) ->
  JS.lt (Number_or_zero (User.balance u)) (Number (field "stake" (body req))) = false ->
  let s := current c in
  let newBalance := JS.sub (Number_or_zero (User.balance u)) (Number (field "stake" (body req))) in
  let s1 := set_users s (credited (ident_id user) newBalance (users s)) in
  let bet := new_bet s (ident_id user) mid st (now ctx) in
  handle_bets_place req user ctx c =
    (Ok (res_json (JObj [("success", JBool true); ("betId", JInt (Bet.id bet));
                         ("newBalance", JNum newBalance)])),
     mkConn None (with_new_bet s1 bet) (6 + calls c)).
Proof.
  intros Hrel Hu Hn Hm Hpos Hst Hfund.
  apply (place_bet_accepted_run req user ctx c u mid m st Hrel Hu
           (place_bet_valid req mid Hn Hpos) (proj2 Hn) Hm Hst Hfund).
Qed.



(** *** Atomicity of the placement *)

Lemma same_rows_refl (s : store) : same_rows s s.
Proof. repeat split. Qed.

Lemma same_rows_restore (s0 s : store) : same_rows s0 (restore s0 s).
Proof. repeat split. Qed.

Lemma insert_bet_cases (uid : Z) (match_id stake : JS.value) (t : Z) (s : store) :
  (exists b, insert_bet uid match_id stake t s = (Ok b, with_new_bet s b) /\
             Bet.id b = bets_id_seq s /\ Bet.user_id b = uid /\
             Bet.status b = Bet.open /\ Bet.payout b = Some JS.zero)
  \/ (exists e s', insert_bet uid match_id stake t s = (Throw e, s')).
Proof.
  unfold insert_bet, with_param.
  destruct (sql_int match_id) as [mid|e]; [|right; eauto].
  destruct (sql_numeric stake) as [[st|]|e]; [|right; eauto|right; eauto].
  destruct (user_by_id uid s); [|right; destruct mid as [mid|]; [destruct (match_by_id mid s)|]; eauto].
  destruct mid as [mid|]; [destruct (match_by_id mid s)|].
  - left. eexists. repeat split.
  - right. eauto.
  - left. eexists. repeat split.
Qed.

Lemma select_match_reads (match_id : JS.value) (s : store) :
  snd (select_match match_id s) = s.
Proof.
  unfold select_match, with_param.
  destruct (sql_int match_id) as [[mid|]|e]; reflexivity.
Qed.

(** The handler, whatever fails: both effects or none. *)
Lemma handle_bets_place_atomic (req : request) (user : identity) (ctx : context) (s : store) :
  let (answer, c') := handle_bets_place req user ctx (mkConn None s 0) in
  debit_and_bet_or_nothing s (ident_id user) answer (current c').
Proof.
  unfold handle_bets_place. cbv zeta.
  destruct (negb (JS.truthy (field "match_id" (body req)))
            || negb (JS.truthy (field "stake" (body req)))
            || JS.le (Number (field "stake" (body req))) JS.zero).
  { cbn. right. split; [discriminate|apply same_rows_refl]. }
  unfold try_catch, bind, ask, BEGIN, COMMIT, ROLLBACK, client_query, select_user, ret.
  cbn [current calls snapshot].
  destruct (fails ctx 0).
  { cbn. right. split; [discriminate|apply same_rows_refl]. }
  cbn [current calls snapshot].
  destruct (fails ctx 1).
  { cbn. right. split; [discriminate|apply same_rows_restore]. }
  cbn [current calls snapshot].
  destruct (user_by_id (ident_id user) s) as [u|].
  2:{ cbn. right. split; [discriminate|apply same_rows_restore]. }
  destruct (JS.lt (Number_or_zero (User.balance u)) (Number (field "stake" (body req)))).
  { cbn. right. split; [discriminate|apply same_rows_restore]. }
  cbn [current calls snapshot].
  destruct (fails ctx 2).
  { cbn. right. split; [discriminate|apply same_rows_restore]. }
  pose proof (select_match_reads (field "match_id" (body req)) s) as Hread.
  destruct (select_match (field "match_id" (body req)) s) as [[[m|]|e] s'];
    cbn [snd] in Hread; subst s'; cbn [current calls snapshot];
    try (cbn; right; split; [discriminate|apply same_rows_restore]).
  destruct (fails ctx 3).
  { cbn. right. split; [discriminate|apply same_rows_restore]. }
  rewrite update_balance_run. cbn [current calls snapshot].
  destruct (fails ctx 4).
  { cbn. right. split; [discriminate|apply same_rows_restore]. }
  match goal with
  | |- context [insert_bet ?a ?b ?c ?d ?e] =>
      destruct (insert_bet_cases a b c d e) as [(bet & -> & Hid & Huid & Hst & Hpay)|(e' & s' & ->)]
  end.
  2:{ cbn. right. split; [discriminate|apply same_rows_restore]. }
  cbn [current calls snapshot].
  destruct (fails ctx 5).
  { cbn. right. split; [discriminate|apply same_rows_restore]. }
  cbn. left. split; [reflexivity|].
  eexists _, bet. repeat split; assumption.
Qed.

(** C5. Whatever the request and whichever call to the store fails,
    [POST /api/bets/place] answers, and either the answer is 200 and
    the debit and the bet are both in the store, or the answer is an
    error (validation, 401, user or match not found, insufficient
    balance, a failure before the commit) and no row of any table has
    changed. *)
Theorem place_bet_atomic (req : request) (ctx : context) (s : store) :
  exists answer s1,
    serve POST_bets_place req ctx s = (answer, s1) /\
    ((exists resp, answer = Ok resp /\ status resp = 401 /\ s1 = s) \/
     (exists user, authenticated req ctx user /\
                   debit_and_bet_or_nothing s (ident_id user) answer s1)).
Proof.
  unfold serve, run, handler, post_bets_place.
  destruct (authMiddleware_cases req ctx) as [[user Hu]|[resp [H401 Hr]]].
  - rewrite Hu.
    pose proof (handle_bets_place_atomic req user ctx s) as H.
    destruct (handle_bets_place req user ctx (mkConn None s 0)) as [answer c'].
    exists answer, (current c'). split; [reflexivity|].
    right. exists user. split; [exact Hu|exact H].
  - rewrite Hr. exists (Ok resp), s. split; [reflexivity|].
    left. exists resp. repeat split. exact H401.
Qed.

(** *** The match table is only ever appended to *)

Lemma insert_match_appends (home away odds : JS.value) (t : Z) (s : store) :
  exists added, matches (snd (insert_match home away odds t s)) = (matches s ++ added)%list.
Proof.
  unfold insert_match, with_param.
  destruct (sql_numeric odds) as [o|e]; [|exists []; symmetry; apply app_nil_r].
  destruct (param_text home), (param_text away), o;
    try (exists []; symmetry; apply app_nil_r).
  eexists [_]. reflexivity.
Qed.

Lemma post_matches_appends (req : request) (ctx : context) (s : store) :
  exists added, matches (snd (serve POST_matches req ctx s)) = (matches s ++ added)%list.
Proof.
  assert (Hnil : exists added, matches s = (matches s ++ added)%list)
    by (exists []; symmetry; apply app_nil_r).
  unfold serve, run, handler, post_matches.
  destruct (authMiddleware_cases req ctx) as [[user Hu]|[resp [_ Hr]]];
    [rewrite Hu|rewrite Hr; exact Hnil].
  rewrite adminMiddleware_run. cbn [current calls].
  destruct (fails ctx 0); [exact Hnil|].
  destruct (user_by_id (ident_id user) s) as [u|]; [|exact Hnil].
  destruct (User.is_admin u) as [[|]|]; try exact Hnil.
  unfold handle_matches. cbv zeta.
  destruct (negb _ || negb _ || negb _); [exact Hnil|].
  unfold try_catch, bind, ask, query, client_query, ret, after_call.
  cbn [current calls snapshot].
  destruct (fails ctx 1); [exact Hnil|].
  pose proof (insert_match_appends (field "home" (body req)) (field "away" (body req))
                (field "odds" (body req)) (now ctx) s) as Happ.
  destruct (insert_match _ _ _ _ s) as [[m|e] s']; exact Happ.
Qed.

(** C8. No route other than [POST /api/matches] changes the match
    table, and that route only appends to it: a match, once created,
    is found with the same home, away, odds and created_at after every
    request. *)
Theorem matches_immutable (r : route) (req : request) (ctx : context) (s : store) :
  (r <> POST_matches -> matches (snd (serve r req ctx s)) = matches s)
  /\ (exists added, matches (snd (serve r req ctx s)) = (matches s ++ added)%list)
  /\ (forall i m, match_by_id i s = Some m ->
                  match_by_id i (snd (serve r req ctx s)) = Some m).
Proof.
  assert (Hkeep : r <> POST_matches -> matches (snd (serve r req ctx s)) = matches s).
  { intros Hr. unfold serve, run.
    pose proof (keeps_handler r req (matches s) Hr ctx (mkConn None s 0)) as H.
    destruct (handler r req ctx (mkConn None s 0)) as [answer c'].
    cbn [snd] in *. apply H. split; [reflexivity|exact I]. }
  assert (Happ : exists added, matches (snd (serve r req ctx s)) = (matches s ++ added)%list).
  { destruct r; try (exists []; rewrite Hkeep by discriminate; symmetry; apply app_nil_r).
    apply post_matches_appends. }
  split; [exact Hkeep|]. split; [exact Happ|].
  intros i m Hm. destruct Happ as [added Happ].
  unfold match_by_id in *. rewrite Happ. apply find_app_found, Hm.
Qed.

(** *** The credential stays in the store *)

Lemma public_row_erased (u : User.t) :
  user_row public_columns u = user_row public_columns (erase_hash u).
Proof. reflexivity. Qed.

Lemma login_row_stripped (u : User.t) :
  delete_key "password_hash"
    (user_row [col_id; col_email; col_password_hash; col_full_name; col_balance; col_is_admin] u)
  = user_row public_columns (erase_hash u).
Proof. reflexivity. Qed.

Lemma answers_without_hash_keys (t : Z) (u : User.t) (resp : response) :
  answers_without_hash t u resp ->
  user_keys resp = Some ["id"; "email"; "full_name"; "balance"; "is_admin"].
Proof. unfold user_keys. intros [H|H]; rewrite H; reflexivity. Qed.

Lemma register_hides_hash (req : request) (ctx : context) (s : store) (resp : response) :
  fst (serve POST_register req ctx s) = Ok resp -> status resp = 200 ->
  exists u, In u (users (snd (serve POST_register req ctx s))) /\
            answers_without_hash (now ctx) u resp.
Proof.
  unfold serve, run, handler, post_register. cbv zeta.
  destruct (negb _ || negb _).
  { cbn. intros H; inversion H; subst; discriminate. }
  unfold try_catch, bind, ask, lift, query, client_query, ret. cbn [current calls snapshot].
  destruct (field "password" (body req)) as [| |b|d|p];
    try (cbn; intros H; inversion H; subst; discriminate).
  assert (Hins : forall e h f a t u,
    fst (insert_user e h f a t s) = Ok u -> In u (users (snd (insert_user e h f a t s)))).
  { intros e h f a t u. unfold insert_user.
    destruct (param_text e); [|discriminate].
    destruct (existsb _ _); [discriminate|].
    cbn. intros H; inversion H; subst. apply in_or_app. right. left. reflexivity. }
  destruct ADMIN_EMAIL as [a|].
  - destruct (field "email" (body req)) as [| |b|d|e];
      try (cbn; intros H; inversion H; subst; discriminate).
    destruct (fails ctx 0); [cbn; intros H; inversion H; subst; discriminate|].
    match goal with
    | |- context [insert_user ?e ?h ?f ?a ?t s] =>
        pose proof (Hins e h f a t) as Hin;
        destruct (insert_user e h f a t s) as [[u|err] s']
    end.
    + cbn. intros H _; inversion H; subst. exists u. split; [apply Hin; reflexivity|].
      right. reflexivity.
    + destruct err; cbn; intros H; inversion H; subst; discriminate.
  - destruct (fails ctx 0); [cbn; intros H; inversion H; subst; discriminate|].
    match goal with
    | |- context [insert_user ?e ?h ?f ?a ?t s] =>
        pose proof (Hins e h f a t) as Hin;
        destruct (insert_user e h f a t s) as [[u|err] s']
    end.
    + cbn. intros H _; inversion H; subst. exists u. split; [apply Hin; reflexivity|].
      right. reflexivity.
    + destruct err; cbn; intros H; inversion H; subst; discriminate.
Qed.

Lemma user_by_email_in (e : string) (s : store) (u : User.t) :
  user_by_email e s = Some u -> In u (users s).
Proof. intros H. apply find_some in H. apply H. Qed.

Lemma user_by_id_in (i : Z) (s : store) (u : User.t) :
  user_by_id i s = Some u -> In u (users s).
Proof. intros H. apply find_some in H. apply H. Qed.

Lemma login_hides_hash (req : request) (ctx : context) (s : store) (resp : response) :
  fst (serve POST_login req ctx s) = Ok resp -> status resp = 200 ->
  exists u, In u (users (snd (serve POST_login req ctx s))) /\
            answers_without_hash (now ctx) u resp.
Proof.
  unfold serve, run, handler, post_login. cbv zeta.
  destruct (negb _ || negb _).
  { cbn. intros H; inversion H; subst; discriminate. }
  unfold try_catch, bind, ask, lift, query, client_query, select_user_by_email, ret.
  cbn [current calls snapshot].
  destruct (fails ctx 0); [cbn; intros H; inversion H; subst; discriminate|].
  destruct (param_text (field "email" (body req))) as [e|];
    [|cbn; intros H; inversion H; subst; discriminate].
  destruct (user_by_email e s) as [u|] eqn:Hu;
    [|cbn; intros H; inversion H; subst; discriminate].
  cbn [current calls snapshot].
  destruct (field "password" (body req)) as [| |b|d|p];
    try (cbn; intros H; inversion H; subst; discriminate).
  destruct (bcrypt_compare p (User.password_hash u));
    [|cbn; intros H; inversion H; subst; discriminate].
  cbn [negb fst snd current]. intros H _. inversion H; subst.
  exists u. split; [exact (user_by_email_in _ _ _ Hu)|].
  right. reflexivity.
Qed.

Lemma me_hides_hash (req : request) (ctx : context) (s : store) (resp : response) :
  fst (serve GET_me req ctx s) = Ok resp -> status resp = 200 ->
  exists u, In u (users (snd (serve GET_me req ctx s))) /\
            answers_without_hash (now ctx) u resp.
Proof.
  destruct (authMiddleware_cases req ctx) as [[user Hu]|[r401 [H401 Hr]]].
  2:{ unfold serve, run, handler, get_me. rewrite Hr. cbn.
      intros H; inversion H; subst. congruence. }
  assert (E : serve GET_me req ctx s =
              let (r, c) := handle_me user ctx (mkConn None s 0) in (r, current c)).
  { unfold serve, run, handler, get_me. rewrite Hu. reflexivity. }
  rewrite E. clear E. unfold handle_me.
  unfold try_catch, bind, query, client_query, select_user, ret.
  cbn [current calls snapshot].
  destruct (fails ctx 0); [cbn; intros H; inversion H; subst; discriminate|].
  destruct (user_by_id (ident_id user) s) as [u|] eqn:Hrow;
    [|cbn; intros H; inversion H; subst; discriminate].
  cbn. intros H _. inversion H; subst.
  exists u. split; [exact (user_by_id_in _ _ _ Hrow)|].
  left. reflexivity.
Qed.

(** C9. A 200 answer of Register, Login or Profile is made of a user
    row without its credential: the [user] object has the keys id,
    email, full_name, balance and is_admin and no other, its values and
    the token are those computed from the row with [password_hash]
    erased. *)
Theorem password_hash_not_exposed (r : route) (req : request) (ctx : context) (s : store)
    (resp : response) :
  r = POST_register \/ r = POST_login \/ r = GET_me ->
  fst (serve r req ctx s) = Ok resp -> status resp = 200 ->
  user_keys resp = Some ["id"; "email"; "full_name"; "balance"; "is_admin"]
  /\ exists u, In u (users (snd (serve r req ctx s))) /\
               answers_without_hash (now ctx) u resp.
Proof.
  intros Hr Hresp H200.
  assert (H : exists u, In u (users (snd (serve r req ctx s))) /\
                        answers_without_hash (now ctx) u resp).
  { destruct Hr as [->|[->| ->]].
    - apply register_hides_hash; assumption.
    - apply login_hides_hash; assumption.
    - apply me_hides_hash; assumption. }
  split; [|exact H].
  destruct H as (u & _ & Hu). exact (answers_without_hash_keys _ _ _ Hu).
Qed.

(** *** The arithmetic of the three routes *)

Lemma user_by_id_after_credit (s : store) (i : Z) (d : JS.number) (u : User.t) :
  user_by_id i s = Some u ->
  user_by_id i (set_users s (credited i d (users s))) = Some (with_balance d u).
Proof.
  intros Hu. rewrite user_by_id_credited, Hu. cbn [option_map].
  rewrite (user_by_id_key _ _ _ Hu), Z.eqb_refl. reflexivity.
Qed.

Lemma approve_pending_serve (req : request) (ctx : context) (s : store) (admin : identity)
    (i : Z) (dep : Deposit.t) (owner : User.t) :
  authenticated req ctx admin -> is_admin_in s admin -> reliable ctx ->
  names (field "id" (body req)) i ->
  deposit_by_id i s = Some dep -> Deposit.status dep = Deposit.pending ->
  user_by_id (Deposit.user_id dep) s = Some owner ->
  let newBal := JS.add (Number_or_zero (User.balance owner)) (Deposit.amount dep) in
  snd (serve POST_deposits_approve req ctx s) =
    set_deposits (set_users s (credited (Deposit.user_id dep) newBal (users s)))
      (approved_rows i (ident_id admin) (now ctx) (deposits s)).
Proof.
  intros Hauth Hadm Hrel Hn Hd Hp Ho newBal.
  destruct Hadm as (approver & Happ & Hflag).
  assert (Hadm : is_admin_in s admin) by (exists approver; auto).
  pose proof (approve_pending_run req admin ctx (mkConn None s 1) i dep approver
                Hrel Hn Hd Hp Happ) as Hrun.
  cbv zeta in Hrun. cbn [current calls] in Hrun. rewrite Ho in Hrun.
  rewrite (post_deposits_approve_admin req ctx s admin Hauth Hadm Hrel), Hrun. reflexivity.
Qed.

Lemma payout_open_serve (req : request) (ctx : context) (s : store) (admin : identity)
    (i : Z) (bet : Bet.t) (owner : User.t) (p : option numeric) :
  authenticated req ctx admin -> is_admin_in s admin -> reliable ctx ->
  names (field "betId" (body req)) i ->
  JS.truthy (field "amount" (body req)) = true ->
  sql_numeric (field "amount" (body req)) = Ok p ->
  bet_by_id i s = Some bet -> Bet.status bet = Bet.open ->
  user_by_id (Bet.user_id bet) s = Some owner ->
  let newBalance :=
    JS.add (Number_or_zero (User.balance owner)) (Number (field "amount" (body req))) in
  snd (serve POST_bets_payout req ctx s) =
    set_bets (set_users s (credited (Bet.user_id bet) newBalance (users s)))
      (settled_rows i p (bets s)).
Proof.
  intros Hauth Hadm Hrel Hn Hta Hp Hb Hst Ho newBalance.
  pose proof (payout_open_run req admin ctx (mkConn None s 1) i bet owner p
                Hrel Hn Hta Hp Hb Hst Ho) as Hrun.
  cbv zeta in Hrun. cbn [current calls] in Hrun.
  rewrite (post_bets_payout_admin req ctx s admin Hauth Hadm Hrel), Hrun. reflexivity.
Qed.

Lemma place_funded_serve (req : request) (ctx : context) (s : store) (user : identity)
    (u : User.t) (mid : Z) (m : Match.t) (st : numeric) :
  authenticated req ctx user -> reliable ctx ->
  user_by_id (ident_id user) s = Some u ->
  names (field "match_id" (body req)) mid ->
  match_by_id mid s = Some m ->
  JS.lt JS.zero (Number (field "stake" (body req))) = true ->
  sql_numeric (field "stake" (body req)) = Ok (Some st) ->
  JS.lt (Number_or_zero (User.balance u)) (Number (field "stake" (body req))) = false ->
  let newBalance :=
    JS.sub (Number_or_zero (User.balance u)) (Number (field "stake" (body req))) in
  snd (serve POST_bets_place req ctx s) =
    with_new_bet (set_users s (credited (ident_id user) newBalance (users s)))
      (new_bet s (ident_id user) mid st (now ctx)).
Proof.
  intros Hauth Hrel Hu Hn Hm Hpos Hst Hf newBalance.
  unfold serve, run, handler, post_bets_place. rewrite Hauth.
  rewrite (place_bet_funded_run req user ctx (mkConn None s 0) u mid m st
             Hrel Hu Hn Hm Hpos Hst Hf). reflexivity.
Qed.

(** C7 (as the code has it). The three routes compute on JavaScript
    numbers: the balance written is the IEEE-754 binary64 sum or
    difference (precision 53, round to nearest, ties to even) of the
    operands as [Number] reads them, which is the exact sum or
    difference only when that is representable. *)
Theorem balance_arithmetic_is_binary64 :
  (forall req ctx s admin i dep owner,
      authenticated req ctx admin -> is_admin_in s admin -> reliable ctx ->
      names (field "id" (body req)) i ->
      deposit_by_id i s = Some dep -> Deposit.status dep = Deposit.pending ->
      user_by_id (Deposit.user_id dep) s = Some owner ->
      option_map User.balance
        (user_by_id (Deposit.user_id dep) (snd (serve POST_deposits_approve req ctx s)))
      = Some (Some (numeric_of_number
           (SFadd 53 1024 (Number_or_zero (User.balance owner))
                          (Number_cell (Some (Deposit.amount dep)))))))
  /\ (forall req ctx s user u mid m st,
      authenticated req ctx user -> reliable ctx ->
      user_by_id (ident_id user) s = Some u ->
      names (field "match_id" (body req)) mid ->
      match_by_id mid s = Some m ->
      JS.lt JS.zero (Number (field "stake" (body req))) = true ->
      sql_numeric (field "stake" (body req)) = Ok (Some st) ->
      JS.lt (Number_or_zero (User.balance u)) (Number (field "stake" (body req))) = false ->
      option_map User.balance
        (user_by_id (ident_id user) (snd (serve POST_bets_place req ctx s)))
      = Some (Some (numeric_of_number
           (SFsub 53 1024 (Number_or_zero (User.balance u))
                          (Number (field "stake" (body req)))))))
  /\ (forall req ctx s admin i bet owner p,
      authenticated req ctx admin -> is_admin_in s admin -> reliable ctx ->
      names (field "betId" (body req)) i ->
      JS.truthy (field "amount" (body req)) = true ->
      sql_numeric (field "amount" (body req)) = Ok p ->
      bet_by_id i s = Some bet -> Bet.status bet = Bet.open ->
      user_by_id (Bet.user_id bet) s = Some owner ->
      option_map User.balance
        (user_by_id (Bet.user_id bet) (snd (serve POST_bets_payout req ctx s)))
      = Some (Some (numeric_of_number
           (SFadd 53 1024 (Number_or_zero (User.balance owner))
                          (Number (field "amount" (body req))))))).
Proof.
  split; [|split].
  - intros req ctx s admin i dep owner Hauth Hadm Hrel Hn Hd Hp Ho.
    rewrite (approve_pending_serve req ctx s admin i dep owner Hauth Hadm Hrel Hn Hd Hp Ho).
    change (user_by_id (Deposit.user_id dep) (set_deposits ?x ?y))
      with (user_by_id (Deposit.user_id dep) x).
    rewrite (user_by_id_after_credit _ _ _ _ Ho). reflexivity.
  - intros req ctx s user u mid m st Hauth Hrel Hu Hn Hm Hpos Hst Hf.
    rewrite (place_funded_serve req ctx s user u mid m st Hauth Hrel Hu Hn Hm Hpos Hst Hf).
    change (user_by_id (ident_id user) (with_new_bet ?x ?y))
      with (user_by_id (ident_id user) x).
    rewrite (user_by_id_after_credit _ _ _ _ Hu). reflexivity.
  - intros req ctx s admin i bet owner p Hauth Hadm Hrel Hn Hta Hp Hb Hst Ho.
    rewrite (payout_open_serve req ctx s admin i bet owner p
               Hauth Hadm Hrel Hn Hta Hp Hb Hst Ho).
    change (user_by_id (Bet.user_id bet) (set_bets ?x ?y))
      with (user_by_id (Bet.user_id bet) x).
    rewrite (user_by_id_after_credit _ _ _ _ Ho). reflexivity.
Qed.

(** *** The gates in front of the handlers *)

Lemma protected_route_run (r : route) (req : request) :
  protected_route r = true ->
  handler r req = authMiddleware req (behind_auth r req).
Proof. destruct r; intros H; try discriminate H; reflexivity. Qed.

(** X2. A request without a valid token is answered 401 by every
    protected route, and the store is left as it was. *)
Theorem unauthenticated_is_refused (r : route) (req : request) (ctx : context) (s : store) :
  protected_route r = true ->
  (forall user, ~ authenticated req ctx user) ->
  exists resp, serve r req ctx s = (Ok resp, s) /\ status resp = 401.
Proof.
  intros Hr Hno. unfold serve, run. rewrite (protected_route_run r req Hr).
  destruct (authMiddleware_cases req ctx) as [[user Hu]|[resp [H401 Hrun]]].
  - destruct (Hno user Hu).
  - rewrite Hrun. exists resp. split; [reflexivity|exact H401].
Qed.

(** X3. A caller whose row is missing or whose [is_admin] is not true is
    answered 403 "Admin only" by every admin route, and the store is
    left as it was. *)
Theorem admin_only (r : route) (req : request) (ctx : context) (s : store) (user : identity) :
  admin_route r = true ->
  authenticated req ctx user -> ~ is_admin_in s user -> fails ctx 0 = false ->
  serve r req ctx s = (Ok (res_error 403 "Admin only"), s).
Proof.
  intros Hr Hauth Hno Hf. unfold serve, run.
  assert (Hgate : forall next,
            adminMiddleware user next ctx (mkConn None s 0)
            = (Ok (res_error 403 "Admin only"), mkConn None s 1)).
  { intros next. rewrite adminMiddleware_run. cbn [calls current]. rewrite Hf.
    destruct (user_by_id (ident_id user) s) as [u|] eqn:Hu; [|reflexivity].
    destruct (User.is_admin u) as [[|]|] eqn:Ha; try reflexivity.
    destruct Hno. exists u. split; assumption. }
  destruct r; try discriminate Hr; cbn [handler];
    unfold post_matches, post_deposits_approve, post_bets_payout,
      get_admin_deposits, get_admin_users;
    rewrite Hauth, Hgate; reflexivity.
Qed.

(** *** Deposit requests *)

(** X4. A deposit request whose amount is falsy or not above 0 is
    answered 400 "Invalid amount" (401 without a valid token) and the
    store is left as it was. *)
Theorem request_deposit_rejects_invalid_amount (req : request) (ctx : context) (s : store) :
  negb (JS.truthy (field "amount" (body req)))
  || JS.le (Number (field "amount" (body req))) JS.zero = true ->
  snd (serve POST_deposits_request req ctx s) = s
  /\ (forall user, authenticated req ctx user ->
        fst (serve POST_deposits_request req ctx s) = Ok (res_error 400 "Invalid amount")).
Proof.
  intros Hbad.
  assert (Hh : forall user, handle_deposits_request req user = ret (res_error 400 "Invalid amount")).
  { intros user. unfold handle_deposits_request. cbv zeta. rewrite Hbad. reflexivity. }
  assert (Hrun : forall user, authenticated req ctx user ->
            serve POST_deposits_request req ctx s = (Ok (res_error 400 "Invalid amount"), s)).
  { intros user Hu. unfold serve, run, handler, post_deposits_request.
    rewrite Hu, Hh. reflexivity. }
  destruct (authMiddleware_cases req ctx) as [[user Hu]|[resp [_ Hr]]].
  - rewrite (Hrun user Hu). split; [reflexivity|]. intros _ _. reflexivity.
  - split.
    + unfold serve, run, handler, post_deposits_request. rewrite Hr. reflexivity.
    + intros user Hu. destruct (authenticated_not_refused req ctx user resp Hu Hr).
Qed.


(** *** Registration *)

(** X6. Registering an email that a user already has is answered 409
    "Email already exists" and no row changes. *)
Theorem register_duplicate_email (req : request) (ctx : context) (s : store)
    (e p : string) (u : User.t) :
  field "email" (body req) = JS.Str e -> field "password" (body req) = JS.Str p ->
  e <> "" -> p <> "" ->
  user_by_email e s = Some u ->
  fails ctx 0 = false ->
  fst (serve POST_register req ctx s) = Ok (res_error 409 "Email already exists")
  /\ same_rows s (snd (serve POST_register req ctx s)).
Proof.
  intros He Hp Hne Hnp Hu Hf.
  unfold serve, run, handler, post_register. cbv zeta. rewrite He, Hp.
  cbn [JS.truthy]. apply String.eqb_neq in Hne, Hnp. rewrite Hne, Hnp. cbn [negb orb].
  unfold try_catch, bind, ask, lift, query, client_query, ret.
  cbn [current calls snapshot].
  assert (Hins : forall h f a t,
            insert_user (JS.Str e) h f a t s
            = (Throw UniqueViolation,
               mkStore (users s) (matches s) (bets s) (deposits s)
                       (users_id_seq s + 1) (matches_id_seq s) (bets_id_seq s)
                       (deposits_id_seq s))).
  { intros h f a t. unfold insert_user. cbn [param_text].
    unfold user_by_email in Hu. rewrite (find_some_existsb _ _ _ Hu). reflexivity. }
  destruct ADMIN_EMAIL as [a|]; rewrite Hf, Hins; cbn; repeat split.
Qed.

(** *** Bets on matches that do not exist, and stakes that are not numbers *)

(** X7. A bet on a match id that no match has, by a caller whose balance
    covers the stake, is answered 404 "Match not found" and the store is
    left as it was. *)
Theorem place_bet_unknown_match (req : request) (ctx : context) (s : store)
    (user : identity) (u : User.t) (mid : Z) :
  authenticated req ctx user -> reliable ctx ->
  user_by_id (ident_id user) s = Some u ->
  names (field "match_id" (body req)) mid ->
  match_by_id mid s = None ->
  JS.lt JS.zero (Number (field "stake" (body req))) = true ->
  JS.lt (Number_or_zero (User.balance u)) (Number (field "stake" (body req))) = false ->
  serve POST_bets_place req ctx s = (Ok (res_error 404 "Match not found"), s).
Proof.
  intros Hauth Hrel Hu Hn Hm Hpos Hfund.
  unfold serve, run, handler, post_bets_place. rewrite Hauth.
  unfold handle_bets_place. cbv zeta. rewrite (place_bet_valid req mid Hn Hpos).
  destruct Hn as [Ht Hi].
  run_monad Hrel. unfold select_user. run_monad Hrel.
  rewrite Hu, Hfund. run_monad Hrel.
  rewrite (select_match_run _ _ _ Hi), Hm. run_monad Hrel.
  rewrite restore_same. reflexivity.
Qed.

Lemma sub_nan (b : JS.number) : JS.sub b JS.NaN = JS.NaN.
Proof. destruct b; reflexivity. Qed.

Lemma nan_not_below (x : JS.number) : JS.lt JS.NaN x = false.
Proof. reflexivity. Qed.

(** X8. Where ["NaN"] reads as NaN (JavaScript's [Number]) and as the
    NUMERIC NaN (PostgreSQL), a bet whose stake is the text ["NaN"]
    passes the validation and the balance test whatever the balance is:
    the answer is 200, the balance written is NaN, and a NaN balance is
    not below any stake. *)
Theorem nan_stake_is_accepted (req : request) (ctx : context) (s : store)
    (user : identity) (u : User.t) (mid : Z) (m : Match.t) :
  StringToNumber "NaN" = JS.NaN -> numeric_in "NaN" = Some JS.NaN ->
  authenticated req ctx user -> reliable ctx ->
  user_by_id (ident_id user) s = Some u ->
  names (field "match_id" (body req)) mid ->
  match_by_id mid s = Some m ->
  field "stake" (body req) = JS.Str "NaN" ->
  let s1 := snd (serve POST_bets_place req ctx s) in
  fst (serve POST_bets_place req ctx s) =
    Ok (res_json (JObj [("success", JBool true); ("betId", JInt (bets_id_seq s));
                        ("newBalance", JNum JS.NaN)]))
  /\ option_map User.balance (user_by_id (ident_id user) s1) = Some (Some JS.NaN)
  /\ (forall stake, JS.lt (Number_or_zero (Some JS.NaN)) stake = false).
Proof.
  intros Hjs Hpg Hauth Hrel Hu [Ht Hi] Hm Hstake s1.
  assert (Hnum : Number (field "stake" (body req)) = JS.NaN).
  { rewrite Hstake. cbn [Number]. cbn. exact Hjs. }
  assert (Hrun : serve POST_bets_place req ctx s =
    (Ok (res_json (JObj [("success", JBool true); ("betId", JInt (bets_id_seq s));
                         ("newBalance", JNum JS.NaN)])),
     with_new_bet (set_users s (credited (ident_id user) JS.NaN (users s)))
       (new_bet s (ident_id user) mid JS.NaN (now ctx)))).
  { unfold serve, run, handler, post_bets_place. rewrite Hauth.
    rewrite (place_bet_accepted_run req user ctx (mkConn None s 0) u mid m JS.NaN
               Hrel Hu).
    - cbv zeta. rewrite Hnum, sub_nan. reflexivity.
    - rewrite Ht, Hnum, Hstake. reflexivity.
    - exact Hi.
    - exact Hm.
    - rewrite Hstake. cbn [sql_numeric]. rewrite Hpg. reflexivity.
    - rewrite Hnum. destruct (Number_or_zero (User.balance u)); reflexivity. }
  subst s1. rewrite Hrun. cbn [fst snd]. split; [reflexivity|]. split.
  - change (user_by_id (ident_id user) (with_new_bet ?x ?y))
      with (user_by_id (ident_id user) x).
    rewrite (user_by_id_after_credit _ _ _ _ Hu). reflexivity.
  - intros stake. reflexivity.
Qed.

(** *** Atomicity of the approval and of the settlement *)

Lemma restore_users_deposits (s : store) (us : list User.t) (ds : list Deposit.t) :
  restore s (set_deposits (set_users s us) ds) = s.
Proof. destruct s; reflexivity. Qed.

Lemma restore_users (s : store) (us : list User.t) :
  restore s (set_users s us) = s.
Proof. destruct s; reflexivity. Qed.

Lemma restore_users_bets (s : store) (us : list User.t) (bs : list Bet.t) :
  restore s (set_bets (set_users s us) bs) = s.
Proof. destruct s; reflexivity. Qed.

(** The approval handler, whatever fails: the credit and the approval,
    or nothing. *)
Lemma handle_deposits_approve_atomic (req : request) (user : identity) (ctx : context)
    (s : store) :
  let (answer, c') := handle_deposits_approve req user ctx (mkConn None s 1) in
  credit_and_approval_or_nothing s (ident_id user) (now ctx) answer (current c').
Proof.
  unfold handle_deposits_approve. cbv zeta.
  destruct (negb (JS.truthy (field "id" (body req)))).
  { cbn. right. split; [discriminate|reflexivity]. }
  unfold try_catch, bind, ask, BEGIN, COMMIT, ROLLBACK, client_query, select_user, ret.
  cbn [current calls snapshot].
  destruct (fails ctx 1).
  { cbn. right. split; [discriminate|reflexivity]. }
  cbn [current calls snapshot].
  destruct (fails ctx 2).
  { cbn. right. split; [discriminate|apply restore_same]. }
  unfold select_deposit, update_deposit_approved, with_param.
  destruct (sql_int (field "id" (body req))) as [[i|]|e];
    try (cbn; right; split; [discriminate|apply restore_same]).
  destruct (deposit_by_id i s) as [dep|] eqn:Hd;
    [|cbn; right; split; [discriminate|apply restore_same]].
  destruct (Deposit.status dep) eqn:Hst;
    [|cbn; right; split; [discriminate|apply restore_same]].
  cbn [current calls snapshot].
  destruct (fails ctx 3).
  { cbn. right. split; [discriminate|apply restore_same]. }
  cbn [current calls snapshot].
  destruct (fails ctx 4).
  { cbn. right. split; [discriminate|apply restore_same]. }
  rewrite update_balance_run. cbn [current calls snapshot].
  destruct (fails ctx 5).
  { cbn. right. split; [discriminate|apply restore_users]. }
  cbn [deposits set_users].
  rewrite (find_some_existsb _ _ _ Hd).
  match goal with
  | |- context [user_by_id ?j ?st] => destruct (user_by_id j st)
  end.
  2:{ cbn. right. split; [discriminate|apply restore_users]. }
  cbn [current calls snapshot].
  destruct (fails ctx 6).
  { cbn. right. split; [discriminate|apply restore_users_deposits]. }
  cbn. left. split; [reflexivity|].
  eexists i, dep, _. repeat split; assumption.
Qed.

(** X9. Whatever the request and whichever call to the store fails,
    [POST /api/deposits/approve] either answers 200 to an admin and
    leaves both the credit and the approval of a deposit that was
    pending, or answers an error and leaves the store exactly as it
    was: there is no credit without approval and no approval without
    the balance update. *)
Theorem approve_deposit_atomic (req : request) (ctx : context) (s : store) :
  exists answer s1,
    serve POST_deposits_approve req ctx s = (answer, s1) /\
    ((exists resp, answer = Ok resp /\ status resp <> 200 /\ s1 = s) \/
     (exists admin, authenticated req ctx admin /\ is_admin_in s admin /\
                    credit_and_approval_or_nothing s (ident_id admin) (now ctx) answer s1)).
Proof.
  unfold serve, run, handler, post_deposits_approve.
  destruct (authMiddleware_cases req ctx) as [[user Hu]|[resp [H401 Hr]]].
  2:{ rewrite Hr. exists (Ok resp), s. split; [reflexivity|].
      left. exists resp. repeat split. congruence. }
  rewrite Hu, adminMiddleware_run. cbn [calls current].
  destruct (fails ctx 0).
  { eexists _, _. split; [reflexivity|]. left. eexists. repeat split. discriminate. }
  destruct (user_by_id (ident_id user) s) as [u|] eqn:Hrow.
  2:{ eexists _, _. split; [reflexivity|]. left. eexists. repeat split. discriminate. }
  destruct (User.is_admin u) as [[|]|] eqn:Hadm;
    try (eexists _, _; split; [reflexivity|]; left; eexists; repeat split; discriminate).
  pose proof (handle_deposits_approve_atomic req user ctx s) as H.
  unfold after_call. cbn [snapshot current calls].
  destruct (handle_deposits_approve req user ctx (mkConn None s 1)) as [answer c'].
  exists answer, (current c'). split; [reflexivity|].
  right. exists user. split; [exact Hu|]. split; [exists u; split; assumption|exact H].
Qed.

(** The payout handler, whatever fails: the credit and the settlement,
    or nothing. *)
Lemma handle_bets_payout_atomic (req : request) (user : identity) (ctx : context) (s : store) :
  let (answer, c') := handle_bets_payout req user ctx (mkConn None s 1) in
  credit_and_settlement_or_nothing s (field "amount" (body req)) answer (current c').
Proof.
  unfold handle_bets_payout. cbv zeta.
  destruct (negb (JS.truthy (field "betId" (body req)))
            || negb (JS.truthy (field "amount" (body req)))).
  { cbn. right. split; [discriminate|reflexivity]. }
  unfold try_catch, bind, ask, lift, BEGIN, COMMIT, ROLLBACK, client_query, select_user, ret.
  cbn [current calls snapshot].
  destruct (fails ctx 1).
  { cbn. right. split; [discriminate|reflexivity]. }
  cbn [current calls snapshot].
  destruct (fails ctx 2).
  { cbn. right. split; [discriminate|apply restore_same]. }
  unfold select_bet, update_bet_settled, with_param.
  destruct (sql_int (field "betId" (body req))) as [[i|]|e];
    try (cbn; right; split; [discriminate|apply restore_same]).
  destruct (bet_by_id i s) as [bet|] eqn:Hb;
    [|cbn; right; split; [discriminate|apply restore_same]].
  destruct (Bet.status bet) eqn:Hst;
    [|cbn; right; split; [discriminate|apply restore_same]].
  cbn [current calls snapshot].
  destruct (fails ctx 3).
  { cbn. right. split; [discriminate|apply restore_same]. }
  cbn [current calls snapshot].
  destruct (user_by_id (Bet.user_id bet) s) as [owner|] eqn:Ho.
  2:{ cbn. right. split; [discriminate|apply restore_same]. }
  cbn [current calls snapshot].
  destruct (fails ctx 4).
  { cbn. right. split; [discriminate|apply restore_same]. }
  rewrite update_balance_run. cbn [current calls snapshot].
  destruct (fails ctx 5).
  { cbn. right. split; [discriminate|apply restore_users]. }
  destruct (sql_numeric (field "amount" (body req))) as [p|e] eqn:Hp.
  2:{ cbn. right. split; [discriminate|apply restore_users]. }
  cbn [current calls snapshot].
  destruct (fails ctx 6).
  { cbn. right. split; [discriminate|apply restore_users_bets]. }
  cbn. left. split; [reflexivity|].
  eexists i, bet, owner, _, p. repeat split; assumption || reflexivity.
Qed.

(** X10. Whatever the request and whichever call to the store fails,
    [POST /api/bets/payout] either answers 200 to an admin and leaves
    both the credit of the owner and the settlement of a bet that was
    open, or answers an error and leaves the store exactly as it was. *)
Theorem settle_bet_atomic (req : request) (ctx : context) (s : store) :
  exists answer s1,
    serve POST_bets_payout req ctx s = (answer, s1) /\
    ((exists resp, answer = Ok resp /\ status resp <> 200 /\ s1 = s) \/
     (exists admin, authenticated req ctx admin /\ is_admin_in s admin /\
                    credit_and_settlement_or_nothing s (field "amount" (body req)) answer s1)).
Proof.
  unfold serve, run, handler, post_bets_payout.
  destruct (authMiddleware_cases req ctx) as [[user Hu]|[resp [H401 Hr]]].
  2:{ rewrite Hr. exists (Ok resp), s. split; [reflexivity|].
      left. exists resp. repeat split. congruence. }
  rewrite Hu, adminMiddleware_run. cbn [calls current].
  destruct (fails ctx 0).
  { eexists _, _. split; [reflexivity|]. left. eexists. repeat split. discriminate. }
  destruct (user_by_id (ident_id user) s) as [u|] eqn:Hrow.
  2:{ eexists _, _. split; [reflexivity|]. left. eexists. repeat split. discriminate. }
  destruct (User.is_admin u) as [[|]|] eqn:Hadm;
    try (eexists _, _; split; [reflexivity|]; left; eexists; repeat split; discriminate).
  pose proof (handle_bets_payout_atomic req user ctx s) as H.
  unfold after_call. cbn [snapshot current calls].
  destruct (handle_bets_payout req user ctx (mkConn None s 1)) as [answer c'].
  exists answer, (current c'). split; [reflexivity|].
  right. exists user. split; [exact Hu|]. split; [exists u; split; assumption|exact H].
Qed.

(** *** Routes that only read *)

Lemma read_route_keeps (P : store -> Prop) (r : route) (req : request) :
  read_route r = true -> keeps P (handler r req).
Proof. intros Hr. destruct r; try discriminate Hr; cbn [handler]; keeps_route. Qed.

(** X11. The routes that only read (health, login, profile, the four
    listings and the root) leave the store exactly as it was, whatever
    the request and whichever calls fail. *)
Theorem read_routes_leave_store (r : route) (req : request) (ctx : context) (s : store) :
  read_route r = true -> snd (serve r req ctx s) = s.
Proof.
  intros Hr.
  apply (serve_keeps (fun s' => s' = s)); [apply read_route_keeps, Hr|reflexivity].
Qed.

(** *** What every route keeps of a row *)

Lemma later_keeps (P : store -> Prop) (s s' : store) :
  (forall r req, keeps P (handler r req)) -> later s s' -> P s -> P s'.
Proof.
  intros Hk Hl H. induction Hl as [|s' r req ctx _ IH]; [exact H|].
  apply serve_keeps; [apply Hk|exact IH].
Qed.

Lemma same_account_refl (u : User.t) : same_account u u.
Proof. repeat split. Qed.

Lemma same_wager_refl (b : Bet.t) : same_wager b b.
Proof. repeat split. Qed.

Lemma same_request_refl (d : Deposit.t) : same_request d d.
Proof. repeat split. Qed.

(** The row of a user but for the three statements that set a balance. *)
Lemma row_is_survives (j : Z) (u : User.t) : survives_rollback (row_is j u).
Proof. intros s0 s H. exact H. Qed.

Lemma row_is_ignores_matches (j : Z) (u : User.t) : ignores_matches (row_is j u).
Proof. intros s ms n H. exact H. Qed.

Lemma row_is_ignores_bets (j : Z) (u : User.t) : ignores_bets (row_is j u).
Proof. intros s bs n H. exact H. Qed.

Lemma row_is_ignores_deposits (j : Z) (u : User.t) : ignores_deposits (row_is j u).
Proof. intros s ds n H. exact H. Qed.

Lemma insert_user_keeps_row (j : Z) (u : User.t) (e : JS.value) (h : string) (f : JS.value)
    (a : option bool) (t : Z) :
  statement_keeps (row_is j u) (insert_user e h f a t).
Proof.
  intros s H. unfold insert_user.
  destruct (param_text e); [|exact H].
  destruct (existsb _ _); [exact H|].
  unfold row_is, user_by_id in *. cbn. apply find_app_found, H.
Qed.

(** The account. *)
Lemma account_kept_survives (j : Z) (u : User.t) : survives_rollback (account_kept j u).
Proof. intros s0 s H. exact H. Qed.

Lemma account_kept_ignores_matches (j : Z) (u : User.t) : ignores_matches (account_kept j u).
Proof. intros s ms n H. exact H. Qed.

Lemma account_kept_ignores_bets (j : Z) (u : User.t) : ignores_bets (account_kept j u).
Proof. intros s bs n H. exact H. Qed.

Lemma account_kept_ignores_deposits (j : Z) (u : User.t) : ignores_deposits (account_kept j u).
Proof. intros s ds n H. exact H. Qed.

Lemma insert_user_keeps_account (j : Z) (u : User.t) (e : JS.value) (h : string) (f : JS.value)
    (a : option bool) (t : Z) :
  statement_keeps (account_kept j u) (insert_user e h f a t).
Proof.
  intros s H. unfold insert_user.
  destruct (param_text e); [|exact H].
  destruct (existsb _ _); [exact H|].
  destruct H as (u' & Hu & Hsame). exists u'. split; [|exact Hsame].
  unfold user_by_id in *. cbn. apply find_app_found, Hu.
Qed.

Lemma update_balance_keeps_account (j : Z) (u : User.t) (d : JS.number) (i : Z) :
  statement_keeps (account_kept j u) (update_balance d i).
Proof.
  intros s (u' & Hu & Hsame). rewrite update_balance_run. cbn [snd].
  unfold account_kept. rewrite user_by_id_credited, Hu. cbn [option_map].
  eexists. split; [reflexivity|].
  destruct (User.id u' =? i); [|exact Hsame].
  destruct Hsame as (? & ? & ? & ? & ? & ?). repeat split; assumption.
Qed.

(** The bet. *)
Lemma wager_kept_survives (i : Z) (b : Bet.t) : survives_rollback (wager_kept i b).
Proof. intros s0 s H. exact H. Qed.

Lemma wager_kept_ignores_users (i : Z) (b : Bet.t) : ignores_users (wager_kept i b).
Proof. intros s us n H. exact H. Qed.

Lemma wager_kept_ignores_matches (i : Z) (b : Bet.t) : ignores_matches (wager_kept i b).
Proof. intros s ms n H. exact H. Qed.

Lemma wager_kept_ignores_deposits (i : Z) (b : Bet.t) : ignores_deposits (wager_kept i b).
Proof. intros s ds n H. exact H. Qed.

Lemma insert_bet_keeps_wager (i : Z) (b : Bet.t) (uid : Z) (m st : JS.value) (t : Z) :
  statement_keeps (wager_kept i b) (insert_bet uid m st t).
Proof.
  apply with_param_keeps. intros mid. apply with_param_keeps.
  intros [st'|] s H; [|exact H].
  destruct (user_by_id uid s), mid as [mid|]; try exact H;
    try (destruct (match_by_id mid s); try exact H);
    destruct H as (b' & Hb & Hsame); exists b'; (split; [|exact Hsame]);
    unfold bet_by_id in *; cbn; apply find_app_found, Hb.
Qed.

Lemma update_bet_settled_keeps_wager (i : Z) (b : Bet.t) (a v : JS.value) :
  statement_keeps (wager_kept i b) (update_bet_settled a v).
Proof.
  apply with_param_keeps. intros p. apply with_param_keeps.
  intros [j|] s H; [|exact H].
  destruct H as (b' & Hb & Hsame). cbn [snd].
  change (wager_kept i b (set_bets s (settled_rows j p (bets s)))).
  unfold wager_kept. rewrite bet_by_id_settled, Hb. cbn [option_map].
  eexists. split; [reflexivity|].
  destruct (Bet.id b' =? j); [|exact Hsame].
  destruct Hsame as (? & ? & ? & ? & ?). repeat split; assumption.
Qed.

(** The deposit. *)
Lemma request_kept_survives (i : Z) (d : Deposit.t) : survives_rollback (request_kept i d).
Proof. intros s0 s H. exact H. Qed.

Lemma request_kept_ignores_users (i : Z) (d : Deposit.t) : ignores_users (request_kept i d).
Proof. intros s us n H. exact H. Qed.

Lemma request_kept_ignores_matches (i : Z) (d : Deposit.t) : ignores_matches (request_kept i d).
Proof. intros s ms n H. exact H. Qed.

Lemma request_kept_ignores_bets (i : Z) (d : Deposit.t) : ignores_bets (request_kept i d).
Proof. intros s bs n H. exact H. Qed.

Lemma insert_deposit_keeps_request (i : Z) (d : Deposit.t) (uid : Z) (v : JS.value) (t : Z) :
  statement_keeps (request_kept i d) (insert_deposit uid v t).
Proof.
  apply with_param_keeps. intros [a|] s H; [|exact H].
  destruct (user_by_id uid s); [|exact H].
  destruct H as (d' & Hd & Hsame). exists d'. split; [|exact Hsame].
  unfold deposit_by_id in *. cbn. apply find_app_found, Hd.
Qed.

Lemma update_deposit_approved_keeps_request (i : Z) (d : Deposit.t) (by_user : Z)
    (v : JS.value) (t : Z) :
  statement_keeps (request_kept i d) (update_deposit_approved by_user v t).
Proof.
  apply with_param_keeps. intros [j|] s H; [|exact H].
  destruct (existsb _ _), (user_by_id by_user s); try exact H;
    destruct H as (d' & Hd & Hsame); cbn [snd];
    change (request_kept i d (set_deposits s (approved_rows j by_user t (deposits s))));
    unfold request_kept; rewrite deposit_by_id_approved, Hd; cbn [option_map];
    eexists; (split; [reflexivity|]); (destruct (Deposit.id d' =? j); [|exact Hsame]);
    destruct Hsame as (? & ? & ? & ?); repeat split; assumption.
Qed.

#[local] Hint Resolve row_is_survives row_is_ignores_matches row_is_ignores_bets
  row_is_ignores_deposits insert_user_keeps_row
  account_kept_survives account_kept_ignores_matches account_kept_ignores_bets
  account_kept_ignores_deposits insert_user_keeps_account update_balance_keeps_account
  wager_kept_survives wager_kept_ignores_users wager_kept_ignores_matches
  wager_kept_ignores_deposits insert_bet_keeps_wager update_bet_settled_keeps_wager
  request_kept_survives request_kept_ignores_users request_kept_ignores_matches
  request_kept_ignores_bets insert_deposit_keeps_request update_deposit_approved_keeps_request
  : keeps.

Lemma handler_keeps_account (r : route) (req : request) (j : Z) (u : User.t) :
  keeps (account_kept j u) (handler r req).
Proof. destruct r; cbn [handler]; keeps_route. Qed.

Lemma handler_keeps_wager (r : route) (req : request) (i : Z) (b : Bet.t) :
  keeps (wager_kept i b) (handler r req).
Proof. destruct r; cbn [handler]; keeps_route. Qed.

Lemma handler_keeps_request (r : route) (req : request) (i : Z) (d : Deposit.t) :
  keeps (request_kept i d) (handler r req).
Proof. destruct r; cbn [handler]; keeps_route. Qed.

(** X12. No route deletes an account or changes anything of it but the
    balance: in every store reached later, whatever is served and
    whatever fails, user [j] still has a row with the same id, email,
    password hash, name, creation time and admin flag. *)
Theorem account_is_fixed (s s' : store) (j : Z) (u : User.t) :
  later s s' -> user_by_id j s = Some u ->
  exists u', user_by_id j s' = Some u' /\ same_account u u'.
Proof.
  intros Hl Hu.
  apply (later_keeps (account_kept j u) s s'); [|exact Hl|].
  - intros r req. apply handler_keeps_account.
  - exists u. split; [exact Hu|apply same_account_refl].
Qed.

(** X13. No route deletes a bet or a deposit, or changes the owner, the
    match, the stake or the amount of one: in every store reached later
    a bet differs from what it was by its status and payout only, a
    deposit by its approval only. *)
Theorem wagers_and_requests_are_fixed (s s' : store) :
  later s s' ->
  (forall i b, bet_by_id i s = Some b ->
     exists b', bet_by_id i s' = Some b' /\ same_wager b b') /\
  (forall i d, deposit_by_id i s = Some d ->
     exists d', deposit_by_id i s' = Some d' /\ same_request d d').
Proof.
  intros Hl. split.
  - intros i b Hb.
    apply (later_keeps (wager_kept i b) s s'); [|exact Hl|].
    + intros r req. apply handler_keeps_wager.
    + exists b. split; [exact Hb|apply same_wager_refl].
  - intros i d Hd.
    apply (later_keeps (request_kept i d) s s'); [|exact Hl|].
    + intros r req. apply handler_keeps_request.
    + exists d. split; [exact Hd|apply same_request_refl].
Qed.

(** *** Whose row a request may change *)

Lemma handler_keeps_row (r : route) (req : request) (j : Z) (u : User.t) :
  r <> POST_deposits_approve -> r <> POST_bets_place -> r <> POST_bets_payout ->
  keeps (row_is j u) (handler r req).
Proof. intros H1 H2 H3. destruct r; try contradiction; cbn [handler]; keeps_route. Qed.

Lemma adminMiddleware_refuses (user : identity) (next : M response) (ctx : context) (s : store) :
  ~ is_admin_in s user ->
  snd (run (adminMiddleware user next) ctx s) = s.
Proof.
  intros Hno. unfold run. rewrite adminMiddleware_run. cbn [calls current].
  destruct (fails ctx 0); [reflexivity|].
  destruct (user_by_id (ident_id user) s) as [u|] eqn:Hu; [|reflexivity].
  destruct (User.is_admin u) as [[|]|] eqn:Ha; try reflexivity.
  destruct Hno. exists u. split; assumption.
Qed.

Lemma admin_route_refuses (r : route) (req : request) (ctx : context) (s : store) :
  admin_route r = true ->
  (forall caller, authenticated req ctx caller -> ~ is_admin_in s caller) ->
  snd (serve r req ctx s) = s.
Proof.
  intros Hr Hno. unfold serve.
  destruct (authMiddleware_cases req ctx) as [[user Hu]|[resp [_ Hrun]]].
  - specialize (Hno user Hu).
    destruct r; try discriminate Hr; unfold run, handler,
      post_matches, post_deposits_approve, post_bets_payout, get_admin_deposits,
      get_admin_users; rewrite Hu; apply (adminMiddleware_refuses user _ ctx s Hno).
  - destruct r; try discriminate Hr; unfold run, handler,
      post_matches, post_deposits_approve, post_bets_payout, get_admin_deposits,
      get_admin_users; rewrite Hrun; reflexivity.
Qed.

(** X14. A request leaves the row of user [j], balance included, as it
    was unless its caller is [j] or an admin: on every route, whatever
    the body and whichever calls fail. *)
Theorem others_cannot_touch_account (r : route) (req : request) (ctx : context) (s : store)
    (j : Z) (u : User.t) :
  (forall caller, authenticated req ctx caller ->
     ident_id caller <> j /\ ~ is_admin_in s caller) ->
  user_by_id j s = Some u ->
  user_by_id j (snd (serve r req ctx s)) = Some u.
Proof.
  intros Hcaller Hu.
  assert (Hadmin : admin_route r = true -> user_by_id j (snd (serve r req ctx s)) = Some u).
  { intros Hr. rewrite (admin_route_refuses r req ctx s Hr); [exact Hu|].
    intros caller Hc. apply (Hcaller caller Hc). }
  destruct r;
    try (apply Hadmin; reflexivity);
    try (apply (serve_keeps (row_is j u)); [apply handler_keeps_row; discriminate|exact Hu]).
  unfold serve, run, handler, post_bets_place.
  destruct (authMiddleware_cases req ctx) as [[user Ha]|[resp [_ Hrun]]].
  2:{ rewrite Hrun. exact Hu. }
  rewrite Ha. destruct (Hcaller user Ha) as [Hne _].
  pose proof (handle_bets_place_atomic req user ctx s) as H.
  destruct (handle_bets_place req user ctx (mkConn None s 0)) as [answer c'].
  cbn [snd]. destruct answer as [resp|e]; [|contradiction].
  destruct H as [[_ (newBalance & bet & Hs1 & _)]|[_ (Hsame & _)]].
  - rewrite Hs1.
    change (user_by_id j (set_users s (credited (ident_id user) newBalance (users s))) = Some u).
    rewrite user_by_id_credited, Hu. cbn [option_map].
    rewrite (user_by_id_key s j u Hu).
    destruct (j =? ident_id user) eqn:E; [|reflexivity]. lia.
  - unfold user_by_id in *. rewrite Hsame. exact Hu.
Qed.

(** *** The references and the unique emails *)

Lemma find_app_kept {A : Type} (p : A -> bool) (l added : list A) :
  find p l <> None -> find p (l ++ added) <> None.
Proof.
  intros H. destruct (find p l) as [x|] eqn:E; [|contradiction].
  rewrite (find_app_found p l added x E). discriminate.
Qed.

Lemma references_survive : survives_rollback references_hold.
Proof. intros s0 s H. exact H. Qed.

Lemma insert_user_keeps_references (e : JS.value) (h : string) (f : JS.value)
    (a : option bool) (t : Z) :
  statement_keeps references_hold (insert_user e h f a t).
Proof.
  intros s H. unfold insert_user.
  destruct (param_text e); [|exact H].
  destruct (existsb _ _); [exact H|].
  destruct H as [Hb Hd]. cbn [snd]. split.
  - intros b Hin. destruct (Hb b Hin) as [Hu Hm]. split; [|exact Hm].
    unfold user_by_id in *. cbn. apply find_app_kept, Hu.
  - intros d Hin. destruct (Hd d Hin) as [Hu Ha]. split.
    + unfold user_by_id in *. cbn. apply find_app_kept, Hu.
    + intros a' Ha'. specialize (Ha a' Ha').
      unfold user_by_id in *. cbn. apply find_app_kept, Ha.
Qed.

Lemma user_by_id_credited_kept (s : store) (i j : Z) (d : JS.number) :
  user_by_id j s <> None -> user_by_id j (set_users s (credited i d (users s))) <> None.
Proof.
  intros H. rewrite user_by_id_credited.
  destruct (user_by_id j s); [discriminate|contradiction].
Qed.

Lemma update_balance_keeps_references (d : JS.number) (i : Z) :
  statement_keeps references_hold (update_balance d i).
Proof.
  intros s [Hb Hd]. rewrite update_balance_run. cbn [snd]. split.
  - intros b Hin. destruct (Hb b Hin) as [Hu Hm]. split; [|exact Hm].
    apply user_by_id_credited_kept, Hu.
  - intros d' Hin. destruct (Hd d' Hin) as [Hu Ha]. split.
    + apply user_by_id_credited_kept, Hu.
    + intros a' Ha'. apply user_by_id_credited_kept, (Ha a' Ha').
Qed.

Lemma insert_match_keeps_references (h a o : JS.value) (t : Z) :
  statement_keeps references_hold (insert_match h a o t).
Proof.
  apply with_param_keeps. intros o' s H.
  destruct (param_text h), (param_text a), o'; try exact H.
  destruct H as [Hb Hd]. cbn [snd]. split; [|exact Hd].
  intros b Hin. destruct (Hb b Hin) as [Hu Hm]. split; [exact Hu|].
  intros m Hmid. specialize (Hm m Hmid).
  unfold match_by_id in *. cbn. apply find_app_kept, Hm.
Qed.

Lemma insert_deposit_keeps_references (uid : Z) (v : JS.value) (t : Z) :
  statement_keeps references_hold (insert_deposit uid v t).
Proof.
  apply with_param_keeps. intros [a|] s H; [|exact H].
  destruct (user_by_id uid s) as [owner|] eqn:Ho; [|exact H].
  destruct H as [Hb Hd]. cbn [snd]. split; [exact Hb|].
  intros d Hin. cbn in Hin. apply in_app_or in Hin. destruct Hin as [Hin|[<-|[]]].
  - exact (Hd d Hin).
  - cbn. split; [|discriminate].
    change (user_by_id uid s <> None). rewrite Ho. discriminate.
Qed.

Lemma update_deposit_approved_keeps_references (by_user : Z) (v : JS.value) (t : Z) :
  statement_keeps references_hold (update_deposit_approved by_user v t).
Proof.
  apply with_param_keeps. intros [i|] s H; [|exact H].
  destruct (existsb (fun d => Deposit.id d =? i) (deposits s)) eqn:Hhit;
    destruct (user_by_id by_user s) as [approver|] eqn:Hap; try exact H;
    destruct H as [Hb Hd]; cbn [snd]; (split; [exact Hb|]);
    intros d' Hin; cbn in Hin; apply in_map_iff in Hin; destruct Hin as (d & <- & Hin);
    destruct (Hd d Hin) as [Hu Ha];
    (destruct (Deposit.id d =? i) eqn:Hid; [|split; assumption]).
  - cbn. split; [exact Hu|]. intros a' Ha'. inversion Ha'. subst a'.
    change (user_by_id by_user s <> None). rewrite Hap. discriminate.
  - cbn. split; [exact Hu|]. intros a' Ha'. inversion Ha'. subst a'.
    change (user_by_id by_user s <> None). rewrite Hap. discriminate.
  - exfalso. assert (Hex : existsb (fun d => Deposit.id d =? i) (deposits s) = true).
    { apply existsb_exists. exists d. split; assumption. }
    rewrite Hhit in Hex. discriminate Hex.
Qed.

Lemma insert_bet_keeps_references (uid : Z) (m st : JS.value) (t : Z) :
  statement_keeps references_hold (insert_bet uid m st t).
Proof.
  apply with_param_keeps. intros mid. apply with_param_keeps.
  intros [st'|] s H; [|exact H].
  destruct (user_by_id uid s) as [owner|] eqn:Ho; [|destruct mid as [k|];
    [destruct (match_by_id k s)|]; exact H].
  destruct mid as [k|].
  - destruct (match_by_id k s) as [mt|] eqn:Hm; [|exact H].
    destruct H as [Hb Hd]. cbn [snd]. split; [|exact Hd].
    intros b Hin. cbn in Hin. apply in_app_or in Hin. destruct Hin as [Hin|[<-|[]]].
    + exact (Hb b Hin).
    + cbn. split.
      * change (user_by_id uid s <> None). rewrite Ho. discriminate.
      * intros m' Hm'. inversion Hm'. subst m'.
        change (match_by_id k s <> None). rewrite Hm. discriminate.
  - destruct H as [Hb Hd]. cbn [snd]. split; [|exact Hd].
    intros b Hin. cbn in Hin. apply in_app_or in Hin. destruct Hin as [Hin|[<-|[]]].
    + exact (Hb b Hin).
    + cbn. split; [|discriminate].
      change (user_by_id uid s <> None). rewrite Ho. discriminate.
Qed.

Lemma update_bet_settled_keeps_references (a v : JS.value) :
  statement_keeps references_hold (update_bet_settled a v).
Proof.
  apply with_param_keeps. intros p. apply with_param_keeps.
  intros [i|] s H; [|exact H].
  destruct H as [Hb Hd]. cbn [snd]. split; [|exact Hd].
  intros b' Hin. cbn in Hin. apply in_map_iff in Hin. destruct Hin as (b & <- & Hin).
  destruct (Hb b Hin) as [Hu Hm].
  destruct (Bet.id b =? i); split; assumption.
Qed.

(** The emails. *)
Lemma emails_unique_survive : survives_rollback emails_unique.
Proof. intros s0 s H. exact H. Qed.

Lemma emails_unique_ignores_matches : ignores_matches emails_unique.
Proof. intros s ms n H. exact H. Qed.

Lemma emails_unique_ignores_bets : ignores_bets emails_unique.
Proof. intros s bs n H. exact H. Qed.

Lemma emails_unique_ignores_deposits : ignores_deposits emails_unique.
Proof. intros s ds n H. exact H. Qed.

Lemma insert_user_keeps_emails (e : JS.value) (h : string) (f : JS.value)
    (a : option bool) (t : Z) :
  statement_keeps emails_unique (insert_user e h f a t).
Proof.
  intros s H. unfold insert_user.
  destruct (param_text e) as [e'|]; [|exact H].
  destruct (existsb _ _) eqn:Hex; [exact H|].
  unfold emails_unique in *. cbn. rewrite map_app. cbn.
  apply NoDup_app; [exact H|repeat constructor; intros []|].
  intros x Hin [<-|[]].
  apply in_map_iff in Hin. destruct Hin as (u & Hu & Hin).
  assert (Hhit : existsb (fun u => String.eqb (User.email u) e') (users s) = true).
  { apply existsb_exists. exists u. split; [exact Hin|].
    rewrite Hu. apply String.eqb_refl. }
  rewrite Hex in Hhit. discriminate Hhit.
Qed.

Lemma update_balance_keeps_emails (d : JS.number) (i : Z) :
  statement_keeps emails_unique (update_balance d i).
Proof.
  intros s H. unfold emails_unique in *. cbn. rewrite map_map.
  erewrite map_ext; [exact H|].
  intros u. cbn. destruct (User.id u =? i); reflexivity.
Qed.

#[local] Hint Resolve references_survive insert_user_keeps_references
  update_balance_keeps_references insert_match_keeps_references
  insert_deposit_keeps_references update_deposit_approved_keeps_references
  insert_bet_keeps_references update_bet_settled_keeps_references
  emails_unique_survive emails_unique_ignores_matches emails_unique_ignores_bets
  emails_unique_ignores_deposits insert_user_keeps_emails update_balance_keeps_emails
  : keeps.

Lemma handler_keeps_references (r : route) (req : request) :
  keeps references_hold (handler r req).
Proof. destruct r; cbn [handler]; keeps_route. Qed.

Lemma handler_keeps_emails (r : route) (req : request) :
  keeps emails_unique (handler r req).
Proof. destruct r; cbn [handler]; keeps_route. Qed.

Lemma references_hold_empty : references_hold empty_store.
Proof. split; intros x []. Qed.

Lemma references_reachable (s : store) :
  later empty_store s -> references_hold s.
Proof.
  intros Hl.
  apply (later_keeps references_hold empty_store s);
    [intros r req; apply handler_keeps_references|exact Hl|apply references_hold_empty].
Qed.

(** X15. The references of the schema hold in every store the
    application reaches from the empty one: the owner of every bet and
    of every deposit has a row, and so have the match of a bet and the
    approver of a deposit. *)
Theorem references_always_hold (s : store) :
  later empty_store s -> references_hold s.
Proof.
  intros Hl. induction Hl as [|s' r req ctx _ IH]; [apply references_hold_empty|].
  apply serve_keeps; [apply handler_keeps_references|exact IH].
Qed.

(** X16. No two accounts share an email: every route keeps the emails of
    the users table pairwise distinct, whatever is served and whatever
    fails. *)
Theorem emails_stay_unique (s s' : store) :
  later s s' -> emails_unique s -> emails_unique s'.
Proof.
  intros Hl H.
  apply (later_keeps emails_unique s s');
    [intros r req; apply handler_keeps_emails|exact Hl|exact H].
Qed.

(** *** The listings *)

Lemma insert_sorted_perm {A : Type} (before : A -> A -> bool) (x : A) (l : list A) :
  Permutation (x :: l) (insert_sorted before x l).
Proof.
  induction l as [|y l IH]; [apply Permutation_refl|].
  cbn [insert_sorted]. destruct (before x y); [apply Permutation_refl|].
  apply perm_trans with (y :: x :: l); [apply perm_swap|].
  apply perm_skip, IH.
Qed.

Lemma order_by_perm {A : Type} (before : A -> A -> bool) (l : list A) :
  Permutation l (order_by before l).
Proof.
  induction l as [|x l IH]; [apply perm_nil|].
  cbn [order_by fold_right].
  apply perm_trans with (x :: order_by before l); [apply perm_skip, IH|].
  apply insert_sorted_perm.
Qed.

Lemma insert_sorted_sorted {A : Type} (before : A -> A -> bool) (x : A) (l : list A) :
  (forall a b, before a b = false -> before b a = true) ->
  Sorted (fun a b => before a b = true) l ->
  Sorted (fun a b => before a b = true) (insert_sorted before x l).
Proof.
  intros Htotal Hl. induction Hl as [|y l Hl IH Hhd]; [repeat constructor|].
  cbn [insert_sorted]. destruct (before x y) eqn:E.
  - constructor; [constructor; assumption|constructor; exact E].
  - constructor; [exact IH|].
    destruct Hhd as [|z l Hyz]; cbn [insert_sorted].
    + constructor. apply Htotal, E.
    + destruct (before x z); constructor; [apply Htotal, E|exact Hyz].
Qed.

Lemma order_by_sorted {A : Type} (before : A -> A -> bool) (l : list A) :
  (forall a b, before a b = false -> before b a = true) ->
  Sorted (fun a b => before a b = true) (order_by before l).
Proof.
  intros Htotal. induction l as [|x l IH]; [constructor|].
  cbn [order_by fold_right]. apply insert_sorted_sorted; assumption.
Qed.

Lemma sorted_strongly {A : Type} (R : A -> A -> Prop) (l : list A) :
  (forall a b c, R a b -> R b c -> R a c) ->
  Sorted R l -> StronglySorted R l.
Proof.
  intros Htrans Hl. induction Hl as [|x l Hl IH Hhd]; [constructor|].
  constructor; [exact IH|].
  destruct Hhd as [|y l Hxy]; [constructor|].
  inversion IH as [|y' l' Hs Hall]; subst.
  constructor; [exact Hxy|].
  apply Forall_forall. intros z Hz.
  rewrite Forall_forall in Hall. exact (Htrans x y z Hxy (Hall z Hz)).
Qed.

Lemma sorted_weaken {A : Type} (R R' : A -> A -> Prop) (l : list A) :
  (forall a b, R a b -> R' a b) -> Sorted R l -> Sorted R' l.
Proof.
  intros Hw Hl. induction Hl as [|x l Hl IH Hhd]; [constructor|].
  constructor; [exact IH|].
  destruct Hhd; constructor. apply Hw. assumption.
Qed.

Lemma order_by_newest_first {A : Type} (created_at : A -> Z) (l : list A) :
  newest_first created_at (order_by (fun a b => created_at b <=? created_at a) l).
Proof.
  apply sorted_strongly; [intros a b c; lia|].
  apply sorted_weaken with (R := fun a b => (created_at b <=? created_at a) = true);
    [intros a b; lia|].
  apply order_by_sorted. intros a b; lia.
Qed.

Lemma order_by_oldest_first {A : Type} (created_at : A -> Z) (l : list A) :
  oldest_first created_at (order_by (fun a b => created_at a <=? created_at b) l).
Proof.
  apply sorted_strongly; [intros a b c; lia|].
  apply sorted_weaken with (R := fun a b => (created_at a <=? created_at b) = true);
    [intros a b; lia|].
  apply order_by_sorted. intros a b; lia.
Qed.

(** X17. [GET /api/matches] lists every match of the store once, the
    newest first, to any caller; when the store fails the answer is 500. *)
Theorem matches_listed_newest_first (req : request) (ctx : context) (s : store) :
  exists rows,
    Permutation (matches s) rows /\ newest_first Match.created_at rows /\
    fst (serve GET_matches req ctx s) =
      if fails ctx 0 then Ok server_error
      else Ok (res_json (JObj [("matches", JArr (map (fun m => JObj (match_row m)) rows))])).
Proof.
  exists (order_by (fun a b => Match.created_at b <=? Match.created_at a) (matches s)).
  split; [apply order_by_perm|]. split; [apply order_by_newest_first|].
  unfold serve, run, handler, get_matches, try_catch, bind, query, client_query, ret.
  cbn [calls current]. destruct (fails ctx 0); reflexivity.
Qed.

(** X18. [GET /api/bets/my] lists the bets of the caller, each once and
    the newest first, and no bet of anyone else. *)
Theorem my_bets_lists_own_bets (req : request) (ctx : context) (s : store) (user : identity) :
  authenticated req ctx user -> fails ctx 0 = false ->
  exists rows,
    Permutation (filter (fun b => Bet.user_id b =? ident_id user) (bets s)) rows /\
    (forall b, In b rows <-> In b (bets s) /\ Bet.user_id b = ident_id user) /\
    newest_first Bet.created_at rows /\
    serve GET_bets_my req ctx s =
      (Ok (res_json (JObj [("bets", JArr (map (bet_row s) rows))])), s).
Proof.
  intros Hauth Hf.
  pose (mine := filter (fun b => Bet.user_id b =? ident_id user) (bets s)).
  exists (order_by (fun a b => Bet.created_at b <=? Bet.created_at a) mine).
  split; [apply order_by_perm|]. split; [|split; [apply order_by_newest_first|]].
  - intros b. split.
    + intros Hin. apply (Permutation_in b (Permutation_sym (order_by_perm _ mine))) in Hin.
      apply filter_In in Hin. destruct Hin as [Hin Hid]. split; [exact Hin|lia].
    + intros [Hin Hid]. apply (Permutation_in b (order_by_perm _ mine)).
      apply filter_In. split; [exact Hin|lia].
  - unfold serve, run, handler, get_bets_my. rewrite Hauth.
    unfold handle_bets_my, try_catch, bind, query, client_query, ret.
    cbn [calls current]. rewrite Hf. reflexivity.
Qed.

(** X19. [GET /api/admin/deposits] lists to an admin the deposits that
    wait for approval, each once and the oldest first, and no approved
    deposit. *)
Theorem admin_deposits_lists_pending (req : request) (ctx : context) (s : store)
    (admin : identity) :
  authenticated req ctx admin -> is_admin_in s admin -> reliable ctx ->
  exists rows,
    Permutation (filter waiting (deposits s)) rows /\
    (forall d, In d rows <-> In d (deposits s) /\ Deposit.status d = Deposit.pending) /\
    oldest_first Deposit.created_at rows /\
    serve GET_admin_deposits req ctx s =
      (Ok (res_json (JObj [("deposits", JArr (map (deposit_row s) rows))])), s).
Proof.
  intros Hauth Hadm Hrel.
  exists (order_by (fun a b => Deposit.created_at a <=? Deposit.created_at b)
                   (filter waiting (deposits s))).
  split; [apply order_by_perm|]. split; [|split; [apply order_by_oldest_first|]].
  - intros d. split.
    + intros Hin. apply (Permutation_in d (Permutation_sym (order_by_perm _ _))) in Hin.
      apply filter_In in Hin. destruct Hin as [Hin Hst]. split; [exact Hin|].
      unfold waiting in Hst. destruct (Deposit.status d); [reflexivity|discriminate].
    + intros [Hin Hst]. apply (Permutation_in d (order_by_perm _ _)).
      apply filter_In. split; [exact Hin|]. unfold waiting. rewrite Hst. reflexivity.
  - unfold serve, run, handler, get_admin_deposits. rewrite Hauth.
    rewrite adminMiddleware_admin; [|exact Hadm|apply Hrel].
    unfold handle_admin_deposits, try_catch, bind, query, client_query, ret, after_call.
    cbn [calls current snapshot]. rewrite Hrel. reflexivity.
Qed.




Lemma le_not_nan (x y : JS.number) : JS.le x y = true -> JS.is_nan x = false.
Proof. destruct x; try reflexivity. discriminate. Qed.


Lemma user_row_without_hash (u : User.t) :
  user_row public_columns u = user_row public_columns (erase_hash u).
Proof. reflexivity. Qed.


(** *** The Authorization header *)

Lemma split_word (w rest : string) :
  no_space w = true ->
  split " " (w ++ String " " rest) = w :: split " " rest.
Proof.
  induction w as [|ch w IH]; intros Hw; [reflexivity|].
  cbn [no_space] in Hw. apply andb_prop in Hw. destruct Hw as [Hch Hw].
  cbn [String.append split]. apply negb_true_iff in Hch. rewrite Hch, (IH Hw). reflexivity.
Qed.

Lemma split_last_word (w : string) :
  no_space w = true -> exists ws, split " " w = w :: ws.
Proof.
  induction w as [|ch w IH]; intros Hw; [exists []; reflexivity|].
  cbn [no_space] in Hw. apply andb_prop in Hw. destruct Hw as [Hch Hw].
  cbn [split]. apply negb_true_iff in Hch. rewrite Hch.
  destruct (IH Hw) as [ws ->]. exists ws. reflexivity.
Qed.

Lemma second_word (scheme token : string) :
  no_space scheme = true -> no_space token = true ->
  nth_error (split " " (scheme ++ String " " token)) 1 = Some token.
Proof.
  intros Hs Ht. rewrite (split_word scheme token Hs).
  destruct (split_last_word token Ht) as [ws ->]. reflexivity.
Qed.

Lemma header_accepted (req : request) (ctx : context) (scheme token : string)
    (i : Z) (e : string) :
  no_space scheme = true -> no_space token = true -> token <> "" ->
  authorization req = Some (scheme ++ String " " token) ->
  jwt_verify token (now ctx) = Some (i, e) ->
  authenticated req ctx (mkIdentity i e).
Proof.
  intros Hs Ht Hne Hh Hv next c. unfold authMiddleware. rewrite Hh.
  assert (Hnonempty : String.eqb (scheme ++ String " " token) "" = false).
  { destruct scheme; reflexivity. }
  rewrite Hnonempty, (second_word scheme token Hs Ht).
  apply String.eqb_neq in Hne. rewrite Hne.
  unfold bind, ask. rewrite Hv. reflexivity.
Qed.

(** X21. [authMiddleware] takes the second word of the Authorization
    header as the token and does not look at the first: a valid token
    passes behind any scheme word, [Bearer] or not, and behind none. *)
Theorem auth_scheme_is_not_checked (req : request) (ctx : context) (scheme token : string)
    (i : Z) (e : string) :
  no_space scheme = true -> no_space token = true -> token <> "" ->
  authorization req = Some (scheme ++ String " " token) ->
  jwt_verify token (now ctx) = Some (i, e) ->
  authenticated req ctx (mkIdentity i e).
Proof.
  intros Hs Ht Hne Hh Hv next c. unfold authMiddleware. rewrite Hh.
  destruct (split_last_word token Ht) as [ws Hws].
  assert (Hsecond : nth_error (split " " (scheme ++ String " " token)) 1 = Some token)
    by (rewrite (split_word scheme token Hs), Hws; reflexivity).
  rewrite Hsecond.
  replace (String.eqb (scheme ++ String " " token) "") with false
    by (destruct scheme; reflexivity).
  apply String.eqb_neq in Hne. rewrite Hne.
  unfold bind, ask. rewrite Hv. reflexivity.
Qed.

(** *** Registration and login *)

Lemma find_app_new {A : Type} (p : A -> bool) (l : list A) (x : A) :
  find p l = None -> p x = true -> find p (l ++ [x]) = Some x.
Proof.
  intros Hl Hx. induction l as [|y l IH]; cbn [app find].
  - rewrite Hx. reflexivity.
  - cbn [find] in Hl. destruct (p y); [discriminate Hl|exact (IH Hl)].
Qed.

Lemma find_none_existsb {A : Type} (p : A -> bool) (l : list A) :
  find p l = None -> existsb p l = false.
Proof.
  intros H. induction l as [|y l IH]; [reflexivity|].
  cbn [find] in H. cbn [existsb]. destruct (p y); [discriminate H|exact (IH H)].
Qed.

Lemma register_run (req : request) (ctx : context) (s : store) (e p : string) :
  field "email" (body req) = JS.Str e -> field "password" (body req) = JS.Str p ->
  e <> "" -> p <> "" ->
  user_by_email e s = None ->
  fails ctx 0 = false ->
  let u := new_user s e p (field "full_name" (body req)) ctx in
  serve POST_register req ctx s = (Ok (session u (now ctx)), with_new_user s u).
Proof.
  intros He Hp Hne Hnp Hu Hf u.
  unfold serve, run, handler, post_register. cbv zeta. rewrite He, Hp.
  cbn [JS.truthy]. apply String.eqb_neq in Hne, Hnp. rewrite Hne, Hnp. cbn [negb orb].
  unfold try_catch, bind, ask, lift, query, client_query, ret.
  cbn [current calls snapshot].
  assert (Hins : forall h f a t,
            insert_user (JS.Str e) h f a t s
            = (Ok (User.make (users_id_seq s) e h (param_text f) t (Some JS.zero) a),
               with_new_user s
                 (User.make (users_id_seq s) e h (param_text f) t (Some JS.zero) a))).
  { intros h f a t. unfold insert_user. cbn [param_text].
    unfold user_by_email in Hu. rewrite (find_none_existsb _ _ Hu). reflexivity. }
  subst u. unfold new_user.
  destruct ADMIN_EMAIL as [a|]; rewrite Hf, Hins; reflexivity.
Qed.

Lemma user_by_email_new (s : store) (u : User.t) :
  user_by_email (User.email u) s = None ->
  user_by_email (User.email u) (with_new_user s u) = Some u.
Proof.
  intros H. unfold user_by_email in *. cbn [users with_new_user].
  apply find_app_new; [exact H|apply String.eqb_refl].
Qed.

Lemma login_run (req : request) (ctx : context) (s : store) (e p : string) :
  field "email" (body req) = JS.Str e -> field "password" (body req) = JS.Str p ->
  e <> "" -> p <> "" ->
  fails ctx 0 = false ->
  serve POST_login req ctx s =
    (match user_by_email e s with
     | Some u =>
         if bcrypt_compare p (User.password_hash u) then Ok (session u (now ctx))
         else Ok (res_error 401 "Invalid credentials")
     | None => Ok (res_error 401 "Invalid credentials")
     end, s).
Proof.
  intros He Hp Hne Hnp Hf.
  unfold serve, run, handler, post_login. cbv zeta. rewrite He, Hp.
  cbn [JS.truthy]. apply String.eqb_neq in Hne, Hnp. rewrite Hne, Hnp. cbn [negb orb].
  unfold try_catch, bind, ask, lift, query, client_query, select_user_by_email, ret.
  cbn [current calls snapshot param_text]. rewrite Hf.
  destruct (user_by_email e s) as [u|]; [|reflexivity].
  cbn [current calls snapshot].
  destruct (bcrypt_compare p (User.password_hash u)); reflexivity.
Qed.

(** X22. A registration with an email that no user has, a password and
    a store that answers creates one account: the next id of the
    sequence, the hash of the password, balance 0, and the admin flag
    set by the comparison of the lowercased email with the lowercased
    ADMIN_EMAIL (NULL when none is configured).  The answer is 200 with
    the public columns of the row and a token signed for it. *)
Theorem register_creates_account (req : request) (ctx : context) (s : store) (e p : string) :
  field "email" (body req) = JS.Str e -> field "password" (body req) = JS.Str p ->
  e <> "" -> p <> "" ->
  user_by_email e s = None ->
  fails ctx 0 = false ->
  let u := new_user s e p (field "full_name" (body req)) ctx in
  let s1 := snd (serve POST_register req ctx s) in
  fst (serve POST_register req ctx s) = Ok (session u (now ctx))
  /\ s1 = with_new_user s u
  /\ user_by_email e s1 = Some u
  /\ User.balance u = Some JS.zero
  /\ (User.is_admin u = Some true <->
      exists a, ADMIN_EMAIL = Some a /\ toLowerCase a = toLowerCase e).
Proof.
  intros He Hp Hne Hnp Hu Hf u s1. subst s1.
  rewrite (register_run req ctx s e p He Hp Hne Hnp Hu Hf). cbn [fst snd].
  repeat split.
  - exact (user_by_email_new s (new_user s e p (field "full_name" (body req)) ctx) Hu).
  - subst u. unfold new_user. cbn [User.is_admin].
    destruct ADMIN_EMAIL as [a|]; [|discriminate].
    cbn [option_map]. intros H. inversion H as [Heq].
    exists a. split; [reflexivity|]. apply String.eqb_eq. exact Heq.
  - intros (a & Ha & Heq). subst u. unfold new_user. cbn [User.is_admin].
    rewrite Ha. cbn [option_map]. rewrite Heq, String.eqb_refl. reflexivity.
Qed.

(** X23. Login answers 200, with the public columns of the row and a
    token, exactly when a user has the email and [bcrypt.compare]
    accepts the password for the stored hash; an unknown email and a
    wrong password get the same 401 "Invalid credentials".  The store is
    left as it was. *)
Theorem login_outcome (req : request) (ctx : context) (s : store) (e p : string) :
  field "email" (body req) = JS.Str e -> field "password" (body req) = JS.Str p ->
  e <> "" -> p <> "" ->
  fails ctx 0 = false ->
  snd (serve POST_login req ctx s) = s
  /\ ((exists u, user_by_email e s = Some u /\ bcrypt_compare p (User.password_hash u) = true
                 /\ fst (serve POST_login req ctx s) = Ok (session u (now ctx)))
      \/ ((forall u, user_by_email e s = Some u ->
                     bcrypt_compare p (User.password_hash u) = false)
          /\ fst (serve POST_login req ctx s) = Ok (res_error 401 "Invalid credentials"))).
Proof.
  intros He Hp Hne Hnp Hf.
  rewrite (login_run req ctx s e p He Hp Hne Hnp Hf). cbn [fst snd].
  split; [reflexivity|].
  destruct (user_by_email e s) as [u|].
  - destruct (bcrypt_compare p (User.password_hash u)) eqn:Hc.
    + left. exists u. repeat split. exact Hc.
    + right. split; [|reflexivity]. intros u' Hu'. inversion Hu'. subst u'. exact Hc.
  - right. split; [|reflexivity]. intros u' Hu'. discriminate Hu'.
Qed.


(** *** The primary keys and the sequences *)

Lemma fresh_keys_mono {A : Type} (id : A -> Z) (l : list A) (next next' : Z) :
  next <= next' -> fresh_keys id l next -> fresh_keys id l next'.
Proof.
  intros Hle [Hnd Hlt]. split; [exact Hnd|].
  intros x Hx. specialize (Hlt x Hx). lia.
Qed.

Lemma fresh_keys_snoc {A : Type} (id : A -> Z) (l : list A) (next : Z) (x : A) :
  id x = next -> fresh_keys id l next -> fresh_keys id (l ++ [x]) (next + 1).
Proof.
  intros Hx [Hnd Hlt]. split.
  - rewrite map_app. cbn [map]. apply NoDup_app; [exact Hnd|repeat constructor; intros []|].
    intros k Hin [<-|[]]. apply in_map_iff in Hin. destruct Hin as (y & Hy & Hin).
    specialize (Hlt y Hin). lia.
  - intros y Hin. apply in_app_or in Hin. destruct Hin as [Hin|[<-|[]]].
    + specialize (Hlt y Hin). lia.
    + lia.
Qed.

Lemma fresh_keys_map {A : Type} (id : A -> Z) (f : A -> A) (l : list A) (next : Z) :
  (forall x, id (f x) = id x) -> fresh_keys id l next -> fresh_keys id (map f l) next.
Proof.
  intros Hf [Hnd Hlt]. split.
  - rewrite map_map. rewrite (map_ext _ id Hf). exact Hnd.
  - intros y Hin. apply in_map_iff in Hin. destruct Hin as (x & <- & Hin).
    rewrite Hf. exact (Hlt x Hin).
Qed.

Lemma fresh_keys_absent {A : Type} (id : A -> Z) (l : list A) (next : Z) :
  fresh_keys id l next -> find (fun x => id x =? next) l = None.
Proof.
  intros [_ Hlt]. destruct (find (fun x => id x =? next) l) as [x|] eqn:E; [|reflexivity].
  apply find_some in E. destruct E as [Hin Hid]. specialize (Hlt x Hin). lia.
Qed.

Lemma sequences_le_refl (s : store) : sequences_le s s.
Proof. repeat split; lia. Qed.

Lemma sequences_le_trans (s s' s'' : store) :
  sequences_le s s' -> sequences_le s' s'' -> sequences_le s s''.
Proof. intros (? & ? & ? & ?) (? & ? & ? & ?). repeat split; lia. Qed.

Lemma keeps_keys_ret {A : Type} (a : A) : keeps_keys (ret a).
Proof. intros ctx c H. exact H. Qed.

Lemma keeps_keys_lift {A : Type} (o : outcome A) : keeps_keys (lift o).
Proof. intros ctx c H. exact H. Qed.

Lemma keeps_keys_ask : keeps_keys ask.
Proof. intros ctx c H. exact H. Qed.

Lemma keeps_keys_bind {A B : Type} (m : M A) (k : A -> M B) :
  keeps_keys m -> (forall a, keeps_keys (k a)) -> keeps_keys (bind m k).
Proof.
  intros Hm Hk ctx c H. unfold bind. specialize (Hm ctx c H).
  destruct (m ctx c) as [[a|e] c']; [apply Hk, Hm|exact Hm].
Qed.

Lemma keeps_keys_try_catch {A : Type} (body : M A) (handler : error -> M A) :
  keeps_keys body -> (forall e, keeps_keys (handler e)) -> keeps_keys (try_catch body handler).
Proof.
  intros Hb Hh ctx c H. unfold try_catch. specialize (Hb ctx c H).
  destruct (body ctx c) as [[a|e] c']; [exact Hb|apply Hh, Hb].
Qed.

Lemma keeps_keys_client_query {A : Type} (q : statement A) :
  statement_keeps_keys q -> keeps_keys (client_query q).
Proof.
  intros Hq ctx c [Hc Hs]. unfold client_query.
  destruct (fails ctx (calls c)); [split; assumption|].
  destruct (Hq (current c) Hc) as [Hkeys Hle].
  destruct (q (current c)) as [r s']. cbn [snd] in *. split; [exact Hkeys|].
  cbn [snapshot current]. destruct (snapshot c) as [s0|]; [|exact I].
  destruct Hs as [Hs0 Hle0]. split; [exact Hs0|].
  exact (sequences_le_trans _ _ _ Hle0 Hle).
Qed.

Lemma keeps_keys_query {A : Type} (q : statement A) :
  statement_keeps_keys q -> keeps_keys (query q).
Proof. apply keeps_keys_client_query. Qed.

Lemma keeps_keys_BEGIN : keeps_keys BEGIN.
Proof.
  intros ctx c [Hc Hs]. unfold BEGIN.
  destruct (fails ctx (calls c)); [split; assumption|].
  split; [exact Hc|]. cbn. split; [exact Hc|apply sequences_le_refl].
Qed.

Lemma keeps_keys_COMMIT : keeps_keys COMMIT.
Proof.
  intros ctx c [Hc Hs]. unfold COMMIT.
  destruct (fails ctx (calls c)); [split; assumption|].
  split; [exact Hc|exact I].
Qed.

Lemma keeps_keys_ROLLBACK : keeps_keys ROLLBACK.
Proof.
  intros ctx c [Hc Hs]. unfold ROLLBACK. split; [|exact I]. cbn [current].
  destruct (snapshot c) as [s0|]; [|exact Hc].
  destruct Hs as [(Hu & Hm & Hb & Hd) (Lu & Lm & Lb & Ld)].
  unfold restore. repeat split; cbn;
    first [ apply (fresh_keys_mono _ _ _ _ Lu Hu) | apply (fresh_keys_mono _ _ _ _ Lm Hm)
          | apply (fresh_keys_mono _ _ _ _ Lb Hb) | apply (fresh_keys_mono _ _ _ _ Ld Hd) ].
Qed.

Lemma with_param_keeps_keys {Q A : Type} (p : outcome Q) (k : Q -> statement A) :
  (forall v, statement_keeps_keys (k v)) -> statement_keeps_keys (with_param p k).
Proof.
  intros Hk s H. unfold with_param.
  destruct p as [v|e]; [apply Hk, H|split; [exact H|apply sequences_le_refl]].
Qed.

Lemma read_only_keeps_keys {A : Type} (f : store -> A) :
  statement_keeps_keys (fun s => (Ok (f s), s)).
Proof. intros s H. split; [exact H|apply sequences_le_refl]. Qed.

Lemma select_user_keeps_keys (i : Z) : statement_keeps_keys (select_user i).
Proof. apply read_only_keeps_keys. Qed.

Lemma select_user_by_email_keeps_keys (e : JS.value) :
  statement_keeps_keys (select_user_by_email e).
Proof.
  intros s H. unfold select_user_by_email.
  destruct (param_text e); (split; [exact H|apply sequences_le_refl]).
Qed.

Lemma select_match_keeps_keys (v : JS.value) : statement_keeps_keys (select_match v).
Proof.
  apply with_param_keeps_keys. intros [i|] s H; (split; [exact H|apply sequences_le_refl]).
Qed.

Lemma select_deposit_keeps_keys (v : JS.value) : statement_keeps_keys (select_deposit v).
Proof.
  apply with_param_keeps_keys. intros [i|] s H; (split; [exact H|apply sequences_le_refl]).
Qed.

Lemma select_bet_keeps_keys (v : JS.value) : statement_keeps_keys (select_bet v).
Proof.
  apply with_param_keeps_keys. intros [i|] s H; (split; [exact H|apply sequences_le_refl]).
Qed.

(** A step of the proofs below: a table is as it was, under a sequence
    that did not go back, or has one more row with the next key, or has
    the same keys after an UPDATE. *)
Ltac fresh_keys :=
  first [ assumption
        | apply fresh_keys_snoc; [reflexivity|assumption]
        | eapply fresh_keys_mono; [|eassumption]; lia
        | apply fresh_keys_map; [|assumption];
          intros x; match goal with |- context [if ?b then _ else _] => destruct b end;
          reflexivity ].

Ltac keys_and_sequences :=
  split; [split; [|split; [|split]]; cbn; fresh_keys|unfold sequences_le; cbn; lia].

Lemma insert_user_keeps_keys (e : JS.value) (h : string) (f : JS.value)
    (a : option bool) (t : Z) :
  statement_keeps_keys (insert_user e h f a t).
Proof.
  intros s (Hu & Hm & Hb & Hd). unfold insert_user.
  destruct (param_text e); [|keys_and_sequences].
  destruct (existsb _ _); keys_and_sequences.
Qed.

Lemma update_balance_keeps_keys (d : JS.number) (i : Z) :
  statement_keeps_keys (update_balance d i).
Proof. intros s (Hu & Hm & Hb & Hd). unfold update_balance. keys_and_sequences. Qed.

Lemma insert_match_keeps_keys (h a o : JS.value) (t : Z) :
  statement_keeps_keys (insert_match h a o t).
Proof.
  apply with_param_keeps_keys. intros o' s (Hu & Hm & Hb & Hd).
  destruct (param_text h), (param_text a), o'; keys_and_sequences.
Qed.

Lemma insert_deposit_keeps_keys (uid : Z) (v : JS.value) (t : Z) :
  statement_keeps_keys (insert_deposit uid v t).
Proof.
  apply with_param_keeps_keys. intros [a|] s (Hu & Hm & Hb & Hd); [|keys_and_sequences].
  destruct (user_by_id uid s); keys_and_sequences.
Qed.

Lemma update_deposit_approved_keeps_keys (by_user : Z) (v : JS.value) (t : Z) :
  statement_keeps_keys (update_deposit_approved by_user v t).
Proof.
  apply with_param_keeps_keys. intros [i|] s (Hu & Hm & Hb & Hd); [|keys_and_sequences].
  destruct (existsb _ _), (user_by_id by_user s); keys_and_sequences.
Qed.

Lemma insert_bet_keeps_keys (uid : Z) (m st : JS.value) (t : Z) :
  statement_keeps_keys (insert_bet uid m st t).
Proof.
  apply with_param_keeps_keys. intros mid. apply with_param_keeps_keys.
  intros [st'|] s (Hu & Hm & Hb & Hd); [|keys_and_sequences].
  destruct (user_by_id uid s), mid as [mid|]; try keys_and_sequences;
    destruct (match_by_id mid s); keys_and_sequences.
Qed.

Lemma update_bet_settled_keeps_keys (a v : JS.value) :
  statement_keeps_keys (update_bet_settled a v).
Proof.
  apply with_param_keeps_keys. intros p. apply with_param_keeps_keys.
  intros [i|] s (Hu & Hm & Hb & Hd); keys_and_sequences.
Qed.

Create HintDb keys.
#[local] Hint Resolve keeps_keys_ret keeps_keys_lift keeps_keys_ask keeps_keys_BEGIN
  keeps_keys_COMMIT keeps_keys_ROLLBACK read_only_keeps_keys
  select_user_keeps_keys select_user_by_email_keeps_keys select_match_keeps_keys
  select_deposit_keeps_keys select_bet_keeps_keys insert_user_keeps_keys
  update_balance_keeps_keys insert_match_keeps_keys insert_deposit_keeps_keys
  update_deposit_approved_keeps_keys insert_bet_keeps_keys update_bet_settled_keeps_keys
  : keys.

Ltac keeps_keys :=
  repeat first
    [ progress auto with keys
    | apply keeps_keys_bind
    | apply keeps_keys_try_catch
    | apply keeps_keys_client_query
    | apply keeps_keys_query
    | match goal with
      | |- forall _, _ => intro
      | |- keeps_keys (if ?b then _ else _) => destruct b
      | |- keeps_keys (match ?x with _ => _ end) => destruct x
      end ].

Lemma keeps_keys_authMiddleware (req : request) (next : identity -> M response) :
  (forall user, keeps_keys (next user)) -> keeps_keys (authMiddleware req next).
Proof. intros H. unfold authMiddleware. keeps_keys. Qed.

Lemma keeps_keys_adminMiddleware (user : identity) (next : M response) :
  keeps_keys next -> keeps_keys (adminMiddleware user next).
Proof. intros H. unfold adminMiddleware. keeps_keys. Qed.

Lemma handler_keeps_keys (r : route) (req : request) : keeps_keys (handler r req).
Proof.
  destruct r; cbn [handler];
    unfold get_health, post_register, post_login, get_me, handle_me, get_matches,
      post_matches, handle_matches,
      post_deposits_request, handle_deposits_request,
      post_deposits_approve, handle_deposits_approve,
      post_bets_place, handle_bets_place, post_bets_payout, handle_bets_payout,
      get_bets_my, handle_bets_my, get_admin_deposits, handle_admin_deposits,
      get_admin_users, handle_admin_users, get_root;
    cbv zeta;
    repeat first [ apply keeps_keys_authMiddleware; intro | apply keeps_keys_adminMiddleware ];
    keeps_keys.
Qed.


Lemma serve_keeps_keys (r : route) (req : request) (ctx : context) (s : store) :
  primary_keys s -> primary_keys (snd (serve r req ctx s)).
Proof.
  intros H. unfold serve, run.
  pose proof (handler_keeps_keys r req ctx (mkConn None s 0) (conj H I)) as Hk.
  destruct (handler r req ctx (mkConn None s 0)) as [answer c']. apply Hk.
Qed.

Lemma primary_keys_empty : primary_keys empty_store.
Proof. repeat split; try constructor; intros x []. Qed.

Lemma primary_keys_reachable (s s' : store) :
  later s s' -> primary_keys s -> primary_keys s'.
Proof.
  intros Hl H. induction Hl as [|s' r req ctx _ IH]; [exact H|].
  apply serve_keeps_keys, IH.
Qed.

(** X24. The primary keys hold in every store reached from one where
    they hold, the empty store for one: in each table the ids are
    pairwise distinct and below the next value of the sequence, so the
    id an INSERT draws is no row's, even after transactions that failed
    or were rolled back. *)
Theorem primary_keys_always_hold (s s' : store) :
  later s s' -> primary_keys s -> primary_keys s'.
Proof.
  intros Hl H. induction Hl as [|s' r req ctx _ IH]; [exact H|].
  unfold serve, run.
  pose proof (handler_keeps_keys r req ctx (mkConn None s' 0) (conj IH I)) as Hk.
  destruct (handler r req ctx (mkConn None s' 0)) as [answer c']. apply Hk.
Qed.

(** *** Register, then log in or read the profile *)

Lemma email_kept_survives (e : string) (u : User.t) : survives_rollback (email_kept e u).
Proof. intros s0 s H. exact H. Qed.

Lemma email_kept_ignores_matches (e : string) (u : User.t) : ignores_matches (email_kept e u).
Proof. intros s ms n H. exact H. Qed.

Lemma email_kept_ignores_bets (e : string) (u : User.t) : ignores_bets (email_kept e u).
Proof. intros s bs n H. exact H. Qed.

Lemma email_kept_ignores_deposits (e : string) (u : User.t) : ignores_deposits (email_kept e u).
Proof. intros s ds n H. exact H. Qed.

Lemma insert_user_keeps_email (e : string) (u : User.t) (v : JS.value) (h : string)
    (f : JS.value) (a : option bool) (t : Z) :
  statement_keeps (email_kept e u) (insert_user v h f a t).
Proof.
  intros s H. unfold insert_user.
  destruct (param_text v); [|exact H].
  destruct (existsb _ _); [exact H|].
  destruct H as (u' & Hu & Hsame). exists u'. split; [|exact Hsame].
  unfold user_by_email in *. cbn. apply find_app_found, Hu.
Qed.

Lemma update_balance_keeps_email (e : string) (u : User.t) (d : JS.number) (i : Z) :
  statement_keeps (email_kept e u) (update_balance d i).
Proof.
  intros s (u' & Hu & Hsame). rewrite update_balance_run. cbn [snd].
  unfold email_kept, user_by_email, credited in *. cbn [users set_users].
  rewrite find_map_same_key; [|intros x; destruct (User.id x =? i); reflexivity].
  rewrite Hu. cbn [option_map]. eexists. split; [reflexivity|].
  destruct (User.id u' =? i); [|exact Hsame].
  destruct Hsame as (? & ? & ? & ? & ? & ?). repeat split; assumption.
Qed.

#[local] Hint Resolve email_kept_survives email_kept_ignores_matches email_kept_ignores_bets
  email_kept_ignores_deposits insert_user_keeps_email update_balance_keeps_email : keeps.

Lemma handler_keeps_email (r : route) (req : request) (e : string) (u : User.t) :
  keeps (email_kept e u) (handler r req).
Proof. destruct r; cbn [handler]; keeps_route. Qed.

Lemma same_account_trans (u u' u'' : User.t) :
  same_account u u' -> same_account u' u'' -> same_account u u''.
Proof.
  intros (? & ? & ? & ? & ? & ?) (? & ? & ? & ? & ? & ?). repeat split; congruence.
Qed.

(** X25. Register, then log in: where [bcrypt.compare] accepts a
    password for the hash [bcrypt.hash] made of it, a login with the
    email and the password of a registration that succeeded is answered
    200 with the account the registration created (its balance as it
    is by then), whatever was served in between. *)
Theorem register_then_login (req req' : request) (ctx ctx' : context) (s s' : store)
    (e p : string) :
  field "email" (body req) = JS.Str e -> field "password" (body req) = JS.Str p ->
  field "email" (body req') = JS.Str e -> field "password" (body req') = JS.Str p ->
  e <> "" -> p <> "" ->
  user_by_email e s = None ->
  fails ctx 0 = false -> fails ctx' 0 = false ->
  bcrypt_compare p (bcrypt_hash p (salt ctx)) = true ->
  later (snd (serve POST_register req ctx s)) s' ->
  exists u,
    same_account (new_user s e p (field "full_name" (body req)) ctx) u /\
    serve POST_login req' ctx' s' = (Ok (session u (now ctx')), s').
Proof.
  intros He Hp He' Hp' Hne Hnp Hu Hf Hf' Hbcrypt Hl.
  pose (u := new_user s e p (field "full_name" (body req)) ctx).
  rewrite (register_run req ctx s e p He Hp Hne Hnp Hu Hf) in Hl. cbn [snd] in Hl.
  fold u in Hl |- *.
  assert (Hkept : email_kept e u s').
  { apply (later_keeps (email_kept e u) (with_new_user s u) s');
      [intros r r'; apply handler_keeps_email|exact Hl|].
    exists u. split; [exact (user_by_email_new s u Hu)|apply same_account_refl]. }
  destruct Hkept as (u' & Hu' & Hsame). exists u'. split; [exact Hsame|].
  rewrite (login_run req' ctx' s' e p He' Hp' Hne Hnp Hf'), Hu'.
  destruct Hsame as (_ & _ & Hhash & _). rewrite Hhash.
  change (User.password_hash u) with (bcrypt_hash p (salt ctx)). rewrite Hbcrypt. reflexivity.
Qed.

Lemma user_by_id_new (s : store) (u : User.t) :
  primary_keys s -> User.id u = users_id_seq s ->
  user_by_id (User.id u) (with_new_user s u) = Some u.
Proof.
  intros (Hk & _) Hid. unfold user_by_id. cbn [users with_new_user].
  apply find_app_new; [|apply Z.eqb_refl].
  rewrite Hid. exact (fresh_keys_absent User.id (users s) (users_id_seq s) Hk).
Qed.

Lemma me_run (req : request) (ctx : context) (s : store) (user : identity) :
  authenticated req ctx user -> fails ctx 0 = false ->
  serve GET_me req ctx s =
    (match user_by_id (ident_id user) s with
     | Some u => Ok (profile u)
     | None => Ok (res_error 404 "User not found")
     end, s).
Proof.
  intros Hauth Hf. unfold serve, run, handler, get_me. rewrite Hauth.
  unfold handle_me, try_catch, bind, query, client_query, select_user, ret.
  cbn [current calls snapshot]. rewrite Hf.
  destruct (user_by_id (ident_id user) s); reflexivity.
Qed.

(** X26. Register, then read the profile: in a store whose primary keys
    hold, the token a registration answers, sent back as
    [Bearer <token>] while [jwt.verify] reads the id of the account in
    it, is answered by [GET /api/me] with the account the registration
    created, whatever was served in between. *)
Theorem register_then_profile (req req' : request) (ctx ctx' : context) (s s' : store)
    (e p email' : string) :
  field "email" (body req) = JS.Str e -> field "password" (body req) = JS.Str p ->
  e <> "" -> p <> "" ->
  user_by_email e s = None -> primary_keys s ->
  fails ctx 0 = false -> fails ctx' 0 = false ->
  let u := new_user s e p (field "full_name" (body req)) ctx in
  let token := createToken u (now ctx) in
  no_space token = true -> token <> "" ->
  jwt_verify token (now ctx') = Some (User.id u, email') ->
  authorization req' = Some ("Bearer " ++ token) ->
  later (snd (serve POST_register req ctx s)) s' ->
  fst (serve POST_register req ctx s) = Ok (session u (now ctx))
  /\ exists u', same_account u u' /\ serve GET_me req' ctx' s' = (Ok (profile u'), s').
Proof.
  intros He Hp Hne Hnp Hu Hkeys Hf Hf' u token Hword Htoken Hverify Hheader Hl.
  rewrite (register_run req ctx s e p He Hp Hne Hnp Hu Hf) in Hl |- *.
  cbn [fst snd] in Hl |- *. fold u in Hl |- *. split; [reflexivity|].
  assert (Hkept : account_kept (User.id u) u s').
  { apply (later_keeps (account_kept (User.id u) u) (with_new_user s u) s');
      [intros r r'; apply handler_keeps_account|exact Hl|].
    exists u. split; [apply (user_by_id_new s u Hkeys); reflexivity|apply same_account_refl]. }
  destruct Hkept as (u' & Hu' & Hsame). exists u'. split; [exact Hsame|].
  assert (Hauth : authenticated req' ctx' (mkIdentity (User.id u) email')).
  { apply (header_accepted req' ctx' "Bearer" token); try assumption; reflexivity. }
  rewrite (me_run req' ctx' s' _ Hauth Hf'). cbn [ident_id]. rewrite Hu'. reflexivity.
Qed.

(** *** A deposit from the request to the credit, a bet from the stake to
    the payout *)

Lemma request_deposit_run (req : request) (ctx : context) (s : store)
    (user : identity) (u : User.t) (a : numeric) :
  authenticated req ctx user -> reliable ctx ->
  user_by_id (ident_id user) s = Some u ->
  JS.lt JS.zero (Number (field "amount" (body req))) = true ->
  sql_numeric (field "amount" (body req)) = Ok (Some a) ->
  snd (serve POST_deposits_request req ctx s) =
    with_new_deposit s (new_deposit s (ident_id user) a (now ctx)).
Proof.
  intros Hauth Hrel Hu Hpos Ha.
  unfold serve, run, handler, post_deposits_request. rewrite Hauth.
  unfold handle_deposits_request. cbv zeta.
  rewrite (positive_truthy _ Hpos), (positive_not_le_zero _ Hpos). cbn [negb orb].
  unfold insert_deposit, with_param. rewrite Ha. run_monad Hrel. rewrite Hu. reflexivity.
Qed.

Lemma is_admin_after_credit (s : store) (admin : identity) (i : Z) (d : JS.number) :
  is_admin_in s admin -> is_admin_in (set_users s (credited i d (users s))) admin.
Proof.
  intros (a & Ha & Hflag). unfold is_admin_in. rewrite user_by_id_credited, Ha.
  cbn [option_map]. eexists. split; [reflexivity|].
  destruct (User.id a =? i); exact Hflag.
Qed.

(** X27. A deposit from the request to the credit: in a store whose
    primary keys hold, a user who requests a positive amount and an
    admin who then approves the deposit of the id answered leave the
    user with the old balance plus the amount, and the deposit
    approved. *)
Theorem deposit_then_approve (req req' : request) (ctx ctx' : context) (s : store)
    (user admin : identity) (u : User.t) (a : numeric) :
  primary_keys s ->
  authenticated req ctx user -> reliable ctx ->
  user_by_id (ident_id user) s = Some u ->
  JS.lt JS.zero (Number (field "amount" (body req))) = true ->
  sql_numeric (field "amount" (body req)) = Ok (Some a) ->
  authenticated req' ctx' admin -> is_admin_in s admin -> reliable ctx' ->
  names (field "id" (body req')) (deposits_id_seq s) ->
  let s1 := snd (serve POST_deposits_request req ctx s) in
  let s2 := snd (serve POST_deposits_approve req' ctx' s1) in
  option_map User.balance (user_by_id (ident_id user) s1) = Some (User.balance u)
  /\ option_map User.balance (user_by_id (ident_id user) s2)
     = Some (Some (numeric_of_number (JS.add (Number_or_zero (User.balance u)) a)))
  /\ deposit_approved (deposits_id_seq s) s2.
Proof.
  intros Hkeys Hauth Hrel Hu Hpos Ha Hauth' Hadm Hrel' Hid s1 s2.
  pose (d := new_deposit s (ident_id user) a (now ctx)).
  assert (Hs1 : s1 = with_new_deposit s d)
    by exact (request_deposit_run req ctx s user u a Hauth Hrel Hu Hpos Ha).
  assert (Hu1 : user_by_id (ident_id user) s1 = Some u) by (rewrite Hs1; exact Hu).
  assert (Hadm1 : is_admin_in s1 admin) by (rewrite Hs1; exact Hadm).
  assert (Hd1 : deposit_by_id (deposits_id_seq s) s1 = Some d).
  { rewrite Hs1. unfold deposit_by_id. cbn [deposits with_new_deposit].
    apply find_app_new; [|apply Z.eqb_refl].
    destruct Hkeys as (_ & _ & _ & Hk).
    exact (fresh_keys_absent Deposit.id (deposits s) (deposits_id_seq s) Hk). }
  assert (Hs2 : s2 = set_deposits
                       (set_users s1 (credited (ident_id user)
                          (JS.add (Number_or_zero (User.balance u)) a) (users s1)))
                       (approved_rows (deposits_id_seq s) (ident_id admin) (now ctx')
                          (deposits s1)))
    by exact (approve_pending_serve req' ctx' s1 admin (deposits_id_seq s) d u
                Hauth' Hadm1 Hrel' Hid Hd1 eq_refl Hu1).
  split; [rewrite Hu1; reflexivity|]. split.
  - rewrite Hs2.
    change (option_map User.balance
              (user_by_id (ident_id user)
                 (set_users s1 (credited (ident_id user)
                    (JS.add (Number_or_zero (User.balance u)) a) (users s1))))
            = Some (Some (numeric_of_number (JS.add (Number_or_zero (User.balance u)) a)))).
    rewrite (user_by_id_after_credit s1 _ _ u Hu1). reflexivity.
  - rewrite Hs2. unfold deposit_approved, deposit_by_id, approved_rows.
    cbn [deposits set_deposits].
    rewrite find_map_same_key; [|intros x; destruct (Deposit.id x =? deposits_id_seq s) eqn:E; exact E].
    fold (deposit_by_id (deposits_id_seq s) s1).
    rewrite Hd1. cbn [option_map]. eexists. split; [reflexivity|].
    change (Deposit.id d) with (deposits_id_seq s). rewrite Z.eqb_refl. reflexivity.
Qed.

(** X28. A bet from the stake to the payout: in a store whose primary
    keys hold, a user whose balance covers a positive stake on a match
    that exists and an admin who then settles the bet of the id answered
    leave the user with the balance less the stake plus the payout, and
    the bet settled with that payout. *)
Theorem place_then_settle (req req' : request) (ctx ctx' : context) (s : store)
    (user admin : identity) (u : User.t) (mid : Z) (m : Match.t) (st : numeric)
    (p : option numeric) :
  primary_keys s ->
  authenticated req ctx user -> reliable ctx ->
  user_by_id (ident_id user) s = Some u ->
  names (field "match_id" (body req)) mid ->
  match_by_id mid s = Some m ->
  JS.lt JS.zero (Number (field "stake" (body req))) = true ->
  sql_numeric (field "stake" (body req)) = Ok (Some st) ->
  JS.lt (Number_or_zero (User.balance u)) (Number (field "stake" (body req))) = false ->
  authenticated req' ctx' admin -> is_admin_in s admin -> reliable ctx' ->
  names (field "betId" (body req')) (bets_id_seq s) ->
  JS.truthy (field "amount" (body req')) = true ->
  sql_numeric (field "amount" (body req')) = Ok p ->
  let staked := JS.sub (Number_or_zero (User.balance u)) (Number (field "stake" (body req))) in
  let paid := JS.add (numeric_of_number staked) (Number (field "amount" (body req'))) in
  let s1 := snd (serve POST_bets_place req ctx s) in
  let s2 := snd (serve POST_bets_payout req' ctx' s1) in
  option_map User.balance (user_by_id (ident_id user) s1)
    = Some (Some (numeric_of_number staked))
  /\ option_map User.balance (user_by_id (ident_id user) s2)
     = Some (Some (numeric_of_number paid))
  /\ option_map (fun b => (Bet.status b, Bet.payout b)) (bet_by_id (bets_id_seq s) s2)
     = Some (Bet.settled, p).
Proof.
  intros Hkeys Hauth Hrel Hu Hmid Hm Hpos Hst Hfund Hauth' Hadm Hrel' Hid Hta Hp
         staked paid s1 s2.
  pose (bet := new_bet s (ident_id user) mid st (now ctx)).
  pose (s0 := set_users s (credited (ident_id user) staked (users s))).
  assert (Hs1 : s1 = with_new_bet s0 bet)
    by exact (place_funded_serve req ctx s user u mid m st Hauth Hrel Hu Hmid Hm Hpos Hst Hfund).
  assert (Hu1 : user_by_id (ident_id user) s1 = Some (with_balance staked u)).
  { rewrite Hs1. exact (user_by_id_after_credit s _ staked u Hu). }
  assert (Hadm1 : is_admin_in s1 admin).
  { rewrite Hs1. exact (is_admin_after_credit s admin _ staked Hadm). }
  assert (Hb1 : bet_by_id (bets_id_seq s) s1 = Some bet).
  { rewrite Hs1. unfold bet_by_id. cbn [bets with_new_bet s0 set_users].
    apply find_app_new; [|apply Z.eqb_refl].
    destruct Hkeys as (_ & _ & Hk & _).
    exact (fresh_keys_absent Bet.id (bets s) (bets_id_seq s) Hk). }
  assert (Hs2 : s2 = set_bets (set_users s1 (credited (ident_id user) paid (users s1)))
                       (settled_rows (bets_id_seq s) p (bets s1)))
    by exact (payout_open_serve req' ctx' s1 admin (bets_id_seq s) bet (with_balance staked u) p
                Hauth' Hadm1 Hrel' Hid Hta Hp Hb1 eq_refl Hu1).
  split; [rewrite Hu1; reflexivity|]. split.
  - rewrite Hs2.
    change (option_map User.balance
              (user_by_id (ident_id user)
                 (set_users s1 (credited (ident_id user) paid (users s1))))
            = Some (Some (numeric_of_number paid))).
    rewrite (user_by_id_after_credit s1 _ _ _ Hu1). reflexivity.
  - rewrite Hs2. unfold bet_by_id, settled_rows. cbn [bets set_bets].
    rewrite find_map_same_key; [|intros x; destruct (Bet.id x =? bets_id_seq s) eqn:E; exact E].
    fold (bet_by_id (bets_id_seq s) s1).
    rewrite Hb1. cbn [option_map].
    change (Bet.id bet) with (bets_id_seq s). rewrite Z.eqb_refl. reflexivity.
Qed.

(** X29. In a store the application reaches from the empty one, the
    owner of a bet is always found: an admin who settles an open bet
    with an amount that is truthy and that the store reads as a NUMERIC
    is answered 200, never the 500 of a missing owner row. *)
Theorem settle_finds_owner (req : request) (ctx : context) (s : store) (admin : identity)
    (i : Z) (bet : Bet.t) (p : option numeric) :
  later empty_store s ->
  authenticated req ctx admin -> is_admin_in s admin -> reliable ctx ->
  names (field "betId" (body req)) i ->
  JS.truthy (field "amount" (body req)) = true ->
  sql_numeric (field "amount" (body req)) = Ok p ->
  bet_by_id i s = Some bet -> Bet.status bet = Bet.open ->
  (exists owner, user_by_id (Bet.user_id bet) s = Some owner)
  /\ fst (serve POST_bets_payout req ctx s) = Ok (res_json (JObj [("success", JBool true)])).
Proof.
  intros Hl Hauth Hadm Hrel Hn Hta Hp Hb Hst.
  destruct (references_reachable s Hl) as [Hrefs _].
  assert (Hin : In bet (bets s)) by (apply find_some in Hb; apply Hb).
  destruct (Hrefs bet Hin) as [Howner _].
  destruct (user_by_id (Bet.user_id bet) s) as [owner|] eqn:Ho; [|contradiction].
  split; [exists owner; reflexivity|].
  rewrite (post_bets_payout_admin req ctx s admin Hauth Hadm Hrel).
  pose proof (payout_open_run req admin ctx (mkConn None s 1) i bet owner p
                Hrel Hn Hta Hp Hb Hst Ho) as Hrun.
  cbv zeta in Hrun. rewrite Hrun. reflexivity.
Qed.

(** *** Creation of a match *)

(** X30. An admin who posts a home, an away and odds that are truthy
    creates the match with the next id of the sequence; the odds are a
    number that is not 0 and not NaN, and nothing more is asked of
    them: negative odds are stored as they are. *)
Theorem create_match_takes_any_odds (req : request) (ctx : context) (s : store)
    (admin : identity) (home away : string) (odds : JS.number) :
  authenticated req ctx admin -> is_admin_in s admin -> reliable ctx ->
  field "home" (body req) = JS.Str home -> field "away" (body req) = JS.Str away ->
  field "odds" (body req) = JS.Num odds ->
  home <> "" -> away <> "" -> JS.is_zero odds || JS.is_nan odds = false ->
  let m := new_match s home away (numeric_of_number odds) (now ctx) in
  serve POST_matches req ctx s =
    (Ok (res_json (JObj [("match", JObj (match_row m))])), with_new_match s m).
Proof.
  intros Hauth Hadm Hrel Hh Ha Ho Hne Hna Hodds m.
  unfold serve, run, handler, post_matches.
  rewrite Hauth, adminMiddleware_admin; [|exact Hadm|apply Hrel].
  unfold handle_matches. cbv zeta. rewrite Hh, Ha, Ho. cbn [JS.truthy].
  apply String.eqb_neq in Hne, Hna. rewrite Hne, Hna, Hodds. cbn [negb orb].
  unfold insert_match, with_param. cbn [sql_numeric param_text].
  run_monad Hrel. reflexivity.
Qed.

End Properties.

(** ** The properties on the concrete deployment *)
#[local] Existing Instance Deployment.externals.

(** *** Stores the deployment reaches *)

Lemma later_serve_all (calls : list (route * request)) (t : Z) (s0 s : store) :
  later s0 s -> later s0 (snd (Deployment.serve_all t calls s)).
Proof.
  revert t s. induction calls as [|[r req] calls IH]; intros t s Hl; [exact Hl|].
  cbn [Deployment.serve_all].
  pose proof (later_served s0 s r req (Deployment.ctx t) Hl) as Hstep.
  destruct (serve r req (Deployment.ctx t) s) as [a s1]. cbn [snd] in Hstep.
  specialize (IH (t + 1) s1 Hstep).
  destruct (Deployment.serve_all (t + 1) calls s1) as [answers s2]. exact IH.
Qed.

Lemma funded_reachable : later empty_store Deployment.funded.
Proof.
  assert (E : snd (Deployment.serve_all 1 (firstn 5 Deployment.opening) empty_store)
              = Deployment.funded) by (vm_compute; reflexivity).
  rewrite <- E. apply later_serve_all, later_now.
Qed.

Lemma after_opening_reachable : later empty_store Deployment.after_opening.
Proof.
  assert (E : snd (Deployment.serve_all 1 Deployment.opening empty_store)
              = Deployment.after_opening) by (vm_compute; reflexivity).
  rewrite <- E. apply later_serve_all, later_now.
Qed.

Lemma second_deposit_reachable : later empty_store Deployment.second_deposit.
Proof.
  assert (E : snd (Deployment.serve_all 1
                     (firstn 5 Deployment.opening
                        ++ [(POST_deposits_request, Deployment.request_deposit 2 (JS.of_Z 5))])
                     empty_store)
              = Deployment.second_deposit) by (vm_compute; reflexivity).
  rewrite <- E. apply later_serve_all, later_now.
Qed.

Lemma large_deposit_reachable : later empty_store Deployment.large_deposit.
Proof.
  assert (E : snd (Deployment.serve_all 1
                     [ (POST_register, Deployment.register "admin@x.com");
                       (POST_register, Deployment.register "a@x.com");
                       (POST_deposits_request, Deployment.request_deposit 2 (JS.of_Z (2 ^ 53)));
                       (POST_deposits_approve, Deployment.approve_deposit 1 1);
                       (POST_deposits_request, Deployment.request_deposit 2 (JS.of_Z 1)) ]
                     empty_store)
              = Deployment.large_deposit) by (vm_compute; reflexivity).
  rewrite <- E. apply later_serve_all, later_now.
Qed.

Lemma large_staked_reachable : later empty_store Deployment.large_staked.
Proof.
  assert (E : snd (Deployment.serve_all 1
                     (Deployment.opening
                        ++ [(POST_deposits_request,
                             Deployment.request_deposit 2 (JS.of_Z (2 ^ 53)));
                            (POST_deposits_approve, Deployment.approve_deposit 1 2)])
                     empty_store)
              = Deployment.large_staked) by (vm_compute; reflexivity).
  rewrite <- E. apply later_serve_all, later_now.
Qed.


Lemma crowded_reachable : later empty_store Deployment.crowded.
Proof.
  assert (E : snd (Deployment.serve_all 1
                     ((POST_register, Deployment.register "admin@x.com")
                        :: Deployment.crowd 100)
                     empty_store)
              = Deployment.crowded) by (vm_compute; reflexivity).
  rewrite <- E. apply later_serve_all, later_now.
Qed.

Lemma admin_authenticated (t : Z) (b : list (string * JS.value)) :
  authenticated (mkRequest (Deployment.bearer 1) b) (Deployment.ctx t) (mkIdentity 1 "").
Proof. intros next c. reflexivity. Qed.

Lemma player_authenticated (t : Z) (b : list (string * JS.value)) :
  authenticated (mkRequest (Deployment.bearer 2) b) (Deployment.ctx t) (mkIdentity 2 "").
Proof. intros next c. reflexivity. Qed.

Lemma deployment_reliable (t : Z) : reliable (Deployment.ctx t).
Proof. intros n. reflexivity. Qed.


(** The admin settles bet 1 with the amount 0: 400 "Missing params", the store as it was. *)
Lemma payout_rejects_falsy_amount_witness :
  let req := Deployment.settle_bet 1 1 JS.zero in
  let s := Deployment.after_opening in
  JS.truthy (field "amount" (body req)) = false /\
  serve POST_bets_payout req (Deployment.ctx 7) s = (Ok (res_error 400 "Missing params"), s).
Proof.
  intros req s.
  destruct (payout_rejects_falsy_amount req (Deployment.ctx 7) s eq_refl) as (_ & Hs & _ & Hr).
  split; [reflexivity|].
  rewrite (surjective_pairing (serve POST_bets_payout req (Deployment.ctx 7) s)).
  rewrite Hs, (Hr (mkIdentity 1 "")); [reflexivity| | |reflexivity].
  - intros next c. reflexivity.
  - eexists. split; reflexivity.
Defined.

(** C10, the claim refuted: the amount is the text ["0"], which
    [Number] reads as 0 and which is truthy.  The settlement is not
    rejected: a transaction runs, the answer is 200 and bet 1 is settled
    with payout 0. *)
Lemma payout_text_zero_counterexample :
  let s := Deployment.after_opening in
  let req := mkRequest (Deployment.bearer 1)
               [("betId", JS.Num (JS.of_Z 1)); ("amount", JS.Str "0")] in
  let after := serve POST_bets_payout req (Deployment.ctx 7) s in
  later empty_store s
  /\ Number (field "amount" (body req)) = JS.zero
  /\ JS.truthy (field "amount" (body req)) = true
  /\ option_map Bet.status (bet_by_id 1 s) = Some Bet.open
  /\ fst after = Ok (res_json (JObj [("success", JBool true)]))
  /\ option_map (fun b => (Bet.status b, Bet.payout b)) (bet_by_id 1 (snd after))
     = Some (Bet.settled, Some JS.zero)
  /\ snd after <> s.
Proof.
  cbv zeta. split; [exact after_opening_reachable|].
  repeat (split; [vm_compute; reflexivity|]).
  vm_compute. discriminate.
Qed.

(** C1 (the code at the failing input). After the opening the player's
    balance is 0 and the bet is open; the admin settles the bet with the
    amount -5, which passes the validation (it is truthy); every request
    of the sequence is answered 200 and the player's balance is -5,
    below 0. *)
Theorem negative_payout_leaves_negative_balance :
  let requests :=
    (Deployment.opening
       ++ [(POST_bets_payout, Deployment.settle_bet 1 1 (JS.of_Z (-5)))])%list in
  let result := Deployment.serve_all 1 requests empty_store in
  map (fun a => match a with Ok resp => status resp | Throw _ => 0 end) (fst result)
    = [200; 200; 200; 200; 200; 200; 200]
  /\ option_map User.balance (user_by_id 2 (snd result)) = Some (Some (JS.of_Z (-5)))
  /\ JS.lt (JS.of_Z (-5)) JS.zero = true.
Proof. vm_compute. repeat split. Qed.

(** C3, the claim refuted, in a store reached by serving requests: the
    player holds 2^53 and deposit 2, of 1, is pending.  The approval is
    answered 200 and the deposit is approved, but the balance written is
    2^53, not 2^53 + 1: the credit is not [a], it is nothing. *)
Lemma approve_large_balance_counterexample :
  let s := Deployment.large_deposit in
  let after := serve POST_deposits_approve (Deployment.approve_deposit 1 2)
                 (Deployment.ctx 6) s in
  let b := JS.of_Z (2 ^ 53) in
  let a := JS.of_Z 1 in
  later empty_store s
  /\ option_map User.balance (user_by_id 2 s) = Some (Some b)
  /\ option_map (fun d => (Deposit.amount d, Deposit.status d)) (deposit_by_id 2 s)
     = Some (a, Deposit.pending)
  /\ fst after = Ok (res_json (JObj [("success", JBool true); ("newBalance", JNum b)]))
  /\ option_map Deposit.status (deposit_by_id 2 (snd after)) = Some Deposit.approved
  /\ option_map User.balance (user_by_id 2 (snd after)) = Some (Some b)
  /\ (exists qb qa,
        JS.to_Q b = Some qb /\ JS.to_Q a = Some qa
        /\ (qb == inject_Z (2 ^ 53))%Q /\ (qa == 1)%Q /\ ~ (qb == qb + qa)%Q).
Proof.
  cbv zeta. split; [exact large_deposit_reachable|].
  repeat (split; [vm_compute; reflexivity|]).
  eexists _, _.
  split; [vm_compute; reflexivity|]. split; [vm_compute; reflexivity|].
  split; [vm_compute; reflexivity|]. split; [vm_compute; reflexivity|].
  vm_compute. discriminate.
Qed.

(** The player holds 10 and the admin approves the deposit of 5: the
    player holds 15; a second call is answered 400 and credits nothing. *)
Lemma approve_deposit_once_witness :
  let s := Deployment.second_deposit in
  let req := Deployment.approve_deposit 1 2 in
  let s1 := snd (serve POST_deposits_approve req (Deployment.ctx 7) s) in
  option_map User.balance (user_by_id 2 s) = Some (Some (JS.of_Z 10))
  /\ option_map Deposit.amount (deposit_by_id 2 s) = Some (JS.of_Z 5)
  /\ option_map User.balance (user_by_id 2 s1) = Some (Some (JS.of_Z 15))
  /\ serve POST_deposits_approve req (Deployment.ctx 8) s1
     = (Ok (res_error 400 "Already approved"), s1).
Proof.
  intros s req s1.
  assert (Hauth : forall t, authenticated req (Deployment.ctx t) (mkIdentity 1 ""))
    by (intros t next c; reflexivity).
  assert (Hadm : is_admin_in s (mkIdentity 1 "")) by (eexists; split; reflexivity).
  assert (Hrel : forall t, reliable (Deployment.ctx t)) by (intros t n; reflexivity).
  assert (Hn : names (field "id" (body req)) 2) by (split; vm_compute; reflexivity).
  destruct (approve_deposit_once req (Deployment.ctx 7) s (mkIdentity 1 "") 2
              (Deposit.make 2 2 (JS.of_Z 5) Deposit.pending 6 None None)
              (User.make 2 "a@x.com" "saltp" None 2 (Some (JS.of_Z 10)) (Some false))
              (Hauth 7) Hadm (Hrel 7) Hn eq_refl eq_refl eq_refl)
    as (_ & Hu & _ & _ & Hlater & _ & _).
  split; [reflexivity|]. split; [reflexivity|]. split.
  - eapply eq_trans; [exact (f_equal (option_map User.balance) Hu)|vm_compute; reflexivity].
  - apply (Hlater req (Deployment.ctx 8) (mkIdentity 1 "") s1
             (Deposit.make 2 2 (JS.of_Z 5) Deposit.approved 6 (Some 1) (Some 7)) (Hauth 8));
      [|apply Hrel|exact Hn|vm_compute; reflexivity|reflexivity].
    eexists; split; vm_compute; reflexivity.
Defined.



(** C6, the claim refuted, in stores reached by serving requests.
    Bet 1 is open and its owner has a row; the first settlement, with
    amount 0, is answered 400 "Missing params", the bet stays open and
    nothing is credited.  And where the owner holds 2^53, the settlement
    with amount 1 is answered 200 and the bet is settled with payout 1,
    but the balance written is 2^53, not 2^53 + 1. *)
Lemma settle_bet_counterexample :
  let s := Deployment.after_opening in
  let req := Deployment.settle_bet 1 1 JS.zero in
  let s' := Deployment.large_staked in
  let after' := serve POST_bets_payout (Deployment.settle_bet 1 1 (JS.of_Z 1))
                  (Deployment.ctx 9) s' in
  let b := JS.of_Z (2 ^ 53) in
  (later empty_store s
   /\ option_map Bet.status (bet_by_id 1 s) = Some Bet.open
   /\ option_map User.id (user_by_id 2 s) = option_map Bet.user_id (bet_by_id 1 s)
   /\ serve POST_bets_payout req (Deployment.ctx 7) s
      = (Ok (res_error 400 "Missing params"), s))
  /\ (later empty_store s'
      /\ option_map Bet.status (bet_by_id 1 s') = Some Bet.open
      /\ option_map User.balance (user_by_id 2 s') = Some (Some b)
      /\ fst after' = Ok (res_json (JObj [("success", JBool true)]))
      /\ option_map (fun x => (Bet.status x, Bet.payout x)) (bet_by_id 1 (snd after'))
         = Some (Bet.settled, Some (JS.of_Z 1))
      /\ option_map User.balance (user_by_id 2 (snd after')) = Some (Some b)
      /\ (exists qb qa,
            JS.to_Q b = Some qb /\ JS.to_Q (JS.of_Z 1) = Some qa
            /\ (qa == 1)%Q /\ ~ (qb == qb + qa)%Q)).
Proof.
  cbv zeta. split.
  - split; [exact after_opening_reachable|].
    repeat split; vm_compute; reflexivity.
  - split; [exact large_staked_reachable|].
    repeat (split; [vm_compute; reflexivity|]).
    eexists _, _.
    split; [vm_compute; reflexivity|]. split; [vm_compute; reflexivity|].
    split; [vm_compute; reflexivity|].
    vm_compute. discriminate.
Qed.

(** The player holds 7 and the admin settles bet 1 with 20: the player
    holds 27, the payout is 20; a second call is answered 400. *)
Lemma settle_bet_once_witness :
  let s := Deployment.staked in
  let req := Deployment.settle_bet 1 1 (JS.of_Z 20) in
  let s1 := snd (serve POST_bets_payout req (Deployment.ctx 9) s) in
  JS.truthy (field "amount" (body req)) = true
  /\ option_map User.balance (user_by_id 2 s) = Some (Some (JS.of_Z 7))
  /\ option_map User.balance (user_by_id 2 s1) = Some (Some (JS.of_Z 27))
  /\ option_map Bet.payout (bet_by_id 1 s1) = Some (Some (JS.of_Z 20))
  /\ serve POST_bets_payout req (Deployment.ctx 10) s1
     = (Ok (res_error 400 "Already settled"), s1).
Proof.
  intros s req s1.
  assert (Hauth : forall t, authenticated req (Deployment.ctx t) (mkIdentity 1 ""))
    by (intros t next c; reflexivity).
  assert (Hadm : is_admin_in s (mkIdentity 1 "")) by (eexists; split; reflexivity).
  assert (Hrel : forall t, reliable (Deployment.ctx t)) by (intros t n; reflexivity).
  assert (Hn : names (field "betId" (body req)) 1) by (split; vm_compute; reflexivity).
  assert (Hp : sql_numeric (field "amount" (body req)) = Ok (Some (JS.of_Z 20)))
    by (vm_compute; reflexivity).
  destruct (settle_bet_once req (Deployment.ctx 9) s (mkIdentity 1 "") 1
              (Bet.make 1 2 (Some 1) (JS.of_Z 10) Bet.open (Some JS.zero) 6)
              (User.make 2 "a@x.com" "saltp" None 2 (Some (JS.of_Z 7)) (Some false))
              (Some (JS.of_Z 20))
              (Hauth 9) Hadm (Hrel 9) Hn eq_refl Hp eq_refl eq_refl eq_refl)
    as (_ & Hu & _ & Hb & Hlater & _ & _).
  split; [reflexivity|]. split; [reflexivity|]. split; [|split].
  - eapply eq_trans; [exact (f_equal (option_map User.balance) Hu)|vm_compute; reflexivity].
  - exact (f_equal (option_map Bet.payout) Hb).
  - apply (Hlater req (Deployment.ctx 10) (mkIdentity 1 "") s1
             (Bet.make 1 2 (Some 1) (JS.of_Z 10) Bet.settled (Some (JS.of_Z 20)) 6) (Hauth 10));
      [|apply Hrel|exact Hn|reflexivity|vm_compute; reflexivity|reflexivity].
    eexists; split; vm_compute; reflexivity.
Defined.

(** C7, the claim refuted: the player holds 0.1 and the deposit is of
    0.2 (the numbers nearest to these decimals); after the approval the
    balance is neither the exact sum of the two numbers nor 0.3, nor the
    number nearest to 0.3. *)
Lemma approve_rounds_counterexample :
  let s := Deployment.tenth_credited in
  let s1 := snd (serve POST_deposits_approve (Deployment.approve_deposit 1 2)
                   (Deployment.ctx 6) s) in
  let b := JS.of_decimal 1 1 in
  let a := JS.of_decimal 2 1 in
  let c := JS.add b a in
  option_map User.balance (user_by_id 2 s) = Some (Some b)
  /\ option_map Deposit.amount (deposit_by_id 2 s) = Some a
  /\ option_map User.balance (user_by_id 2 s1) = Some (Some c)
  /\ (exists qb qa qc,
        JS.to_Q b = Some qb /\ JS.to_Q a = Some qa /\ JS.to_Q c = Some qc
        /\ (Qabs (qb - (1 # 10)) <= 1 # 2 ^ 57)%Q
        /\ (Qabs (qa - (2 # 10)) <= 1 # 2 ^ 56)%Q
        /\ ~ (qc == qb + qa)%Q
        /\ ~ (qc == 3 # 10)%Q)
  /\ c <> JS.of_decimal 3 1.
Proof.
  cbv zeta. split; [vm_compute; reflexivity|].
  split; [vm_compute; reflexivity|].
  split; [vm_compute; reflexivity|].
  split.
  - eexists _, _, _.
    split; [vm_compute; reflexivity|].
    split; [vm_compute; reflexivity|].
    split; [vm_compute; reflexivity|].
    split; [apply Qle_bool_iff; vm_compute; reflexivity|].
    split; [apply Qle_bool_iff; vm_compute; reflexivity|].
    split; intros H; apply Qeq_bool_iff in H; vm_compute in H; discriminate H.
  - vm_compute. discriminate.
Qed.

(** The player holds 0.1 and a deposit of 0.2 is approved: the balance is the binary64 sum. *)
Lemma balance_arithmetic_is_binary64_witness :
  let s := Deployment.tenth_credited in
  let req := Deployment.approve_deposit 1 2 in
  option_map User.balance
    (user_by_id 2 (snd (serve POST_deposits_approve req (Deployment.ctx 6) s)))
  = Some (Some (numeric_of_number (SFadd 53 1024 (JS.of_decimal 1 1) (JS.of_decimal 2 1)))).
Proof.
  intros s req.
  assert (Hauth : authenticated req (Deployment.ctx 6) (mkIdentity 1 ""))
    by (intros next c; reflexivity).
  assert (Hadm : is_admin_in s (mkIdentity 1 "")) by (eexists; split; reflexivity).
  assert (Hrel : reliable (Deployment.ctx 6)) by (intros n; reflexivity).
  assert (Hn : names (field "id" (body req)) 2) by (split; vm_compute; reflexivity).
  exact (proj1 balance_arithmetic_is_binary64 req (Deployment.ctx 6) s (mkIdentity 1 "") 2
           (Deposit.make 2 2 (JS.of_decimal 2 1) Deposit.pending 5 None None)
           (User.make 2 "a@x.com" "saltp" None 2 (Some (JS.of_decimal 1 1)) (Some false))
           Hauth Hadm Hrel Hn
           eq_refl eq_refl eq_refl).
Defined.

(** A third user registers: the answer lists the five public columns. *)
Lemma password_hash_not_exposed_witness :
  let req := Deployment.register "b@x.com" in
  exists resp,
    fst (serve POST_register req (Deployment.ctx 8) Deployment.after_opening) = Ok resp
    /\ status resp = 200
    /\ user_keys resp = Some ["id"; "email"; "full_name"; "balance"; "is_admin"].
Proof.
  intros req. eexists. split; [vm_compute; reflexivity|].
  split; [reflexivity|].
  apply (password_hash_not_exposed POST_register req (Deployment.ctx 8)
           Deployment.after_opening).
  - left. reflexivity.
  - vm_compute. reflexivity.
  - reflexivity.
Defined.

(** A bet without Authorization header: 401, the store as it was. *)
Lemma unauthenticated_is_refused_witness :
  let req := mkRequest None [("match_id", JS.Num (JS.of_Z 1)); ("stake", JS.Num (JS.of_Z 10))] in
  exists resp,
    serve POST_bets_place req (Deployment.ctx 6) Deployment.funded = (Ok resp, Deployment.funded)
    /\ status resp = 401.
Proof.
  intros req.
  exact (unauthenticated_is_refused POST_bets_place req (Deployment.ctx 6) Deployment.funded
           eq_refl
           (fun user H =>
              authenticated_not_refused req (Deployment.ctx 6) user
                (res_error 401 "Missing auth header") H (fun next c => eq_refl))).
Defined.

(** The player tries to approve the deposit: 403, the store as it was. *)
Lemma admin_only_witness :
  let req := Deployment.approve_deposit 2 1 in
  let s := Deployment.deposit_requested in
  option_map User.is_admin (user_by_id 2 s) = Some (Some false)
  /\ serve POST_deposits_approve req (Deployment.ctx 5) s = (Ok (res_error 403 "Admin only"), s).
Proof.
  intros req s. split; [reflexivity|].
  apply (admin_only POST_deposits_approve req (Deployment.ctx 5) s (mkIdentity 2 ""));
    [reflexivity | intros next c; reflexivity | | reflexivity].
  intros (u & Hu & Ha). vm_compute in Hu. inversion Hu; subst u. discriminate Ha.
Defined.

(** The player requests a deposit of -3: 400 "Invalid amount". *)
Lemma request_deposit_rejects_invalid_amount_witness :
  let req := Deployment.request_deposit 2 (JS.of_Z (-3)) in
  let s := Deployment.after_opening in
  JS.le (Number (field "amount" (body req))) JS.zero = true
  /\ serve POST_deposits_request req (Deployment.ctx 7) s
     = (Ok (res_error 400 "Invalid amount"), s).
Proof.
  intros req s. split; [reflexivity|].
  destruct (request_deposit_rejects_invalid_amount req (Deployment.ctx 7) s eq_refl)
    as (Hs & Hr).
  rewrite (surjective_pairing (serve POST_deposits_request req (Deployment.ctx 7) s)).
  rewrite Hs, (Hr (mkIdentity 2 "")); [reflexivity|].
  intros next c. reflexivity.
Defined.


(** The player's email is registered again: 409, the users as they were. *)
Lemma register_duplicate_email_witness :
  let req := Deployment.register "a@x.com" in
  let s := Deployment.after_opening in
  fst (serve POST_register req (Deployment.ctx 7) s) = Ok (res_error 409 "Email already exists")
  /\ users (snd (serve POST_register req (Deployment.ctx 7) s)) = users s.
Proof.
  intros req s.
  destruct (register_duplicate_email req (Deployment.ctx 7) s "a@x.com" "p"
              (User.make 2 "a@x.com" "saltp" None 2 (Some JS.zero) (Some false))
              eq_refl eq_refl) as (Hr & Hu & _);
    [discriminate | discriminate | reflexivity | reflexivity |].
  split; [exact Hr|exact Hu].
Defined.

(** The player stakes 10 on match 999: 404, the store as it was. *)
Lemma place_bet_unknown_match_witness :
  let req := Deployment.place_bet 2 999 (JS.of_Z 10) in
  let s := Deployment.funded in
  match_by_id 999 s = None
  /\ serve POST_bets_place req (Deployment.ctx 6) s = (Ok (res_error 404 "Match not found"), s).
Proof.
  intros req s. split; [reflexivity|].
  apply (place_bet_unknown_match req (Deployment.ctx 6) s (mkIdentity 2 "")
           (User.make 2 "a@x.com" "saltp" None 2 (Some (JS.of_Z 10)) (Some false)) 999);
    try reflexivity.
  - intros next c. reflexivity.
  - intros n. reflexivity.
  - split; vm_compute; reflexivity.
Defined.

(** The player, holding 0, stakes the text "NaN": accepted, the balance is NaN. *)
Lemma nan_stake_is_accepted_witness :
  let req := mkRequest (Deployment.bearer 2)
               [("match_id", JS.Num (JS.of_Z 1)); ("stake", JS.Str "NaN")] in
  let s := Deployment.after_opening in
  option_map User.balance (user_by_id 2 s) = Some (Some JS.zero)
  /\ option_map User.balance (user_by_id 2 (snd (serve POST_bets_place req (Deployment.ctx 7) s)))
     = Some (Some JS.NaN).
Proof.
  intros req s. split; [reflexivity|].
  assert (Hauth : authenticated req (Deployment.ctx 7) (mkIdentity 2 ""))
    by (intros next c; reflexivity).
  assert (Hrel : reliable (Deployment.ctx 7)) by (intros n; reflexivity).
  assert (Hn : names (field "match_id" (body req)) 1) by (split; vm_compute; reflexivity).
  exact (proj1 (proj2 (nan_stake_is_accepted req (Deployment.ctx 7) s (mkIdentity 2 "")
           (User.make 2 "a@x.com" "saltp" None 2 (Some JS.zero) (Some false))
           1 (Match.make 1 "A" "B" (JS.of_Z 2) 3)
           eq_refl eq_refl Hauth Hrel eq_refl Hn eq_refl eq_refl))).
Defined.

(** The fault of the specification's test, on the deployment: the player
    holds 10 and stakes 10; the balance test passes, the UPDATE of the
    balance runs, the INSERT of the bet fails.  The answer is 500, the
    balance is still 10 and there is no bet. *)
Example place_bet_fault_after_debit :
  let failing := mkContext 6 "salt" (fun n => Nat.eqb n 4) in
  let after := serve POST_bets_place (Deployment.place_bet 2 1 (JS.of_Z 10)) failing
                 Deployment.funded in
  fst after = Ok (res_error 500 "Server error")
  /\ option_map User.balance (user_by_id 2 (snd after)) = Some (Some (JS.of_Z 10))
  /\ bets (snd after) = [].
Proof. vm_compute. repeat split. Qed.

(** *** The further properties on the deployment *)

(** The list of matches, asked after the opening: the store as it was. *)
Lemma read_routes_leave_store_witness :
  snd (serve GET_matches (mkRequest None []) (Deployment.ctx 7) Deployment.after_opening)
  = Deployment.after_opening.
Proof.
  apply (read_routes_leave_store GET_matches (mkRequest None []) (Deployment.ctx 7)
           Deployment.after_opening).
  reflexivity.
Defined.

(** The player's account once the deposit is approved: the same but for
    the balance. *)
Lemma account_is_fixed_witness :
  let s := Deployment.deposit_requested in
  let s' := snd (serve POST_deposits_approve (Deployment.approve_deposit 1 1)
                   (Deployment.ctx 5) s) in
  exists u', user_by_id 2 s' = Some u' /\
             same_account (User.make 2 "a@x.com" "saltp" None 2 (Some JS.zero) (Some false)) u'.
Proof.
  intros s s'.
  apply (account_is_fixed s s' 2); [apply later_served, later_now|reflexivity].
Defined.

(** Bet 1 and deposit 1 once the bet is settled. *)
Lemma wagers_and_requests_are_fixed_witness :
  let s := Deployment.after_opening in
  let s' := snd (serve POST_bets_payout (Deployment.settle_bet 1 1 (JS.of_Z 20))
                   (Deployment.ctx 7) s) in
  (exists b', bet_by_id 1 s' = Some b' /\
              same_wager (Bet.make 1 2 (Some 1) (JS.of_Z 10) Bet.open (Some JS.zero) 6) b')
  /\ (exists d', deposit_by_id 1 s' = Some d' /\
                 same_request
                   (Deposit.make 1 2 (JS.of_Z 10) Deposit.approved 4 (Some 1) (Some 5)) d').
Proof.
  intros s s'.
  destruct (wagers_and_requests_are_fixed s s' (later_served s s _ _ _ (later_now s)))
    as [Hb Hd].
  split; [apply Hb|apply Hd]; reflexivity.
Defined.

(** The player stakes 10: the row of the admin is as it was. *)
Lemma others_cannot_touch_account_witness :
  let s := Deployment.funded in
  let req := Deployment.place_bet 2 1 (JS.of_Z 10) in
  user_by_id 1 (snd (serve POST_bets_place req (Deployment.ctx 6) s)) = user_by_id 1 s.
Proof.
  intros s req.
  apply (others_cannot_touch_account POST_bets_place req (Deployment.ctx 6) s 1);
    [|reflexivity].
  intros caller Hc.
  rewrite (authenticated_unique req (Deployment.ctx 6) caller (mkIdentity 2 "") Hc
             (player_authenticated 6 _)).
  split; [discriminate|].
  intros (u & Hu & Ha). vm_compute in Hu. inversion Hu; subst u. discriminate Ha.
Defined.

(** The references after the opening. *)
Lemma references_always_hold_witness : references_hold Deployment.after_opening.
Proof. apply (references_always_hold Deployment.after_opening), after_opening_reachable. Defined.

(** The emails after the opening. *)
Lemma emails_stay_unique_witness : emails_unique Deployment.after_opening.
Proof.
  apply (emails_stay_unique empty_store Deployment.after_opening);
    [apply after_opening_reachable|constructor].
Defined.

(** The bets of the player after the opening. *)
Lemma my_bets_lists_own_bets_witness :
  let s := Deployment.after_opening in
  let req := mkRequest (Deployment.bearer 2) [] in
  exists rows,
    (forall b, In b rows <-> In b (bets s) /\ Bet.user_id b = 2) /\
    serve GET_bets_my req (Deployment.ctx 7) s =
      (Ok (res_json (JObj [("bets", JArr (map (bet_row s) rows))])), s).
Proof.
  intros s req.
  destruct (my_bets_lists_own_bets req (Deployment.ctx 7) s (mkIdentity 2 "")
              (player_authenticated 7 []) eq_refl) as (rows & _ & Hin & _ & Hrun).
  exists rows. split; [exact Hin|exact Hrun].
Defined.

(** The deposits that wait once one is requested. *)
Lemma admin_deposits_lists_pending_witness :
  let s := Deployment.deposit_requested in
  let req := mkRequest (Deployment.bearer 1) [] in
  exists rows,
    (forall d, In d rows <-> In d (deposits s) /\ Deposit.status d = Deposit.pending) /\
    serve GET_admin_deposits req (Deployment.ctx 5) s =
      (Ok (res_json (JObj [("deposits", JArr (map (deposit_row s) rows))])), s).
Proof.
  intros s req.
  destruct (admin_deposits_lists_pending req (Deployment.ctx 5) s (mkIdentity 1 "")
              (admin_authenticated 5 []))
    as (rows & _ & Hin & _ & Hrun);
    [eexists; split; reflexivity|apply deployment_reliable|].
  exists rows. split; [exact Hin|exact Hrun].
Defined.


(** The token of user 1 behind the scheme [Basic]. *)
Lemma auth_scheme_is_not_checked_witness :
  authenticated (mkRequest (Some "Basic ti") []) (Deployment.ctx 7) (mkIdentity 1 "").
Proof.
  apply (auth_scheme_is_not_checked (mkRequest (Some "Basic ti") []) (Deployment.ctx 7)
           "Basic" "ti" 1 ""); try reflexivity.
  discriminate.
Defined.

(** A third user registers after the opening: user 3, balance 0, no
    admin. *)
Lemma register_creates_account_witness :
  let s := Deployment.after_opening in
  let req := Deployment.register "b@x.com" in
  let u := User.make 3 "b@x.com" "saltp" None 7 (Some JS.zero) (Some false) in
  serve POST_register req (Deployment.ctx 7) s
  = (Ok (session u 7), with_new_user s u).
Proof.
  intros s req u.
  destruct (register_creates_account req (Deployment.ctx 7) s "b@x.com" "p" eq_refl eq_refl)
    as (Hr & Hs & _); [discriminate|discriminate|reflexivity|reflexivity|].
  rewrite (surjective_pairing (serve POST_register req (Deployment.ctx 7) s)).
  rewrite Hr, Hs. reflexivity.
Defined.

(** The player logs in after the opening. *)
Lemma login_outcome_witness :
  let s := Deployment.after_opening in
  let req := Deployment.register "a@x.com" in
  snd (serve POST_login req (Deployment.ctx 7) s) = s
  /\ exists resp, fst (serve POST_login req (Deployment.ctx 7) s) = Ok resp.
Proof.
  intros s req.
  destruct (login_outcome req (Deployment.ctx 7) s "a@x.com" "p" eq_refl eq_refl)
    as (Hs & [(u & _ & _ & Hr)|(_ & Hr)]);
    try discriminate; try reflexivity;
    (split; [exact Hs|eexists; exact Hr]).
Defined.

(** The keys after the opening. *)
Lemma primary_keys_always_hold_witness : primary_keys Deployment.after_opening.
Proof.
  apply (primary_keys_always_hold empty_store Deployment.after_opening);
    [apply after_opening_reachable|apply primary_keys_empty].
Defined.

(** The player registers in the empty store, someone else registers,
    the player logs in. *)
Lemma register_then_login_witness :
  let req := Deployment.register "a@x.com" in
  let s1 := snd (serve POST_register req (Deployment.ctx 1) empty_store) in
  let s2 := snd (serve POST_register (Deployment.register "b@x.com") (Deployment.ctx 2) s1) in
  exists u, User.id u = 1 /\ serve POST_login req (Deployment.ctx 3) s2 = (Ok (session u 3), s2).
Proof.
  intros req s1 s2.
  destruct (register_then_login req req (Deployment.ctx 1) (Deployment.ctx 3) empty_store s2
              "a@x.com" "p" eq_refl eq_refl eq_refl eq_refl)
    as (u & (Hid & _) & Hrun);
    try discriminate; try reflexivity.
  - apply later_served, later_now.
  - exists u. split; [exact Hid|exact Hrun].
Defined.

(** The first user registers in the empty store and reads the profile
    with the token answered. *)
Lemma register_then_profile_witness :
  let req := Deployment.register "a@x.com" in
  let s1 := snd (serve POST_register req (Deployment.ctx 1) empty_store) in
  exists u, User.id u = 1 /\
            serve GET_me (mkRequest (Deployment.bearer 1) []) (Deployment.ctx 2) s1
            = (Ok (profile u), s1).
Proof.
  intros req s1.
  destruct (register_then_profile req (mkRequest (Deployment.bearer 1) [])
              (Deployment.ctx 1) (Deployment.ctx 2) empty_store s1
              "a@x.com" "p" "" eq_refl eq_refl)
    as (_ & u & (Hid & _) & Hrun);
    try discriminate; try reflexivity.
  - apply primary_keys_empty.
  - apply later_now.
  - exists u. split; [exact Hid|exact Hrun].
Defined.

(** The player, holding 10, requests 10 more and the admin approves
    deposit 2: the player holds 10 + 10. *)
Lemma deposit_then_approve_witness :
  let s := Deployment.funded in
  let s1 := snd (serve POST_deposits_request (Deployment.request_deposit 2 (JS.of_Z 10))
                   (Deployment.ctx 6) s) in
  let s2 := snd (serve POST_deposits_approve (Deployment.approve_deposit 1 2)
                   (Deployment.ctx 7) s1) in
  option_map User.balance (user_by_id 2 s2)
  = Some (Some (numeric_of_number (JS.add (JS.of_Z 10) (JS.of_Z 10)))).
Proof.
  intros s s1 s2.
  destruct (deposit_then_approve
              (Deployment.request_deposit 2 (JS.of_Z 10)) (Deployment.approve_deposit 1 2)
              (Deployment.ctx 6) (Deployment.ctx 7) s (mkIdentity 2 "") (mkIdentity 1 "")
              (User.make 2 "a@x.com" "saltp" None 2 (Some (JS.of_Z 10)) (Some false))
              (JS.of_Z 10)
              (primary_keys_reachable _ _ funded_reachable primary_keys_empty)
              (player_authenticated 6 _) (deployment_reliable 6) eq_refl eq_refl eq_refl
              (admin_authenticated 7 _))
    as (_ & Hb & _);
    [eexists; split; reflexivity|apply deployment_reliable|split; vm_compute; reflexivity|].
  exact Hb.
Defined.

(** The player, holding 10, stakes 10 on match 1 and the admin settles
    the bet with 20: the player holds 10 - 10 + 20. *)
Lemma place_then_settle_witness :
  let s := Deployment.funded in
  let s1 := snd (serve POST_bets_place (Deployment.place_bet 2 1 (JS.of_Z 10))
                   (Deployment.ctx 6) s) in
  let s2 := snd (serve POST_bets_payout (Deployment.settle_bet 1 1 (JS.of_Z 20))
                   (Deployment.ctx 7) s1) in
  option_map User.balance (user_by_id 2 s2) = Some (Some (JS.of_Z 20))
  /\ option_map (fun b => (Bet.status b, Bet.payout b)) (bet_by_id 1 s2)
     = Some (Bet.settled, Some (JS.of_Z 20)).
Proof.
  intros s s1 s2.
  assert (Hmatch : names (field "match_id" (body (Deployment.place_bet 2 1 (JS.of_Z 10)))) 1)
    by (split; vm_compute; reflexivity).
  assert (Hbet : names (field "betId" (body (Deployment.settle_bet 1 1 (JS.of_Z 20)))) 1)
    by (split; vm_compute; reflexivity).
  assert (Hadm : is_admin_in s (mkIdentity 1 "")) by (eexists; split; reflexivity).
  destruct (place_then_settle
              (Deployment.place_bet 2 1 (JS.of_Z 10)) (Deployment.settle_bet 1 1 (JS.of_Z 20))
              (Deployment.ctx 6) (Deployment.ctx 7) s (mkIdentity 2 "") (mkIdentity 1 "")
              (User.make 2 "a@x.com" "saltp" None 2 (Some (JS.of_Z 10)) (Some false))
              1 (Match.make 1 "A" "B" (JS.of_Z 2) 3) (JS.of_Z 10) (Some (JS.of_Z 20))
              (primary_keys_reachable _ _ funded_reachable primary_keys_empty)
              (player_authenticated 6 _) (deployment_reliable 6) eq_refl Hmatch
              eq_refl eq_refl eq_refl eq_refl (admin_authenticated 7 _) Hadm
              (deployment_reliable 7) Hbet eq_refl eq_refl)
    as (_ & Hb & Hsettled).
  split; [exact Hb|exact Hsettled].
Defined.

(** The admin settles bet 1 after the opening: its owner, user 2, is
    found. *)
Lemma settle_finds_owner_witness :
  let s := Deployment.after_opening in
  let req := Deployment.settle_bet 1 1 (JS.of_Z 20) in
  fst (serve POST_bets_payout req (Deployment.ctx 7) s)
  = Ok (res_json (JObj [("success", JBool true)])).
Proof.
  intros s req.
  assert (Hbet : names (field "betId" (body req)) 1) by (split; vm_compute; reflexivity).
  assert (Hadm : is_admin_in s (mkIdentity 1 "")) by (eexists; split; reflexivity).
  destruct (settle_finds_owner req (Deployment.ctx 7) s (mkIdentity 1 "") 1
              (Bet.make 1 2 (Some 1) (JS.of_Z 10) Bet.open (Some JS.zero) 6)
              (Some (JS.of_Z 20)) after_opening_reachable (admin_authenticated 7 _)
              Hadm (deployment_reliable 7) Hbet eq_refl eq_refl eq_refl eq_refl)
    as (_ & Hr).
  exact Hr.
Defined.

(** The admin creates a match with the odds -2. *)
Lemma create_match_takes_any_odds_witness :
  let s := Deployment.funded in
  let req := mkRequest (Deployment.bearer 1)
               [("home", JS.Str "C"); ("away", JS.Str "D"); ("odds", JS.Num (JS.of_Z (-2)))] in
  let m := Match.make 2 "C" "D" (JS.of_Z (-2)) 6 in
  JS.lt (Match.odds m) JS.zero = true
  /\ serve POST_matches req (Deployment.ctx 6) s =
       (Ok (res_json (JObj [("match", JObj (match_row m))])), with_new_match s m).
Proof.
  intros s req m. split; [reflexivity|].
  apply (create_match_takes_any_odds req (Deployment.ctx 6) s (mkIdentity 1 "") "C" "D"
           (JS.of_Z (-2)) (admin_authenticated 6 _));
    try reflexivity; try discriminate;
    try apply deployment_reliable.
  eexists; split; reflexivity.
Defined.
